(** * pandoc-fignos: figure numbering and caption rendering

    A shallow embedding of [pandoc_fignos.py] (version 2.0.0b1).  The module
    level variables of the filter are gathered in one record that is passed
    explicitly; an uncaught Python exception is a [Raise] result.  *)

From Stdlib Require Import ZArith Lia DecimalString Ascii String.
From stdpp Require Import base gmap strings list.

Open Scope Z_scope.

(** ** Python values and built-ins *)

(** A Python string is modelled by its UTF-8 bytes.  The string operations
    of the filter test, remove and insert ASCII characters only, which are
    single bytes that occur in no multi-byte sequence, so they act on the
    bytes as they act on the code points. *)

(** The scalar Python objects that reach the filter: attribute values, the
    section number stamped on a figure, entries of the reference table and
    metadata strings and booleans. *)
Inductive pyval :=
| VNone
| VBool (b : bool)
| VInt (n : Z)
| VStr (s : string).

(** What [get_meta] hands back for a metadata variable: a scalar, or a list
    of scalars for a metadata list. *)
Inductive metaval :=
| MScalar (v : pyval)
| MList (l : list pyval).

(** Uncaught exceptions.  An [AssertionError] carries the line of the
    [assert] statement that failed. *)
Inductive exn :=
| IndexError
| KeyError
| TypeError
| ValueError
| AttributeError
| RecursionError
| AssertionError (line : nat).

Inductive res (A : Type) :=
| Ok (a : A)
| Raise (e : exn).
Arguments Ok {A} a.
Arguments Raise {A} e.

#[global] Instance res_ret : MRet res := fun A a => Ok a.
#[global] Instance res_bind : MBind res := fun A B k m =>
  match m with
  | Ok a => k a
  | Raise e => Raise e
  end.

#[global] Instance res_fmap : FMap res := fun A B f m =>
  match m with
  | Ok a => Ok (f a)
  | Raise e => Raise e
  end.

Definition is_ok {A} (m : res A) : bool :=
  match m with Ok _ => true | Raise _ => false end.

(** Python [==] on scalars; [True == 1] and [False == 0] hold in Python. *)
Definition py_eqb (a b : pyval) : bool :=
  match a, b with
  | VNone, VNone => true
  | VBool x, VBool y => Bool.eqb x y
  | VInt x, VInt y => x =? y
  | VBool x, VInt y => Z.b2z x =? y
  | VInt x, VBool y => x =? Z.b2z y
  | VStr x, VStr y => String.eqb x y
  | _, _ => false
  end.

(** Python [==] on lists: same length and pairwise [==]. *)
Fixpoint py_list_eqb (l1 l2 : list pyval) : bool :=
  match l1, l2 with
  | [], [] => true
  | x :: l1', y :: l2' => py_eqb x y && py_list_eqb l1' l2'
  | _, _ => false
  end.

(** [str(n)] for an integer. *)
Definition str_of_Z (n : Z) : string := NilZero.string_of_int (Z.to_int n).

(** [str(v)], also what [%s] prints. *)
Definition py_str (v : pyval) : string :=
  match v with
  | VNone => "None"
  | VBool true => "True"
  | VBool false => "False"
  | VInt n => str_of_Z n
  | VStr s => s
  end.

(** [isinstance(v, int)]: [bool] is a subclass of [int]. *)
Definition is_int (v : pyval) : bool :=
  match v with VInt _ | VBool _ => true | _ => false end.

(** [isinstance(v, STRTYPES)]. *)
Definition is_str (v : pyval) : bool :=
  match v with VStr _ => true | _ => false end.

(** [x in l] for a list of string literals. *)
Definition str_in (x : string) (l : list string) : bool :=
  existsb (String.eqb x) l.

(** [s.startswith(p)] *)
Fixpoint startswith (s p : string) {struct p} : bool :=
  match p with
  | EmptyString => true
  | String a p' =>
      match s with
      | EmptyString => false
      | String b s' => Ascii.eqb a b && startswith s' p'
      end
  end.

(** The last character of a string, [s[-1]]. *)
Fixpoint last_char (s : string) : option ascii :=
  match s with
  | EmptyString => None
  | String c EmptyString => Some c
  | String _ r => last_char r
  end.

(** The first character of a string, [s[0]]. *)
Definition first_char (s : string) : option ascii :=
  match s with
  | EmptyString => None
  | String c _ => Some c
  end.

(** [s.endswith(c)] for a one-character suffix. *)
Definition endswith_char (s : string) (c : ascii) : bool :=
  match last_char s with
  | Some d => Ascii.eqb d c
  | None => false
  end.

Definition startswith_char (s : string) (c : ascii) : bool :=
  match first_char s with
  | Some d => Ascii.eqb d c
  | None => false
  end.

(** [s.lstrip(c)], [s.rstrip(c)] and [s.strip(c)] for a one-character set:
    every leading and every trailing occurrence is removed. *)
Fixpoint lstrip (c : ascii) (s : string) : string :=
  match s with
  | EmptyString => EmptyString
  | String d r => if Ascii.eqb d c then lstrip c r else s
  end.

Fixpoint rstrip (c : ascii) (s : string) : string :=
  match s with
  | EmptyString => EmptyString
  | String d r =>
      match rstrip c r with
      | EmptyString => if Ascii.eqb d c then EmptyString else String d EmptyString
      | r' => String d r'
      end
  end.

Definition strip (c : ascii) (s : string) : string := rstrip c (lstrip c s).

(** [s.replace(' ', r'\ ')]. *)
Fixpoint replace_space (s : string) : string :=
  match s with
  | EmptyString => EmptyString
  | String c r =>
      if Ascii.eqb c " "%char then String "\"%char (String " "%char (replace_space r))
      else String c (replace_space r)
  end.

(** [s[:-1]] and [s[1:-1]]. *)
Fixpoint drop_last (s : string) : string :=
  match s with
  | EmptyString => EmptyString
  | String _ EmptyString => EmptyString
  | String c r => String c (drop_last r)
  end.

Definition slice_1_m1 (s : string) : string :=
  match s with
  | EmptyString => EmptyString
  | String _ r => drop_last r
  end.

Definition dquote : ascii := ascii_of_nat 34.
Definition squote : ascii := "'"%char.

(** ** Document nodes *)

(** The attribute object of a node ([PandocAttributes]): identifier, classes
    and the key/value mapping that [attrs[key]], [attrs[key] = v] and
    [key in attrs] work on.  The section number stamped by the upstream pass
    sits in the mapping under [secno], a user tag under [tag]. *)
Record Attributes := mkAttributes {
  attrs_id : string;
  attrs_classes : list string;
  attrs_kvs : gmap string pyval
}.

Definition set_id (i : string) (a : Attributes) : Attributes :=
  mkAttributes i (attrs_classes a) (attrs_kvs a).

Definition set_kv (k : string) (v : pyval) (a : Attributes) : Attributes :=
  mkAttributes (attrs_id a) (attrs_classes a) (<[k:=v]> (attrs_kvs a)).

(** [key in attrs] *)
Definition has_key (k : string) (a : Attributes) : bool :=
  bool_decide (is_Some (attrs_kvs a !! k)).

Inductive MathType := InlineMath | DisplayMath.

(** Inline and block elements.  The content list of an image is
    [[attributes, caption, [url, title]]]; it has only two entries, caption
    and target, when no attributes are attached.  A footnote holds blocks.
    [OtherInline] stands for the other inline elements, with the inlines
    they hold (emphasis, links, spans and the like), and [OtherBlock] for
    the other blocks, with what they hold in document order: runs of
    inlines (the text of a header, the caption of a table, the term of a
    definition) and lists of blocks (what a block quote or a div holds, the
    items of a list, the cells of a table).  Both carry the name of their
    element type. *)
#[warnings="-register-all"]
Inductive Inline :=
| Str (s : string)
| Space
| Math (t : MathType) (s : string)
| RawInline (f : string) (s : string)
| Image (attrs : option Attributes) (caption : list Inline)
        (target : string * string)
| Note (blocks : list Block)
| OtherInline (t : string) (content : list Inline)
with Block :=
| Para (value : list Inline)
| RawBlock (f : string) (s : string)
| OtherBlock (t : string) (parts : list Part)
with Part :=
| Inlines (content : list Inline)
| Blocks (blocks : list Block).

(** The largest of the numbers a function gives on a list. *)
Definition max_of {A : Type} (f : A -> nat) (l : list A) : nat :=
  fold_right (fun x m => Nat.max (f x) m) 0%nat l.

(** The nesting of the calls a walk makes at an element.  An image counts as
    one that has a caption. *)
Fixpoint inline_depth (x : Inline) : nat :=
  match x with
  | Image _ caption _ => S (Nat.max 1 (max_of inline_depth caption))
  | Note blocks => S (max_of block_depth blocks)
  | OtherInline _ content => S (max_of inline_depth content)
  | _ => 1
  end
with block_depth (b : Block) : nat :=
  match b with
  | Para value => S (S (max_of inline_depth value))
  | RawBlock _ _ => 2
  | OtherBlock _ parts => S (S (max_of part_depth parts))
  end
with part_depth (part : Part) : nat :=
  match part with
  | Inlines content => max_of inline_depth content
  | Blocks blocks => max_of block_depth blocks
  end.

(** ** Module state *)

(** Meta variables; may be reset by [process]. *)
Record MetaVars := mkMetaVars {
  captionname : string;
  cleveref : bool;
  capitalise : bool;
  plusname : list string;
  starname : list string;
  numbersections : bool;
  warninglevel : Z
}.

(** Processing state variables. *)
Record ProcState := mkProcState {
  cursec : pyval;
  Nreferences : Z;
  references : gmap string (pyval * pyval)
}.

(** Processing flags. *)
Record Flags := mkFlags {
  captionname_changed : bool;
  plusname_changed : bool;
  starname_changed : bool;
  has_unnumbered_figures : bool;
  has_tagged_figures : bool
}.

Record Globals := mkGlobals {
  vars : MetaVars;
  proc : ProcState;
  flags : Flags;
  PANDOCVERSION : string
}.

Definition with_vars (v : MetaVars) (g : Globals) : Globals :=
  mkGlobals v (proc g) (flags g) (PANDOCVERSION g).
Definition with_proc (p : ProcState) (g : Globals) : Globals :=
  mkGlobals (vars g) p (flags g) (PANDOCVERSION g).
Definition with_flags (f : Flags) (g : Globals) : Globals :=
  mkGlobals (vars g) (proc g) f (PANDOCVERSION g).

Definition set_cursec (v : pyval) (g : Globals) : Globals :=
  with_proc (mkProcState v (Nreferences (proc g)) (references (proc g))) g.
Definition set_Nreferences (n : Z) (g : Globals) : Globals :=
  with_proc (mkProcState (cursec (proc g)) n (references (proc g))) g.
Definition set_reference (k : string) (v : pyval * pyval) (g : Globals) : Globals :=
  with_proc (mkProcState (cursec (proc g)) (Nreferences (proc g))
                         (<[k:=v]> (references (proc g)))) g.
Definition set_has_unnumbered_figures (b : bool) (g : Globals) : Globals :=
  let f := flags g in
  with_flags (mkFlags (captionname_changed f) (plusname_changed f)
                      (starname_changed f) b (has_tagged_figures f)) g.
Definition set_has_tagged_figures (b : bool) (g : Globals) : Globals :=
  let f := flags g in
  with_flags (mkFlags (captionname_changed f) (plusname_changed f)
                      (starname_changed f) (has_unnumbered_figures f) b) g.

(** The values the module starts with.  [PANDOCVERSION] is set by [main]
    before anything reads it. *)
Definition initial_vars : MetaVars :=
  mkMetaVars "Figure" false false ["fig."; "figs."] ["Figure"; "Figures"] false 1.
Definition initial_proc : ProcState := mkProcState VNone 0 ∅.
Definition initial_flags : Flags := mkFlags false false false false false.
Definition initial (pandocversion : string) : Globals :=
  mkGlobals initial_vars initial_proc initial_flags pandocversion.

(** ** Actions *)

(** [LABEL_PATTERN.match(s)] as a truth value.  The pattern is the literal
    [fig:] followed by a starred character class, which also matches the
    empty string, so a match object is returned exactly when [s] starts with
    the literal. *)
Definition LABEL_PATTERN_match (s : string) : bool := startswith s "fig:".

(** The dict a figure is described by.  The keys [attrs] and [caption] are
    absent until the figure is parsed. *)
Record Fig := mkFig {
  is_unnumbered : bool;
  is_unreferenceable : bool;
  is_tagged : bool;
  fig_attrs : option Attributes;
  fig_caption : option (list Inline)
}.

(** Lines 188-191: remove any surrounding quotes from the tag.  Indexing an
    empty string raises [IndexError]; a value that is not a string cannot be
    indexed. *)
Definition remove_quotes (a : Attributes) : res Attributes :=
  match attrs_kvs a !! "tag" with
  | None => Raise KeyError
  | Some (VStr s) =>
      match first_char s, last_char s with
      | Some c0, Some c1 =>
          if Ascii.eqb c0 dquote && Ascii.eqb c1 dquote
          then Ok (set_kv "tag" (VStr (strip dquote s)) a)
          else if Ascii.eqb c0 squote && Ascii.eqb c1 squote
          then Ok (set_kv "tag" (VStr (strip squote s)) a)
          else Ok a
      | _, _ => Raise IndexError
      end
  | Some _ => Raise TypeError
  end.

Definition html_docx : list string :=
  ["html"; "html5"; "epub"; "epub2"; "epub3"; "docx"].
Definition html_like : list string :=
  ["html"; "html5"; "epub"; "epub2"; "epub3"].
Definition tex_like : list string := ["latex"; "beamer"].

(** Lines 168-171: update the current section number. *)
Definition update_section (secno : pyval) (st : Globals) : Globals :=
  if negb (py_eqb secno (cursec (proc st)))
  then set_Nreferences 1 (set_cursec secno st)
  else st.

(** Lines 175-182: hard-code a section-wise number as a tag. *)
Definition number_by_section (fmt : string) (a : Attributes) (st : Globals)
  : Attributes * Globals :=
  if numbersections (vars st) then
    if str_in fmt html_docx && negb (has_key "tag" a) then
      (set_kv "tag"
         (VStr (py_str (cursec (proc st)) +:+ "." +:+
                str_of_Z (Nreferences (proc st)))) a,
       set_Nreferences (Nreferences (proc st) + 1) st)
    else (a, st)
  else (a, st).

(** Lines 184-195: save the reference information.  The boolean is
    [fig['is_tagged']]. *)
Definition save_reference (a : Attributes) (st : Globals)
  : res (bool * Attributes * Globals) :=
  if has_key "tag" a then
    a ← remove_quotes a;
    match attrs_kvs a !! "tag" with
    | Some tag =>
        Ok (true, a, set_reference (attrs_id a) (tag, cursec (proc st)) st)
    | None => Raise KeyError
    end
  else
    let st := set_Nreferences (Nreferences (proc st) + 1) st in
    Ok (false, a,
        set_reference (attrs_id a)
          (VInt (Nreferences (proc st)), cursec (proc st)) st).

(** Lines 163-166: identify unreferenceable figures. *)
Definition name_anonymous (uuid4 : string) (a : Attributes) : Attributes :=
  if String.eqb (attrs_id a) "fig:" then set_id (attrs_id a +:+ uuid4) a else a.

(** [_process_figure(value, fmt)].  [uuid4] is the text [str(uuid.uuid4())]
    evaluates to, should the call be made.  The caller guarantees that
    [value[0]] is an image. *)
Definition _process_figure (uuid4 : string) (value : list Inline)
    (fmt : string) (st : Globals) : res (Fig * Globals) :=
  match value with
  | Image None _ _ :: _ =>
      (* Bail out if there are no attributes *)
      Ok (mkFig true true false None None, set_has_unnumbered_figures true st)
  | Image (Some a) cap _ :: _ =>
      if negb (LABEL_PATTERN_match (attrs_id a)) then
        (* Bail out if the label does not conform to expectations *)
        Ok (mkFig true true false (Some a) (Some cap),
            set_has_unnumbered_figures true st)
      else
        let unref := String.eqb (attrs_id a) "fig:" in
        let a := name_anonymous uuid4 a in
        match attrs_kvs a !! "secno" with
        | None => Raise KeyError
        | Some secno =>
            let st := update_section secno st in
            let '(a, st) := number_by_section fmt a st in
            '(tagged, a, st) ← save_reference a st;
            Ok (mkFig false unref tagged (Some a) (Some cap), st)
        end
  | _ => Raise TypeError
  end.

(** Lines 225-229: the inlines a tag is shown as, math or text. *)
Definition tag_elements (text : string) : list Inline :=
  if startswith text "$" && endswith_char text "$"%char
  then [Math InlineMath (slice_1_m1 (replace_space text)); Str ":"]
  else [Str (text +:+ ":")].

(** [_adjust_caption(fmt, fig, value)]: the paragraph content with the
    caption of its image adjusted. *)
Definition _adjust_caption (fmt : string) (fig : Fig) (value : list Inline)
    (st : Globals) : res (list Inline) :=
  match fig_attrs fig, fig_caption fig, value with
  | Some attrs, Some caption, Image a cap tgt :: rest =>
      if str_in fmt tex_like then
        (* Append a \label if this is referenceable *)
        if String.ltb (PANDOCVERSION st) "1.17" && negb (is_unreferenceable fig)
        then Ok (Image a
                   (cap ++ [RawInline "tex"
                              ("\protect\label{" +:+ attrs_id attrs +:+ "}")])
                   tgt :: rest)
        else Ok value
      else
        (* Hard-code in the caption name and number/tag *)
        if is_unnumbered fig then Ok value
        else
          match references (proc st) !! attrs_id attrs with
          | None => Raise KeyError
          | Some (disp, _) =>
              let name := captionname (vars st) in
              if is_int disp then
                (* Numbered reference *)
                let num := Str (str_of_Z (match disp with
                                          | VInt n => n
                                          | VBool b => Z.b2z b
                                          | _ => 0
                                          end) +:+ ":") in
                let pre :=
                  if str_in fmt html_like
                  then [RawInline "html" "<span>"; Str name; Space; num;
                        RawInline "html" "</span>"]
                  else [Str name; Space; num] in
                Ok (Image a (pre ++ [Space] ++ caption) tgt :: rest)
              else
                (* Tagged reference *)
                match disp with
                | VStr text =>
                    let els := tag_elements text in
                    let pre :=
                      if str_in fmt html_like
                      then [RawInline "html" "<span>"; Str name; Space]
                             ++ els ++ [RawInline "html" "</span>"]
                      else [Str name; Space] ++ els in
                    Ok (Image a (pre ++ [Space] ++ caption) tgt :: rest)
                | _ => Raise (AssertionError 223)
                end
          end
  | None, _, _ | _, None, _ => Raise KeyError
  | _, _, _ => Raise TypeError
  end.

(** [_add_markup(fmt, fig, value)]: the blocks that replace the paragraph,
    if any. *)
Definition _add_markup (fmt : string) (fig : Fig) (value : list Inline)
    (st : Globals) : res (option (list Block) * Globals) :=
  if is_unnumbered fig then
    if str_in fmt tex_like then
      (* Use the no-prefix-figure-caption environment *)
      Ok (Some [RawBlock "tex" "\begin{fignos:no-prefix-figure-caption}";
                Para value;
                RawBlock "tex" "\end{fignos:no-prefix-figure-caption}"], st)
    else Ok (None, st)
  else
    match fig_attrs fig with
    | None => Raise KeyError
    | Some attrs =>
        if str_in fmt tex_like then
          if is_tagged fig then
            (* Use the tagged-figure environment *)
            let st := set_has_tagged_figures true st in
            match references (proc st) !! attrs_id attrs with
            | None => Raise KeyError
            | Some (disp, _) =>
                Ok (Some [RawBlock "tex"
                            ("\begin{fignos:tagged-figure}[" +:+ py_str disp
                             +:+ "]");
                          Para value;
                          RawBlock "tex" "\end{fignos:tagged-figure}"], st)
            end
          else Ok (None, st)
        else if str_in fmt html_like then
          if String.ltb (PANDOCVERSION st) "1.16"
             && LABEL_PATTERN_match (attrs_id attrs)
          then Ok (Some [RawBlock "html"
                           ("<a name=" +:+ String dquote (attrs_id attrs)
                            +:+ String dquote "></a>");
                         Para value], st)
          else Ok (None, st)
        else if String.eqb fmt "docx" then
          Ok (Some [RawBlock "openxml"
                      ("<w:bookmarkStart w:id=" +:+ String dquote "0"
                       +:+ String dquote " w:name="
                       +:+ String dquote (attrs_id attrs)
                       +:+ String dquote "/>");
                    Para value;
                    RawBlock "openxml"
                      ("<w:bookmarkEnd w:id=" +:+ String dquote "0"
                       +:+ String dquote "/>")], st)
        else Ok (None, st)
    end.

(** The test of lines 287-288.  [value[0]['c'][-1][1]] is the second
    component of the image target, its title. *)
Definition is_figure_para (key : string) (value : list Inline) : bool :=
  String.eqb key "Para" && (length value =? 1)%nat &&
  match value with
  | Image _ _ (_, title) :: _ => startswith title "fig:"
  | _ => false
  end.

(** [process_figures(key, value, fmt, meta)].  The result holds the return
    value of the action, the content of the element after the call (the
    action changes it in place) and the module state.  [value] is read only
    when [key] is [Para], where it is the list of inlines of the paragraph. *)
Definition process_figures (uuid4 : string) (key : string)
    (value : list Inline) (fmt : string) (st : Globals)
  : res (option (list Block) * list Inline * Globals) :=
  if is_figure_para key value then
    (* Process the figure and add markup *)
    '(fig, st) ← _process_figure uuid4 value fmt st;
    value ← (if bool_decide (is_Some (fig_attrs fig))
             then _adjust_caption fmt fig value st
             else Ok value);
    '(ret, st) ← _add_markup fmt fig value st;
    Ok (ret, value, st)
  else Ok (None, value, st).

(** ** TeX blocks *)

(** The blocks written to header-includes.  Where the source applies the
    [%] operator to a template, the definition takes the inserted strings as
    arguments and a doubled percent sign of the template is a single one. *)

Definition NO_PREFIX_CAPTION_ENV_TEX : string :=
  "
%% pandoc-fignos: environment to disable figure caption prefixes
\makeatletter
\newcounter{figno}
\newenvironment{fignos:no-prefix-figure-caption}{
  \caption@ifcompatibility{}{
    \let\oldthefigure\thefigure
    \let\oldtheHfigure\theHfigure
    \renewcommand{\thefigure}{figno:\thefigno}
    \renewcommand{\theHfigure}{figno:\thefigno}
    \stepcounter{figno}
    \captionsetup{labelformat=empty}
  }
}{
  \caption@ifcompatibility{}{
    \captionsetup{labelformat=default}
    \let\thefigure\oldthefigure
    \let\theHfigure\oldtheHfigure
    \addtocounter{figure}{-1}
  }
}
\makeatother
".

Definition TAGGED_FIGURE_ENV_TEX : string :=
  "
%% pandoc-fignos: environment for tagged figures
\newenvironment{fignos:tagged-figure}[1][]{
  \let\oldthefigure\thefigure
  \let\oldtheHfigure\theHfigure
  \renewcommand{\thefigure}{#1}
  \renewcommand{\theHfigure}{#1}
}{
  \let\thefigure\oldthefigure
  \let\theHfigure\oldtheHfigure
  \addtocounter{figure}{-1}
}
".

Definition CAPTION_NAME_TEX (name : string) : string :=
  "
% pandoc-fignos: change the caption name
\renewcommand{\figurename}{" +:+ name +:+ "}
".

Definition NUMBER_BY_SECTION_TEX : string :=
  "
%% pandoc-fignos: number figures by section
\numberwithin{figure}{section}
".

Definition cleveref_tex (option : string) : string :=
  "
            %% pandoc-fignos: required package
            \usepackage" +:+ option +:+ "{cleveref}
        ".

Definition caption_package_tex : string :=
  "
            %%%% pandoc-fignos: required package
            \usepackage{caption}
        ".

Definition crefname_tex (singular plural : string) : string :=
  "
            %% pandoc-fignos: change cref names
            \crefname{figure}{" +:+ singular +:+ "}{" +:+ plural +:+ "}
        ".

Definition Crefname_tex (singular plural : string) : string :=
  "            %% pandoc-fignos: change Cref names
            \Crefname{figure}{" +:+ singular +:+ "}{" +:+ plural +:+ "}
        ".

(** ** Main program *)

(** The document metadata: the variables, each with the value [get_meta]
    returns for it, and the header-includes collection. *)
Record Meta := mkMeta {
  meta_vars : gmap string metaval;
  header_includes : list string
}.

(** The value of the first of [names] that is in the metadata: the loops
    of the form [for name in names: if name in meta: ...; break]. *)
Fixpoint first_present (names : list string) (meta : Meta) : option metaval :=
  match names with
  | [] => None
  | name :: rest =>
      match meta_vars meta !! name with
      | Some v => Some v
      | None => first_present rest meta
      end
  end.

(** The strings of a list when all its entries are strings. *)
Fixpoint strs_of (l : list pyval) : option (list string) :=
  match l with
  | [] => Some []
  | VStr s :: r => cons s <$> strs_of r
  | _ :: _ => None
  end.

(** A name option (lines 424-433 and 438-447): the list a name variable is
    set to, given its old value, and whether that changed it.  The source
    assigns the variable before it checks it; as a failed check ends the run,
    the state here is written after the checks.  [line] is the line of the
    length assertion, the type assertion is two lines further. *)
Definition read_names (line : nat) (tmp : metaval) (old : list string)
  : res (list string * bool) :=
  new ← match tmp with
        | MList l => Ok l                    (* both forms were given *)
        | MScalar v =>                       (* only the singular form *)
            match old with
            | [] => Raise IndexError
            | _ :: r => Ok (v :: (VStr <$> r))
            end
        end;
  let changed := negb (py_list_eqb new (VStr <$> old)) in
  if negb (length new =? 2)%nat then Raise (AssertionError line)
  else match strs_of new with
       | None => Raise (AssertionError (line + 2))
       | Some names => Ok (names, changed)
       end.

Section Program.

(** Built-ins and library functions [process] relies on: [str.title],
    [int] on a string ([None] when the string is no integer literal) and
    [pandocxnos.check_bool]. *)
Variable title : string -> string.
Variable int_of_str : string -> option Z.
Variable check_bool : metaval -> res bool.

Definition py_int (v : metaval) : res Z :=
  match v with
  | MScalar (VInt n) => Ok n
  | MScalar (VBool b) => Ok (Z.b2z b)
  | MScalar (VStr s) =>
      match int_of_str s with
      | Some n => Ok n
      | None => Raise ValueError
      end
  | _ => Raise TypeError
  end.

(** Lines 380-383. *)
Definition read_warninglevel (meta : Meta) (v : MetaVars) : res Z :=
  match first_present ["fignos-warning-level"; "xnos-warning-level"] meta with
  | Some x => py_int x
  | None => Ok (warninglevel v)
  end.

(** Lines 401-405: the caption name and whether it changed. *)
Definition read_captionname (meta : Meta) (v : MetaVars) (f : Flags)
  : res (string * bool) :=
  match meta_vars meta !! "fignos-caption-name" with
  | Some (MScalar (VStr s)) => Ok (s, negb (String.eqb s (captionname v)))
  | Some _ => Raise (AssertionError 405)
  | None => Ok (captionname v, captionname_changed f)
  end.

(** The boolean options (lines 407-411, 413-421 and 449-452). *)
Definition read_flag (names : list string) (meta : Meta) (old : bool)
  : res bool :=
  match first_present names meta with
  | Some x => check_bool x
  | None => Ok old
  end.

(** Lines 423-435: the mid-sentence names, whether they changed, and the
    sentence-initial names, which are replaced by the title-cased
    mid-sentence names if those changed. *)
Definition read_plusname (meta : Meta) (v : MetaVars) (f : Flags)
  : res (list string * bool * list string) :=
  match meta_vars meta !! "fignos-plus-name" with
  | Some tmp =>
      '(names, changed) ← read_names 431 tmp (plusname v);
      Ok (names, changed,
          if changed : bool then title <$> names else starname v)
  | None => Ok (plusname v, plusname_changed f, starname v)
  end.

(** Lines 437-447: the sentence-initial names and whether they changed. *)
Definition read_starname (meta : Meta) (starname0 : list string) (f : Flags)
  : res (list string * bool) :=
  match meta_vars meta !! "fignos-star-name" with
  | Some tmp => read_names 445 tmp starname0
  | None => Ok (starname0, starname_changed f)
  end.

(** [process(meta)].  The diagnostics written to standard error are left
    out. *)
Definition process (meta : Meta) (st : Globals) : res Globals :=
  let v := vars st in
  let f := flags st in
  warninglevel' ← read_warninglevel meta v;
  '(captionname', captionname_changed') ← read_captionname meta v f;
  cleveref' ← read_flag ["fignos-cleveref"; "xnos-cleveref"] meta (cleveref v);
  capitalise' ←
    read_flag ["xnos-capitalise"; "xnos-capitalize"] meta (capitalise v);
  '(plusname', plusname_changed', starname0) ← read_plusname meta v f;
  '(starname', starname_changed') ← read_starname meta starname0 f;
  numbersections' ←
    read_flag ["fignos-number-sections"; "xnos-number-sections"] meta
      (numbersections v);
  Ok (with_flags
        (mkFlags captionname_changed' plusname_changed' starname_changed'
                 (has_unnumbered_figures f) (has_tagged_figures f))
        (with_vars
           (mkMetaVars captionname' cleveref' capitalise' plusname'
                       starname' numbersections' warninglevel') st)).

(** Regular-expression search of the [re] module, used by the library to
    detect a declaration that is already present. *)
Variable re_search : string -> string -> bool.

(** Modelled from the spec: [pandocxnos.add_tex_to_header_includes], which
    is not part of this repository.  A declaration is appended to the
    header-includes collection unless the duplicate-detection pattern, when
    one is given, matches text that is already present.  The warning level
    only selects what is reported on standard error. *)
Definition add_tex_to_header_includes (meta : Meta) (tex : string)
    (warninglevel : Z) (regex : option string) : Meta :=
  let present :=
    match regex with
    | Some r => existsb (re_search r) (header_includes meta)
    | None => false
    end in
  if present then meta
  else mkMeta (meta_vars meta) (header_includes meta ++ [tex]).

(** [l[i]] *)
Definition index (l : list string) (i : nat) : res string :=
  match l !! i with
  | Some x => Ok x
  | None => Raise IndexError
  end.

(** [add_tex(meta)].  [cleveref_required] is the value of
    [pandocxnos.cleveref_required()]; the notice written to standard error
    is left out. *)
Definition add_tex (cleveref_required : bool) (meta : Meta) (st : Globals)
  : res Meta :=
  let v := vars st in
  let f := flags st in
  let wl := warninglevel v in
  let meta :=
    if cleveref_required then
      add_tex_to_header_includes meta
        (cleveref_tex (if capitalise v then "[capitalise]" else EmptyString))
        wl (Some "\\usepackage(\[[\w\s,]*\])?\{cleveref\}")
    else meta in
  let meta :=
    if has_unnumbered_figures f then
      add_tex_to_header_includes meta caption_package_tex
        wl (Some "\\usepackage(\[[\w\s,]*\])?\{caption\}")
    else meta in
  meta ←
    (if plusname_changed f then
       singular ← index (plusname v) 0;
       plural ← index (plusname v) 1;
       Ok (add_tex_to_header_includes meta (crefname_tex singular plural)
             wl None)
     else Ok meta);
  meta ←
    (if starname_changed f then
       singular ← index (starname v) 0;
       plural ← index (starname v) 1;
       Ok (add_tex_to_header_includes meta (Crefname_tex singular plural)
             wl None)
     else Ok meta);
  let meta :=
    if has_unnumbered_figures f then
      add_tex_to_header_includes meta NO_PREFIX_CAPTION_ENV_TEX wl None
    else meta in
  let meta :=
    if has_tagged_figures f then
      add_tex_to_header_includes meta TAGGED_FIGURE_ENV_TEX wl None
    else meta in
  let meta :=
    if negb (String.eqb (captionname v) "Figure") then
      add_tex_to_header_includes meta (CAPTION_NAME_TEX (captionname v))
        wl None
    else meta in
  Ok (if numbersections v then
        add_tex_to_header_includes meta NUMBER_BY_SECTION_TEX wl None
      else meta).

(** The actions of the library that [main] walks the document with, each
    taken with its walk over the blocks: they read the output format and
    the metadata and return the altered blocks.  The second pass also reads
    the reference table and the names and tells whether the cleveref
    package is required. *)
Variables attach_attrs_image insert_secnos delete_secnos detach_attrs_image
  : string -> Meta -> list Block -> res (list Block).
Variable second_pass
  : Globals -> string -> Meta -> list Block -> res (list Block * bool).

(** The text [str(uuid.uuid4())] gives while the action is called on a
    block, by the number of blocks it was called on before. *)
Variable uuid_at : nat -> string.

(** The element type of a block and its content, which the action reads
    when the type is [Para], where it is the list of inlines of the
    paragraph; and the block with the content the action left in it. *)
Definition key_value (b : Block) : string * list Inline :=
  match b with
  | Para value => ("Para", value)
  | RawBlock _ _ => ("RawBlock", [])
  | OtherBlock t _ => (t, [])
  end.

Definition set_value (value : list Inline) (b : Block) : Block :=
  match b with
  | Para _ => Para value
  | _ => b
  end.

(** A step of a walk: from an element, the number of blocks the action was
    called on so far and the module state to what replaces the element, the
    new number and the new state. *)
Definition walker (A B : Type) : Type :=
  A -> nat -> Globals -> res (B * nat * Globals).

(** [walk] on a list: the elements one after the other, each replaced by
    what its step gives. *)
Definition walk_list {A B : Type} (f : walker A (list B))
  : walker (list A) (list B) :=
  fix go (xs : list A) (i : nat) (st : Globals) :=
    match xs with
    | [] => Ok ([], i, st)
    | x :: xs =>
        '(ys, i, st) ← f x i st;
        '(zs, i, st) ← go xs i st;
        Ok (ys ++ zs, i, st)
    end.

Definition walk_each {A : Type} (f : walker A A) : walker (list A) (list A) :=
  walk_list (fun x i st => '(y, i, st) ← f x i st; Ok ([y], i, st)).

(** [walk] on what a block holds, given the steps at an inline and at a
    block. *)
Definition walk_part (inl : walker Inline Inline)
    (blk : walker Block (list Block)) : walker Part Part :=
  fun part i st =>
    match part with
    | Inlines content =>
        '(content, i, st) ← walk_each inl content i st;
        Ok (Inlines content, i, st)
    | Blocks blocks =>
        '(blocks, i, st) ← walk_list blk blocks i st;
        Ok (Blocks blocks, i, st)
    end.

(** [walk(x, process_figures, fmt, meta)] of [pandocfilters], which calls
    itself on what an element holds; [depth] bounds the nesting of these
    calls, and a walk that needs more ends in a [RecursionError].
    [walk_block] is the step of the loop at a block: the action is called on
    it; on [None] the block stays, with the content the action left in it,
    and the walk goes on with what it holds; a list the action returns
    replaces the block, and the walk goes on with what each block of that
    list holds.  [walk_children] is [walk] on a block and [walk_inline] the
    step of the loop at an inline, where the action returns [None] as the
    key is not [Para]. *)
Fixpoint walk_inline (fmt : string) (depth : nat) : walker Inline Inline :=
  fun x i st =>
    match depth with
    | O => Raise RecursionError
    | S depth =>
        match x with
        | Image a caption tgt =>
            '(caption, i, st) ←
              walk_each (walk_inline fmt depth) caption i st;
            Ok (Image a caption tgt, i, st)
        | Note blocks =>
            '(blocks, i, st) ← walk_list (walk_block fmt depth) blocks i st;
            Ok (Note blocks, i, st)
        | OtherInline t content =>
            '(content, i, st) ←
              walk_each (walk_inline fmt depth) content i st;
            Ok (OtherInline t content, i, st)
        | _ => Ok (x, i, st)
        end
    end
with walk_children (fmt : string) (depth : nat) : walker Block Block :=
  fun b i st =>
    match depth with
    | O => Raise RecursionError
    | S depth =>
        match b with
        | Para value =>
            '(value, i, st) ← walk_each (walk_inline fmt depth) value i st;
            Ok (Para value, i, st)
        | RawBlock _ _ => Ok (b, i, st)
        | OtherBlock t parts =>
            '(parts, i, st) ←
              walk_each (walk_part (walk_inline fmt depth)
                                   (walk_block fmt depth)) parts i st;
            Ok (OtherBlock t parts, i, st)
        end
    end
with walk_block (fmt : string) (depth : nat) : walker Block (list Block) :=
  fun b i st =>
    match depth with
    | O => Raise RecursionError
    | S depth =>
        let '(key, value) := key_value b in
        '(ret, value, st) ← process_figures (uuid_at i) key value fmt st;
        match ret with
        | Some blocks => walk_each (walk_children fmt depth) blocks (S i) st
        | None =>
            '(b, i, st) ← walk_children fmt depth (set_value value b) (S i) st;
            Ok ([b], i, st)
        end
    end.

(** [walk(blocks, process_figures, fmt, meta)] in document order, with the
    recursion limit at what the blocks need (it is never reached, see
    [walk_process_figures_runs]). *)
Definition walk_process_figures (i : nat) (blocks : list Block)
    (fmt : string) (st : Globals) : res (list Block * Globals) :=
  '(blocks, _, st) ←
    walk_list (walk_block fmt (max_of block_depth blocks)) blocks i st;
  Ok (blocks, st).

(** [main()], from the parsed document to the document that is written:
    its metadata and its blocks.  [pandocversion] is what
    [pandocxnos.init] returns. *)
Definition main (pandocversion fmt : string) (meta : Meta)
    (blocks : list Block) : res (Meta * list Block) :=
  (* Process the metadata variables *)
  st ← process meta (initial pandocversion);
  (* First pass *)
  altered ← attach_attrs_image fmt meta blocks;
  altered ← insert_secnos fmt meta altered;
  '(altered, st) ← walk_process_figures 0 altered fmt st;
  altered ← delete_secnos fmt meta altered;
  altered ← detach_attrs_image fmt meta altered;
  (* Second pass *)
  '(altered, cleveref_required) ← second_pass st fmt meta altered;
  meta ← (if str_in fmt tex_like
          then add_tex cleveref_required meta st
          else Ok meta);
  Ok (meta, altered).

End Program.

(** * Definitions used in the statements *)

(** The table entries made by consecutive calls of [_process_figure], each
    read back under the identifier the call ended with. *)
Fixpoint number_figures (uuid4 : string) (figs : list (list Inline))
    (fmt : string) (st : Globals)
  : res (list (option (pyval * pyval)) * Globals) :=
  match figs with
  | [] => Ok ([], st)
  | value :: rest =>
      '(fig, st) ← _process_figure uuid4 value fmt st;
      let entry := a ← fig_attrs fig; references (proc st) !! attrs_id a in
      '(entries, st) ← number_figures uuid4 rest fmt st;
      Ok (entry :: entries, st)
  end.

#[global] Instance pyval_eq_dec : EqDecision pyval.
Proof. solve_decision. Defined.

(** A figure with attributes, a conforming label, section number [s] and no
    tag. *)
Definition plain_figure (s : pyval) (value : list Inline) : bool :=
  match value with
  | Image (Some a) _ _ :: _ =>
      LABEL_PATTERN_match (attrs_id a)
      && bool_decide (attrs_kvs a !! "secno" = Some s)
      && negb (has_key "tag" a)
  | _ => false
  end.

(** The entries [(c+1, s)], ..., [(c+n, s)]. *)
Fixpoint entries_from (c : Z) (s : pyval) (n : nat)
  : list (option (pyval * pyval)) :=
  match n with
  | O => []
  | S n => Some (VInt (c + 1), s) :: entries_from (c + 1) s n
  end.

(** A figure with the given identifier, section number and, possibly, tag;
    the title [fig:] is the mark pandoc gives the image of a figure. *)
Definition figure_attrs (i : string) (secno : pyval) (tag : option pyval)
  : Attributes :=
  mkAttributes i []
    (match tag with
     | Some t => <["tag":=t]> (<["secno":=secno]> ∅)
     | None => <["secno":=secno]> ∅
     end).

Definition figure (i : string) (secno : pyval) (tag : option pyval)
  : list Inline :=
  [Image (Some (figure_attrs i secno tag))
         [Str "A"; Space; Str "caption"] ("img.png", "fig:")].

Definition scenario_A_section_1 : list (list Inline) :=
  [figure "fig:a" (VStr "1") None; figure "fig:b" (VStr "1") None;
   figure "fig:c" (VStr "1") None].

(** The tag a figure carries when it reaches [_process_figure]. *)
Definition carried_tag (value : list Inline) : option pyval :=
  match value with
  | Image (Some a) _ _ :: _ => attrs_kvs a !! "tag"
  | _ => None
  end.

(** The figures lines 147-161 bail out on: no attributes, or an identifier
    that does not match the label pattern. *)
Definition bails_out (value : list Inline) : bool :=
  match value with
  | Image None _ _ :: _ => true
  | Image (Some a) _ _ :: _ => negb (LABEL_PATTERN_match (attrs_id a))
  | _ => false
  end.

(** The tag text lines 188-191 leave: all leading and trailing double quotes
    go when the text begins and ends with one, else all leading and trailing
    single quotes when it begins and ends with one. *)
Definition unquoted (t : string) : string :=
  if startswith_char t dquote && endswith_char t dquote then strip dquote t
  else if startswith_char t squote && endswith_char t squote
       then strip squote t
       else t.

(** The state the filter is in after the first figure of Scenario B's
    section has been numbered. *)
Definition after_one_figure : Globals :=
  with_proc (mkProcState (VStr "1") 2 {["fig:a" := (VInt 2, VStr "1")]})
            (initial "2.7").

(** [n] copies of a character. *)
Fixpoint pad (c : ascii) (n : nat) : string :=
  match n with
  | O => EmptyString
  | S n => String c (pad c n)
  end.

(** What is left of [t] once every leading and every trailing [q] is gone:
    the inner text is kept as it is. *)
Definition all_quotes_removed (q : ascii) (t t' : string) : Prop :=
  (exists n m, t = pad q n +:+ t' +:+ pad q m) /\
  startswith_char t' q = false /\ endswith_char t' q = false.

(** The specification's words, for comparison: exactly one layer of
    surrounding straight or curly quotes is stripped when such a pair is
    present.  The curly quotes are the UTF-8 encodings of U+201C, U+201D,
    U+2018 and U+2019. *)
Definition utf8_2 (b : nat) : string :=
  String (ascii_of_nat 226) (String (ascii_of_nat 128)
    (String (ascii_of_nat b) EmptyString)).

Definition quote_pairs : list (string * string) :=
  [(String dquote EmptyString, String dquote EmptyString);
   (String squote EmptyString, String squote EmptyString);
   (utf8_2 156, utf8_2 157);
   (utf8_2 152, utf8_2 153)].

Definition endswith (s suffix : string) : bool :=
  (String.length suffix <=? String.length s)%nat &&
  String.eqb (String.substring (String.length s - String.length suffix)
                (String.length suffix) s) suffix.

Fixpoint strip_one_layer_of (pairs : list (string * string)) (s : string)
  : string :=
  match pairs with
  | [] => s
  | (opening, closing) :: pairs =>
      if startswith s opening && endswith s closing
         && (String.length opening + String.length closing
               <=? String.length s)%nat
      then String.substring (String.length opening)
             (String.length s - String.length opening
                - String.length closing) s
      else strip_one_layer_of pairs s
  end.

Definition strip_one_layer : string -> string := strip_one_layer_of quote_pairs.

(** The entry a call leaves under a key, if the call succeeds. *)
Definition entry_after (r : res (Fig * Globals)) (k : string)
  : option (pyval * pyval) :=
  match r with
  | Ok (_, st) => references (proc st) !! k
  | Raise _ => None
  end.

(** A tag wrapped in two layers of double quotes, and one in curly double
    quotes. *)
Definition doubly_quoted : string :=
  pad dquote 2 +:+ "S1" +:+ pad dquote 2.
Definition curly_quoted : string := utf8_2 156 +:+ "S1" +:+ utf8_2 157.

(** The specification's words, for comparison: a paragraph with exactly
    one image child whose identifier begins with the figure-label prefix. *)
Definition figure_shaped_by_identifier (key : string) (value : list Inline)
  : bool :=
  String.eqb key "Para" &&
  match value with
  | [Image (Some a) _ _] => startswith (attrs_id a) "fig:"
  | _ => false
  end.

(** An image with a figure label and no caption, which pandoc does not mark
    as the image of a figure, and an image with another label that it did
    mark. *)
Definition labelled_not_marked : list Inline :=
  [Image (Some (figure_attrs "fig:a" (VStr "1") None)) []
         ("img.png", EmptyString)].
Definition marked_not_labelled : list Inline :=
  [Image (Some (figure_attrs "plot" (VStr "1") None)) [Str "caption"]
         ("img.png", "fig:")].

(** The specification's words, for comparison: the text is delimited by a
    pair of dollar markers, which takes two characters. *)
Definition dollar_delimited (text : string) : bool :=
  (2 <=? String.length text)%nat
  && startswith text "$" && endswith_char text "$".

Definition tag_elements_by_pair (text : string) : list Inline :=
  if dollar_delimited text
  then [Math InlineMath (replace_space (slice_1_m1 text)); Str ":"]
  else [Str (text +:+ ":")].

(** The caption of the first image of a paragraph. *)
Definition caption_of (value : list Inline) : list Inline :=
  match value with
  | Image _ cap _ :: _ => cap
  | _ => []
  end.

(** The paragraph [process_figures] leaves. *)
Definition value_after (r : res (option (list Block) * list Inline * Globals))
  : list Inline :=
  match r with
  | Ok (_, value, _) => value
  | Raise _ => []
  end.

(** The state after the figure [fig:e] of section 1 was stored with a tag. *)
Definition after_tagged_figure (tag : string) : Globals :=
  with_proc (mkProcState (VStr "1") 1 {["fig:e" := (VStr tag, VStr "1")]})
            (initial "2.7").

(** A name option of the right shape: one string, or a list of exactly two
    strings. *)
Definition well_shaped_names (tmp : metaval) : bool :=
  match tmp with
  | MScalar v => is_str v
  | MList l => (length l =? 2)%nat && forallb is_str l
  end.

(** The list a well-shaped option stands for, given the old names. *)
Definition names_given (tmp : metaval) (old : list string) : list pyval :=
  match tmp with
  | MList l => l
  | MScalar v => v :: (VStr <$> tail old)
  end.

(** [pandocxnos.check_bool] as the library has it: the value if it is a
    boolean, a [ValueError] otherwise. *)
Definition check_bool_lib (v : metaval) : res bool :=
  match v with
  | MScalar (VBool b) => Ok b
  | _ => Raise ValueError
  end.

(** [str.title] on ASCII text: the first letter of every run of letters in
    upper case, the others in lower case. *)
Definition is_upper (c : ascii) : bool :=
  (65 <=? nat_of_ascii c)%nat && (nat_of_ascii c <=? 90)%nat.
Definition is_lower (c : ascii) : bool :=
  (97 <=? nat_of_ascii c)%nat && (nat_of_ascii c <=? 122)%nat.
Definition to_upper (c : ascii) : ascii :=
  if is_lower c then ascii_of_nat (nat_of_ascii c - 32) else c.
Definition to_lower (c : ascii) : ascii :=
  if is_upper c then ascii_of_nat (nat_of_ascii c + 32) else c.

Fixpoint title_from (previous_cased : bool) (s : string) : string :=
  match s with
  | EmptyString => EmptyString
  | String c r =>
      String (if previous_cased then to_lower c else to_upper c)
             (title_from (is_upper c || is_lower c) r)
  end.

Definition ascii_title : string -> string := title_from false.

(** A document whose walks change nothing: the library actions return the
    blocks they are given and no cleveref package is needed. *)
Definition no_action (fmt : string) (meta : Meta) (blocks : list Block)
  : res (list Block) := Ok blocks.
Definition no_second_pass (st : Globals) (fmt : string) (meta : Meta)
    (blocks : list Block) : res (list Block * bool) := Ok (blocks, false).
Definition no_int (s : string) : option Z := None.
Definition never_found (regex text : string) : bool := false.
Definition same_uuid (i : nat) : string :=
  "0f8fad5b-d9cb-469f-a165-70867728950e".

Definition run_main : string -> string -> Meta -> list Block
                      -> res (Meta * list Block) :=
  main ascii_title no_int check_bool_lib never_found no_action no_action
       no_action no_action no_second_pass same_uuid.

(** Metadata that gives three mid-sentence names, and metadata that gives
    one. *)
Definition three_names : Meta :=
  mkMeta {["fignos-plus-name" :=
             MList [VStr "fig."; VStr "figs."; VStr "figures"]]} [].
Definition one_name : Meta :=
  mkMeta {["fignos-plus-name" := MScalar (VStr "illustration")]} [].

(** Metadata with a mid-sentence name only, and with both options. *)
Definition both_names : Meta :=
  mkMeta (<["fignos-star-name" := MList [VStr "Plate"; VStr "Plates"]]>
            {["fignos-plus-name" := MScalar (VStr "illustration")]}) [].

Definition names_after (r : res Globals)
  : option (list string * list string) :=
  match r with
  | Ok st => Some (plusname (vars st), starname (vars st))
  | Raise _ => None
  end.

(** Whether a text is the caption-name directive for some name. *)
Definition other_directive (tex : string) : Prop :=
  forall name, tex <> CAPTION_NAME_TEX name.

(** [meta'] is [meta] with declarations appended that all satisfy [P]. *)
Definition appends (P : string -> Prop) (meta meta' : Meta) : Prop :=
  meta_vars meta' = meta_vars meta /\
  exists added, header_includes meta' = header_includes meta ++ added
                /\ Forall P added.

(** Scenario D: the caption name is set to [Fig.]. *)
Definition scenario_D : Meta :=
  mkMeta {["fignos-caption-name" := MScalar (VStr "Fig.")]} [].

Definition meta_after (r : res (Meta * list Block)) : option Meta :=
  match r with
  | Ok (meta, _) => Some meta
  | Raise _ => None
  end.

(** A step of a walk keeps a relation between the module state before it
    and the state after it. *)
Definition keeps (R : Globals -> Globals -> Prop) {A B : Type}
    (f : walker A B) : Prop :=
  forall x i st y i' st', f x i st = Ok (y, i', st') -> R st st'.

(** * Definitions used in further statements *)

(** The entries [(s.c, s)], [(s.(c+1), s)], ... that numbering by section
    makes for [n] figures. *)
Fixpoint section_entries_from (c : Z) (s : pyval) (n : nat)
  : list (option (pyval * pyval)) :=
  match n with
  | O => []
  | S n =>
      Some (VStr (py_str s +:+ "." +:+ str_of_Z c), s)
        :: section_entries_from (c + 1) s n
  end.

(** A decimal digit. *)
Definition is_digit (c : ascii) : bool :=
  (48 <=? nat_of_ascii c)%nat && (nat_of_ascii c <=? 57)%nat.

(** The initial state with numbering by section switched on. *)
Definition numbered_by_section : Globals :=
  with_vars (mkMetaVars "Figure" false false ["fig."; "figs."]
               ["Figure"; "Figures"] true 1) (initial "2.7").

(** The numbers consecutive calls of [_process_figure] give to the figures
    they neither tag nor leave unnumbered, each read back from the reference
    table right after its call. *)
Fixpoint assigned_numbers (uuid4 : string) (figs : list (list Inline))
    (fmt : string) (st : Globals) : res (list pyval * Globals) :=
  match figs with
  | [] => Ok ([], st)
  | value :: rest =>
      '(fig, st) ← _process_figure uuid4 value fmt st;
      let number :=
        if is_unnumbered fig || is_tagged fig then []
        else match a ← fig_attrs fig; references (proc st) !! attrs_id a with
             | Some (n, _) => [n]
             | None => []
             end in
      '(numbers, st) ← assigned_numbers uuid4 rest fmt st;
      Ok (number ++ numbers, st)
  end.

(** A figure with attributes, a conforming label, section number [s] and a
    tag that is a string and not empty. *)
Definition tagged_figure (s : pyval) (value : list Inline) : bool :=
  match value with
  | Image (Some a) _ _ :: _ =>
      LABEL_PATTERN_match (attrs_id a)
      && bool_decide (attrs_kvs a !! "secno" = Some s)
      && match attrs_kvs a !! "tag" with
         | Some (VStr t) => negb (String.eqb t EmptyString)
         | _ => false
         end
  | _ => false
  end.

(** The integers [c+1], ..., [c+n]. *)
Fixpoint numbers_from (c : Z) (n : nat) : list pyval :=
  match n with
  | O => []
  | S n => VInt (c + 1) :: numbers_from (c + 1) n
  end.

(** How many figures of a list are untagged figures of section [s]. *)
Definition count_plain (s : pyval) (figs : list (list Inline)) : nat :=
  length (filter (fun value => plain_figure s value = true) figs).

(** What a walk may do to the module state: the meta variables, the pandoc
    version and the three changed flags stay, a raised figure flag stays
    raised and an identifier in the reference table stays in it. *)
Definition state_grows (st st' : Globals) : Prop :=
  vars st' = vars st /\
  PANDOCVERSION st' = PANDOCVERSION st /\
  captionname_changed (flags st') = captionname_changed (flags st) /\
  plusname_changed (flags st') = plusname_changed (flags st) /\
  starname_changed (flags st') = starname_changed (flags st) /\
  (has_unnumbered_figures (flags st) = true ->
   has_unnumbered_figures (flags st') = true) /\
  (has_tagged_figures (flags st) = true ->
   has_tagged_figures (flags st') = true) /\
  (forall k, is_Some (references (proc st) !! k) ->
             is_Some (references (proc st') !! k)).

(** Whether the action takes a block for a figure. *)
Definition is_figure_block (b : Block) : bool :=
  is_figure_para (fst (key_value b)) (snd (key_value b)).

(** Whether a figure paragraph stands below an inline or below a block, at
    any depth, and whether a block is one or holds one. *)
Fixpoint figure_in_inline (x : Inline) : bool :=
  match x with
  | Image _ caption _ => existsb figure_in_inline caption
  | Note blocks =>
      existsb (fun b => is_figure_block b || figure_below b) blocks
  | OtherInline _ content => existsb figure_in_inline content
  | _ => false
  end
with figure_below (b : Block) : bool :=
  match b with
  | Para value => existsb figure_in_inline value
  | RawBlock _ _ => false
  | OtherBlock _ parts =>
      existsb (fun part =>
                 match part with
                 | Inlines content => existsb figure_in_inline content
                 | Blocks blocks =>
                     existsb (fun b => is_figure_block b || figure_below b)
                             blocks
                 end) parts
  end.

Definition has_figure (b : Block) : bool :=
  is_figure_block b || figure_below b.

(** A block stands in a document, at any depth: below an inline, below a
    block, or as that block itself. *)
Inductive in_inline (p : Block) : Inline -> Prop :=
| in_caption a caption tgt x :
    In x caption -> in_inline p x -> in_inline p (Image a caption tgt)
| in_note blocks b : In b blocks -> in_block p b -> in_inline p (Note blocks)
| in_other_inline t content x :
    In x content -> in_inline p x -> in_inline p (OtherInline t content)
with in_children (p : Block) : Block -> Prop :=
| in_para value x : In x value -> in_inline p x -> in_children p (Para value)
| in_inlines t parts content x :
    In (Inlines content) parts -> In x content -> in_inline p x ->
    in_children p (OtherBlock t parts)
| in_blocks_of t parts blocks b :
    In (Blocks blocks) parts -> In b blocks -> in_block p b ->
    in_children p (OtherBlock t parts)
with in_block (p : Block) : Block -> Prop :=
| in_here : in_block p p
| in_below b : in_children p b -> in_block p b.

Definition in_blocks (p : Block) (blocks : list Block) : Prop :=
  exists b, In b blocks /\ in_block p b.

(** Inlines that hold nothing and blocks of raw text. *)
Definition is_leaf (x : Inline) : bool :=
  match x with
  | Str _ | Space | Math _ _ | RawInline _ _ => true
  | _ => false
  end.

Definition is_raw (b : Block) : bool :=
  match b with
  | RawBlock _ _ => true
  | _ => false
  end.

(** The content of a paragraph after leaves were put before and after the
    caption of the image it starts with. *)
Definition caption_grown (value value' : list Inline) : Prop :=
  value' = value \/
  exists a cap tgt rest pre post,
    value = Image a cap tgt :: rest /\
    value' = Image a (pre ++ cap ++ post) tgt :: rest /\
    forallb is_leaf pre = true /\ forallb is_leaf post = true.

(** The names of line 385-390: the metadata variables the filter knows. *)
Definition metanames : list string :=
  ["fignos-warning-level"; "xnos-warning-level";
   "fignos-caption-name";
   "fignos-cleveref"; "xnos-cleveref";
   "xnos-capitalize"; "xnos-capitalise";
   "fignos-plus-name"; "fignos-star-name";
   "fignos-number-sections"; "xnos-number-sections"].

(** Metadata that sets the warning level under both names. *)
Definition both_levels : Meta :=
  mkMeta (<["xnos-warning-level" := MScalar (VInt 2)]>
            {["fignos-warning-level" := MScalar (VInt 0)]}) [].

(** Metadata whose caption name is a boolean. *)
Definition boolean_caption_name : Meta :=
  mkMeta {["fignos-caption-name" := MScalar (VBool true)]} [].

(** * Properties *)

(** ** Built-ins *)

Lemma py_eqb_refl (v : pyval) : py_eqb v v = true.
Proof.
  destruct v as [|b|n|s]; simpl.
  - reflexivity.
  - apply Bool.eqb_reflx.
  - apply Z.eqb_refl.
  - apply String.eqb_refl.
Qed.

Lemma bind_Ok {A B} (m : res A) (k : A -> res B) (b : B) :
  m ≫= k = Ok b -> exists a, m = Ok a /\ k a = Ok b.
Proof. destruct m as [a|e]; simpl; [eauto | discriminate]. Qed.

Lemma bind_Raise {A B} (m : res A) (k : A -> res B) (e : exn) :
  m = Raise e -> m ≫= k = Raise e.
Proof. intros ->. reflexivity. Qed.

(** ** The steps of [_process_figure] *)

Lemma kvs_set_id (i : string) (a : Attributes) :
  attrs_kvs (set_id i a) = attrs_kvs a.
Proof. reflexivity. Qed.

Lemma has_key_true (k : string) (a : Attributes) :
  has_key k a = true <-> is_Some (attrs_kvs a !! k).
Proof. unfold has_key. apply bool_decide_eq_true. Qed.

Lemma has_key_false (k : string) (a : Attributes) :
  has_key k a = false <-> attrs_kvs a !! k = None.
Proof.
  unfold has_key. rewrite bool_decide_eq_false, eq_None_not_Some. reflexivity.
Qed.

Lemma kvs_name_anonymous (u : string) (a : Attributes) :
  attrs_kvs (name_anonymous u a) = attrs_kvs a.
Proof. unfold name_anonymous. destruct (String.eqb _ _); reflexivity. Qed.

(** A figure with attributes and a conforming label runs through all the
    numbering steps. *)
Lemma _process_figure_labelled u a cap tgt rest fmt st :
  LABEL_PATTERN_match (attrs_id a) = true ->
  _process_figure u (Image (Some a) cap tgt :: rest) fmt st =
    match attrs_kvs a !! "secno" with
    | None => Raise KeyError
    | Some secno =>
        let '(a2, st2) :=
          number_by_section fmt (name_anonymous u a) (update_section secno st) in
        '(tagged, a3, st3) ← save_reference a2 st2;
        Ok (mkFig false (String.eqb (attrs_id a) "fig:") tagged (Some a3)
                  (Some cap), st3)
    end.
Proof.
  intros Hlab. unfold _process_figure. rewrite Hlab. simpl.
  rewrite kvs_name_anonymous. reflexivity.
Qed.

Lemma number_by_section_tagged fmt a st :
  has_key "tag" a = true -> number_by_section fmt a st = (a, st).
Proof.
  intros H. unfold number_by_section. rewrite H.
  rewrite andb_false_r. destruct (numbersections (vars st)); reflexivity.
Qed.

Lemma number_by_section_off fmt a st :
  numbersections (vars st) && str_in fmt html_docx = false ->
  number_by_section fmt a st = (a, st).
Proof.
  unfold number_by_section.
  destruct (numbersections (vars st)), (str_in fmt html_docx); simpl;
    intros; congruence.
Qed.

Lemma update_section_Nreferences secno st :
  Nreferences (proc (update_section secno st)) =
    if py_eqb secno (cursec (proc st)) then Nreferences (proc st) else 1.
Proof. unfold update_section. destruct (py_eqb _ _); reflexivity. Qed.

Lemma update_section_cursec secno st :
  py_eqb secno (cursec (proc (update_section secno st))) = true.
Proof.
  unfold update_section.
  destruct (py_eqb secno (cursec (proc st))) eqn:E; simpl; [exact E|].
  apply py_eqb_refl.
Qed.

Lemma update_section_same secno st :
  py_eqb secno (cursec (proc st)) = true -> update_section secno st = st.
Proof. unfold update_section. intros ->. reflexivity. Qed.

Lemma update_section_vars secno st :
  vars (update_section secno st) = vars st.
Proof. unfold update_section. destruct (py_eqb _ _); reflexivity. Qed.

Lemma update_section_references secno st :
  references (proc (update_section secno st)) = references (proc st).
Proof. unfold update_section. destruct (py_eqb _ _); reflexivity. Qed.

Lemma remove_quotes_id a a' :
  remove_quotes a = Ok a' -> attrs_id a' = attrs_id a.
Proof.
  unfold remove_quotes. intros H.
  repeat match type of H with
         | match ?x with _ => _ end = _ => destruct x; try discriminate
         | (if ?x then _ else _) = _ => destruct x
         end; inversion H; reflexivity.
Qed.

Lemma save_reference_tagged a st b a' st' :
  has_key "tag" a = true ->
  save_reference a st = Ok (b, a', st') ->
  b = true /\ attrs_id a' = attrs_id a /\
  exists tag, attrs_kvs a' !! "tag" = Some tag /\
              st' = set_reference (attrs_id a) (tag, cursec (proc st)) st.
Proof.
  intros Ht. unfold save_reference. rewrite Ht. intros H.
  apply bind_Ok in H as (a1 & Hq & H).
  pose proof (remove_quotes_id _ _ Hq) as Hid.
  destruct (attrs_kvs a1 !! "tag") as [tag|] eqn:E; [|discriminate].
  inversion H; subst. rewrite Hid. eauto.
Qed.

Lemma save_reference_untagged a st :
  has_key "tag" a = false ->
  save_reference a st =
    Ok (false, a,
        set_reference (attrs_id a)
          (VInt (Nreferences (proc st) + 1), cursec (proc st))
          (set_Nreferences (Nreferences (proc st) + 1) st)).
Proof. intros Ht. unfold save_reference. rewrite Ht. reflexivity. Qed.

(** ** Figures in document order *)

Lemma set_reference_lookup k v st :
  references (proc (set_reference k v st)) !! k = Some v.
Proof. simpl. apply lookup_insert_eq. Qed.

Lemma plain_figure_step u s value fmt st :
  plain_figure s value = true ->
  numbersections (vars st) && str_in fmt html_docx = false ->
  let st1 := update_section s st in
  exists fig st',
    _process_figure u value fmt st = Ok (fig, st') /\
    (a ← fig_attrs fig; references (proc st') !! attrs_id a)
      = Some (VInt (Nreferences (proc st1) + 1), cursec (proc st1)) /\
    cursec (proc st') = cursec (proc st1) /\
    Nreferences (proc st') = Nreferences (proc st1) + 1 /\
    vars st' = vars st.
Proof.
  intros Hp Hn st1.
  destruct value as [|[| | | |[a|] cap tgt| |] rest]; try discriminate.
  simpl in Hp. apply andb_prop in Hp as [Hp Htag].
  apply andb_prop in Hp as [Hlab Hsec].
  apply bool_decide_eq_true in Hsec. apply negb_true_iff in Htag.
  rewrite (_process_figure_labelled _ _ _ _ _ _ _ Hlab), Hsec.
  rewrite number_by_section_off
    by (rewrite update_section_vars; exact Hn).
  rewrite save_reference_untagged
    by (apply has_key_false; rewrite kvs_name_anonymous;
        apply has_key_false; exact Htag).
  do 2 eexists. split; [reflexivity|]. simpl.
  rewrite lookup_insert_eq.
  repeat split. apply update_section_vars.
Qed.

(** Untagged figures of one section are numbered consecutively from the
    value the counter has once the section of the first is entered. *)
Lemma number_figures_plain u s figs fmt st :
  forallb (plain_figure s) figs = true ->
  numbersections (vars st) && str_in fmt html_docx = false ->
  figs <> [] ->
  let st1 := update_section s st in
  exists st',
    number_figures u figs fmt st =
      Ok (entries_from (Nreferences (proc st1)) (cursec (proc st1))
            (length figs), st').
Proof.
  revert st. induction figs as [|value figs IH]; intros st Hall Hn Hne st1.
  - congruence.
  - simpl in Hall. apply andb_prop in Hall as [Hp Hall].
    destruct (plain_figure_step u s value fmt st Hp Hn)
      as (fig & st' & Hrun & Hentry & Hsec & Hcnt & Hvars).
    simpl. rewrite Hrun. simpl. fold st1. rewrite Hentry.
    destruct figs as [|value' figs].
    + simpl. eexists. reflexivity.
    + assert (Hn' : numbersections (vars st') && str_in fmt html_docx = false)
        by (rewrite Hvars; exact Hn).
      destruct (IH st' Hall Hn' ltac:(discriminate)) as (st'' & Hrest).
      assert (Hsame : update_section s st' = st').
      { apply update_section_same. rewrite Hsec.
        apply update_section_cursec. }
      rewrite Hsame in Hrest. rewrite Hrest. simpl.
      rewrite Hsec, Hcnt. eexists. reflexivity.
Qed.

Lemma entries_from_lookup c s n (i : nat) :
  (i < n)%nat ->
  entries_from c s n !! i = Some (Some (VInt (c + 1 + Z.of_nat i), s)).
Proof.
  revert c i. induction n as [|n IH]; intros c i Hi; [lia|].
  destruct i as [|i]; simpl.
  - rewrite Z.add_0_r. reflexivity.
  - rewrite IH by lia.
    replace (c + 1 + 1 + Z.of_nat i) with (c + 1 + Z.pos (Pos.of_succ_nat i))
      by lia.
    reflexivity.
Qed.

(** C1 (what the code does): the untagged figures of a section that starts
    with a change of the section id are numbered 2, 3, ..., N+1 in document
    order.  The change sets the counter to 1, and the counter is incremented
    before it is stored, so the first figure of a section is given number 2,
    not 1. *)
Theorem C1_numbers_start_at_two u s figs fmt st :
  forallb (plain_figure s) figs = true ->
  numbersections (vars st) && str_in fmt html_docx = false ->
  py_eqb s (cursec (proc st)) = false ->
  figs <> [] ->
  exists entries st',
    number_figures u figs fmt st = Ok (entries, st') /\
    length entries = length figs /\
    forall i : nat, (i < length figs)%nat ->
      entries !! i = Some (Some (VInt (Z.of_nat i + 2), s)).
Proof.
  intros Hall Hn Hchange Hne.
  destruct (number_figures_plain u s figs fmt st Hall Hn Hne) as (st' & Hrun).
  rewrite update_section_Nreferences, Hchange in Hrun.
  assert (Hsec : cursec (proc (update_section s st)) = s)
    by (unfold update_section; rewrite Hchange; reflexivity).
  rewrite Hsec in Hrun.
  exists (entries_from 1 s (length figs)), st'. split; [exact Hrun|]. split.
  - clear. generalize 1. induction (length figs); intros; simpl; auto.
  - intros i Hi. rewrite entries_from_lookup by exact Hi.
    replace (1 + 1 + Z.of_nat i) with (Z.of_nat i + 2) by lia. reflexivity.
Qed.

Lemma C1_numbers_start_at_two_witness :
  exists entries st',
    number_figures "u" scenario_A_section_1 "html" (initial "2.7")
      = Ok (entries, st') /\
    length entries = length scenario_A_section_1 /\
    forall i : nat, (i < length scenario_A_section_1)%nat ->
      entries !! i = Some (Some (VInt (Z.of_nat i + 2), VStr "1")).
Proof.
  apply (C1_numbers_start_at_two "u" (VStr "1") scenario_A_section_1 "html"
           (initial "2.7")).
  - vm_compute. reflexivity.
  - reflexivity.
  - reflexivity.
  - discriminate.
Defined.

(** Scenario A as the code runs it: three figures in section 1 and a fourth
    in section 2 are given the numbers 2, 3, 4 and 2. *)
Example scenario_A_numbers :
  fst <$> number_figures "u"
            (scenario_A_section_1 ++ [figure "fig:d" (VStr "2") None])
            "html" (initial "2.7")
  = Ok [Some (VInt 2, VStr "1"); Some (VInt 3, VStr "1");
        Some (VInt 4, VStr "1"); Some (VInt 2, VStr "2")].
Proof. vm_compute. reflexivity. Qed.

(** ** Tagged and unnumbered figures *)

Lemma _process_figure_bails_out u value fmt st :
  bails_out value = true ->
  exists fig,
    _process_figure u value fmt st
      = Ok (fig, set_has_unnumbered_figures true st) /\
    is_unnumbered fig = true /\ is_unreferenceable fig = true /\
    is_tagged fig = false.
Proof.
  intros H. destruct value as [|[| | | |[a|] cap tgt| |] rest]; try discriminate.
  - simpl in H. simpl. rewrite H. eauto.
  - simpl. eauto.
Qed.

Lemma first_char_Some t : t <> EmptyString -> is_Some (first_char t).
Proof. destruct t; [congruence | simpl; eauto]. Qed.

Lemma last_char_Some t : t <> EmptyString -> is_Some (last_char t).
Proof.
  induction t as [|c t IH]; [congruence|]. intros _.
  destruct t as [|d t]; [simpl; eauto|].
  change (is_Some (last_char (String d t))). apply IH. discriminate.
Qed.

Lemma remove_quotes_string a t :
  attrs_kvs a !! "tag" = Some (VStr t) ->
  t <> EmptyString ->
  exists a',
    remove_quotes a = Ok a' /\ attrs_id a' = attrs_id a /\
    attrs_kvs a' !! "tag" = Some (VStr (unquoted t)).
Proof.
  intros Ht Hne. unfold remove_quotes, unquoted, startswith_char, endswith_char.
  rewrite Ht.
  destruct (first_char_Some t Hne) as [c0 ->].
  destruct (last_char_Some t Hne) as [c1 ->].
  destruct (Ascii.eqb c0 dquote && Ascii.eqb c1 dquote).
  - eexists. split; [reflexivity|]. split; [reflexivity|].
    simpl. apply lookup_insert_eq.
  - destruct (Ascii.eqb c0 squote && Ascii.eqb c1 squote).
    + eexists. split; [reflexivity|]. split; [reflexivity|].
      simpl. apply lookup_insert_eq.
    + eauto.
Qed.

Lemma remove_quotes_empty a :
  attrs_kvs a !! "tag" = Some (VStr EmptyString) ->
  remove_quotes a = Raise IndexError.
Proof. intros Ht. unfold remove_quotes. rewrite Ht. reflexivity. Qed.

(** A successful call on a figure that carries a tag and has a conforming
    label. *)
Lemma _process_figure_tagged u a cap tgt rest fmt st fig st' tag :
  LABEL_PATTERN_match (attrs_id a) = true ->
  attrs_kvs a !! "tag" = Some tag ->
  _process_figure u (Image (Some a) cap tgt :: rest) fmt st = Ok (fig, st') ->
  exists a' secno stored,
    attrs_kvs a !! "secno" = Some secno /\
    fig = mkFig false (String.eqb (attrs_id a) "fig:") true (Some a')
                (Some cap) /\
    attrs_id a' = attrs_id (name_anonymous u a) /\
    attrs_kvs a' !! "tag" = Some stored /\
    st' = set_reference (attrs_id (name_anonymous u a))
            (stored, cursec (proc (update_section secno st)))
            (update_section secno st).
Proof.
  intros Hlab Htag Hrun.
  rewrite (_process_figure_labelled _ _ _ _ _ _ _ Hlab) in Hrun.
  destruct (attrs_kvs a !! "secno") as [secno|] eqn:Hsec; [|discriminate].
  assert (Hk : has_key "tag" (name_anonymous u a) = true).
  { apply has_key_true. rewrite kvs_name_anonymous, Htag. eauto. }
  rewrite (number_by_section_tagged _ _ _ Hk) in Hrun.
  apply bind_Ok in Hrun as ([[b a'] st1] & Hsave & Hrun).
  destruct (save_reference_tagged _ _ _ _ _ Hk Hsave)
    as (-> & Hid & stored & Hstored & ->).
  inversion Hrun; subst; clear Hrun.
  exists a', secno, stored. repeat split; auto.
Qed.

(** The call succeeds when the tag is a string that is not empty. *)
Lemma _process_figure_tagged_runs u a cap tgt rest fmt st secno t :
  LABEL_PATTERN_match (attrs_id a) = true ->
  attrs_kvs a !! "secno" = Some secno ->
  attrs_kvs a !! "tag" = Some (VStr t) ->
  t <> EmptyString ->
  exists a',
    attrs_id a' = attrs_id (name_anonymous u a) /\
    attrs_kvs a' !! "tag" = Some (VStr (unquoted t)) /\
    _process_figure u (Image (Some a) cap tgt :: rest) fmt st =
      Ok (mkFig false (String.eqb (attrs_id a) "fig:") true (Some a')
                (Some cap),
          set_reference (attrs_id (name_anonymous u a))
            (VStr (unquoted t), cursec (proc (update_section secno st)))
            (update_section secno st)).
Proof.
  intros Hlab Hsec Htag Hne.
  rewrite (_process_figure_labelled _ _ _ _ _ _ _ Hlab), Hsec.
  assert (Ht : attrs_kvs (name_anonymous u a) !! "tag" = Some (VStr t))
    by (rewrite kvs_name_anonymous; exact Htag).
  assert (Hk : has_key "tag" (name_anonymous u a) = true)
    by (apply has_key_true; rewrite Ht; eauto).
  rewrite (number_by_section_tagged _ _ _ Hk).
  destruct (remove_quotes_string _ _ Ht Hne) as (a' & Hq & Hid & Hstored).
  exists a'. split; [exact Hid|]. split; [exact Hstored|].
  unfold save_reference. rewrite Hk, Hq. simpl. rewrite Hstored, Hid.
  reflexivity.
Qed.

(** C7: a figure that carries a tag never advances the counter: after the
    call the counter is what the section update alone made of it, that is,
    unchanged when the section id is still the current one and the reset
    value 1 when the section id changed.  A figure without attributes or
    with an identifier that does not match the label pattern is classified
    as unnumbered and leaves the current section, the counter and the
    reference table as they were. *)
Theorem C7_tagged_and_unnumbered_keep_counter u value fmt st :
  (bails_out value = true ->
   exists fig st',
     _process_figure u value fmt st = Ok (fig, st') /\
     is_unnumbered fig = true /\ proc st' = proc st) /\
  (forall tag fig st',
     carried_tag value = Some tag ->
     _process_figure u value fmt st = Ok (fig, st') ->
     (py_eqb (cursec (proc st')) (cursec (proc st)) = true ->
      Nreferences (proc st') = Nreferences (proc st)) /\
     (py_eqb (cursec (proc st')) (cursec (proc st)) = false ->
      Nreferences (proc st') = 1)).
Proof.
  split.
  - intros Hb. destruct (_process_figure_bails_out u value fmt st Hb)
      as (fig & Hrun & Hun & _). eauto.
  - intros tag fig st' Htag Hrun.
    destruct (bails_out value) eqn:Hb.
    + destruct (_process_figure_bails_out u value fmt st Hb)
        as (fig0 & Hrun0 & _).
      rewrite Hrun0 in Hrun. inversion Hrun; subst. simpl.
      rewrite py_eqb_refl. split; [reflexivity | discriminate].
    + destruct value as [|[| | | |[a|] cap tgt| |] rest]; try discriminate.
      simpl in Hb, Htag. apply negb_false_iff in Hb.
      destruct (_process_figure_tagged _ _ _ _ _ _ _ _ _ _ Hb Htag Hrun)
        as (a' & secno & stored & Hsec & _ & _ & _ & ->).
      simpl. unfold update_section.
      destruct (py_eqb secno (cursec (proc st))) eqn:E; simpl.
      * rewrite py_eqb_refl. split; [reflexivity | discriminate].
      * rewrite E. split; [discriminate | reflexivity].
Qed.

Lemma C7_tagged_and_unnumbered_keep_counter_witness :
  (exists fig st',
     _process_figure "u" (figure "fig:e" (VStr "1") (Some (VStr "S1"))) "html"
       after_one_figure = Ok (fig, st') /\
     Nreferences (proc st') = 2) /\
  (exists fig st',
     _process_figure "u" (figure "nolabel" (VStr "1") None) "html"
       after_one_figure = Ok (fig, st') /\
     is_unnumbered fig = true /\ proc st' = proc after_one_figure).
Proof.
  split.
  - do 2 eexists. split; [vm_compute; reflexivity|].
    refine (proj1 (proj2 (C7_tagged_and_unnumbered_keep_counter "u"
              (figure "fig:e" (VStr "1") (Some (VStr "S1"))) "html"
              after_one_figure) (VStr "S1") _ _ _ _) _).
    + reflexivity.
    + vm_compute. reflexivity.
    + reflexivity.
  - apply (proj1 (C7_tagged_and_unnumbered_keep_counter "u"
              (figure "nolabel" (VStr "1") None) "html" after_one_figure)).
    reflexivity.
Defined.

(** ** Anonymous figures *)

Lemma number_by_section_id fmt a st :
  attrs_id (fst (number_by_section fmt a st)) = attrs_id a /\
  references (proc (snd (number_by_section fmt a st))) = references (proc st).
Proof.
  unfold number_by_section.
  destruct (numbersections (vars st)); [|split; reflexivity].
  destruct (str_in fmt html_docx && negb (has_key "tag" a));
    split; reflexivity.
Qed.

Lemma save_reference_entry a st b a' st' :
  save_reference a st = Ok (b, a', st') ->
  attrs_id a' = attrs_id a /\
  exists entry,
    references (proc st') = <[attrs_id a := entry]> (references (proc st)) /\
    (b = false -> exists n, entry = (VInt n, cursec (proc st'))).
Proof.
  destruct (has_key "tag" a) eqn:Hk; intros H.
  - destruct (save_reference_tagged _ _ _ _ _ Hk H)
      as (-> & Hid & tag & _ & ->).
    split; [exact Hid|]. eexists. split; [reflexivity|]. discriminate.
  - rewrite (save_reference_untagged _ _ Hk) in H. inversion H; subst.
    split; [reflexivity|]. eexists. split; [reflexivity|]. eauto.
Qed.

Lemma anonymous_id_fresh (u : string) :
  u <> EmptyString -> "fig:" +:+ u <> "fig:".
Proof. intros Hu H. simpl in H. injection H as H. contradiction. Qed.

(** C8: a figure whose identifier is the bare prefix is given the
    identifier [fig:] followed by the text of a fresh UUID.  It is marked
    unreferenceable and not unnumbered, and the one entry the call makes in
    the reference table is under the synthesized identifier: the entry under
    the bare prefix, which is all a reference in the document can name, and
    every other entry are as before.  Without a tag and without numbering by
    section the entry holds a number, and the call succeeds. *)
Theorem C8_anonymous_figure u a cap tgt rest fmt st :
  attrs_id a = "fig:" ->
  u <> EmptyString ->
  (forall fig st',
     _process_figure u (Image (Some a) cap tgt :: rest) fmt st = Ok (fig, st') ->
     is_unreferenceable fig = true /\ is_unnumbered fig = false /\
     (exists a', fig_attrs fig = Some a' /\ attrs_id a' = "fig:" +:+ u) /\
     (exists entry,
        references (proc st')
          = <["fig:" +:+ u := entry]> (references (proc st)) /\
        (is_tagged fig = false ->
         exists n, entry = (VInt n, cursec (proc st')))) /\
     references (proc st') !! "fig:" = references (proc st) !! "fig:" /\
     (forall k, k <> "fig:" +:+ u ->
        references (proc st') !! k = references (proc st) !! k)) /\
  (is_Some (attrs_kvs a !! "secno") ->
   attrs_kvs a !! "tag" = None ->
   numbersections (vars st) && str_in fmt html_docx = false ->
   exists fig st',
     _process_figure u (Image (Some a) cap tgt :: rest) fmt st = Ok (fig, st')
     /\ is_tagged fig = false).
Proof.
  intros Hid Hu.
  assert (Hlab : LABEL_PATTERN_match (attrs_id a) = true)
    by (rewrite Hid; reflexivity).
  assert (Hname : attrs_id (name_anonymous u a) = "fig:" +:+ u)
    by (unfold name_anonymous; rewrite Hid; reflexivity).
  split.
  - intros fig st' Hrun.
    rewrite (_process_figure_labelled _ _ _ _ _ _ _ Hlab) in Hrun.
    destruct (attrs_kvs a !! "secno") as [secno|]; [|discriminate].
    pose proof (number_by_section_id fmt (name_anonymous u a)
                  (update_section secno st)) as [Hnid Hnref].
    destruct (number_by_section fmt (name_anonymous u a)
                (update_section secno st)) as [a2 st2].
    simpl in Hnid, Hnref.
    apply bind_Ok in Hrun as ([[b a3] st3] & Hsave & Hrun).
    inversion Hrun; subst; clear Hrun. simpl.
    destruct (save_reference_entry _ _ _ _ _ Hsave)
      as (Hid3 & entry & Hrefs & Hnum).
    rewrite Hnid, Hname in Hid3, Hrefs.
    rewrite Hnref, update_section_references in Hrefs.
    rewrite Hid. repeat split.
    + exists a3. split; [reflexivity | exact Hid3].
    + exists entry. split; [exact Hrefs | exact Hnum].
    + rewrite Hrefs. apply lookup_insert_ne, anonymous_id_fresh, Hu.
    + intros k Hk. rewrite Hrefs. apply lookup_insert_ne. congruence.
  - intros [secno Hsec] Htag Hn.
    rewrite (_process_figure_labelled _ _ _ _ _ _ _ Hlab), Hsec.
    rewrite number_by_section_off
      by (rewrite update_section_vars; exact Hn).
    rewrite save_reference_untagged
      by (apply has_key_false; rewrite kvs_name_anonymous; exact Htag).
    do 2 eexists. split; reflexivity.
Qed.

Lemma C8_anonymous_figure_witness :
  exists fig st',
    _process_figure "0f8fad5b-d9cb-469f-a165-70867728950e"
      (figure "fig:" (VStr "1") None) "html" (initial "2.7") = Ok (fig, st')
    /\ is_unreferenceable fig = true /\ is_unnumbered fig = false
    /\ references (proc st') !! "fig:" = None
    /\ references (proc st') !! "fig:0f8fad5b-d9cb-469f-a165-70867728950e"
       = Some (VInt 2, VStr "1").
Proof.
  pose proof (C8_anonymous_figure "0f8fad5b-d9cb-469f-a165-70867728950e"
                (figure_attrs "fig:" (VStr "1") None)
                [Str "A"; Space; Str "caption"] ("img.png", "fig:") []
                "html" (initial "2.7") eq_refl ltac:(discriminate))
    as [Hall _].
  do 2 eexists. split; [vm_compute; reflexivity|].
  specialize (Hall _ _ ltac:(vm_compute; reflexivity))
    as (Hunref & Hnum & _ & _ & Hbare & _).
  split; [exact Hunref|]. split; [exact Hnum|].
  split; [exact Hbare|]. vm_compute. reflexivity.
Defined.

(** ** The empty tag *)

(** C9: a figure with a conforming label, a section number and a tag that
    is the empty string makes [_process_figure] raise [IndexError] at the
    first index into the tag; [process_figures] does not catch it, so the
    action raises too and no figure record, degraded or not, is returned. *)
Theorem C9_empty_tag_raises u a cap url title fmt st :
  LABEL_PATTERN_match (attrs_id a) = true ->
  is_Some (attrs_kvs a !! "secno") ->
  attrs_kvs a !! "tag" = Some (VStr EmptyString) ->
  startswith title "fig:" = true ->
  _process_figure u [Image (Some a) cap (url, title)] fmt st = Raise IndexError
  /\ process_figures u "Para" [Image (Some a) cap (url, title)] fmt st
     = Raise IndexError.
Proof.
  intros Hlab [secno Hsec] Htag Htitle.
  assert (Hrun : _process_figure u [Image (Some a) cap (url, title)] fmt st
                 = Raise IndexError).
  { rewrite (_process_figure_labelled _ _ _ _ _ _ _ Hlab), Hsec.
    assert (Ht : attrs_kvs (name_anonymous u a) !! "tag"
                 = Some (VStr EmptyString))
      by (rewrite kvs_name_anonymous; exact Htag).
    assert (Hk : has_key "tag" (name_anonymous u a) = true)
      by (apply has_key_true; rewrite Ht; eauto).
    rewrite (number_by_section_tagged _ _ _ Hk).
    unfold save_reference. rewrite Hk, (remove_quotes_empty _ Ht).
    reflexivity. }
  split; [exact Hrun|].
  assert (Hguard : is_figure_para "Para" [Image (Some a) cap (url, title)]
                   = true) by (unfold is_figure_para; simpl; exact Htitle).
  unfold process_figures. rewrite Hguard, Hrun. reflexivity.
Qed.

Lemma C9_empty_tag_raises_witness :
  _process_figure "u" (figure "fig:a" (VStr "1") (Some (VStr EmptyString)))
    "html" (initial "2.7") = Raise IndexError
  /\ process_figures "u" "Para"
       (figure "fig:a" (VStr "1") (Some (VStr EmptyString)))
       "html" (initial "2.7") = Raise IndexError.
Proof.
  apply (C9_empty_tag_raises "u"
           (figure_attrs "fig:a" (VStr "1") (Some (VStr EmptyString)))).
  - reflexivity.
  - vm_compute. eauto.
  - vm_compute. reflexivity.
  - reflexivity.
Defined.

(** ** Quotes around a tag *)

Lemma append_cons (c : ascii) (a b : string) :
  String c a +:+ b = String c (a +:+ b).
Proof. reflexivity. Qed.

Lemma append_nil (b : string) : EmptyString +:+ b = b.
Proof. reflexivity. Qed.

Lemma lstrip_decompose c s :
  (exists n, s = pad c n +:+ lstrip c s) /\
  startswith_char (lstrip c s) c = false.
Proof.
  induction s as [|d r [[n IH] IHs]]; simpl.
  - split; [exists O; reflexivity | reflexivity].
  - destruct (Ascii.eqb d c) eqn:E.
    + apply Ascii.eqb_eq in E as ->. split; [|exact IHs].
      exists (S n). simpl pad. rewrite append_cons, <- IH. reflexivity.
    + split; [exists O; reflexivity|]. unfold startswith_char. simpl. exact E.
Qed.

Lemma rstrip_decompose c s :
  (exists m, s = rstrip c s +:+ pad c m) /\
  endswith_char (rstrip c s) c = false.
Proof.
  induction s as [|d r [[m IH] IHs]]; simpl.
  - split; [exists O; reflexivity | reflexivity].
  - destruct (rstrip c r) as [|e r'] eqn:Er.
    + rewrite append_nil in IH. destruct (Ascii.eqb d c) eqn:E.
      * apply Ascii.eqb_eq in E as ->. split; [|reflexivity].
        exists (S m). rewrite append_nil. simpl pad. rewrite <- IH.
        reflexivity.
      * split; [exists m; rewrite append_cons, append_nil, <- IH; reflexivity|].
        unfold endswith_char. simpl. exact E.
    + split; [exists m; rewrite append_cons, <- IH; reflexivity|].
      unfold endswith_char in *. simpl in *. exact IHs.
Qed.

Lemma rstrip_keeps_start c s :
  startswith_char s c = false -> startswith_char (rstrip c s) c = false.
Proof.
  destruct s as [|d r]; [reflexivity|]. unfold startswith_char. simpl.
  intros E. destruct (rstrip c r); [rewrite E|]; simpl; exact E.
Qed.

Lemma append_assoc (a b c : string) : (a +:+ b) +:+ c = a +:+ b +:+ c.
Proof.
  induction a as [|x a IH]; [reflexivity|].
  rewrite !append_cons, IH. reflexivity.
Qed.

Lemma strip_all c s : all_quotes_removed c s (strip c s).
Proof.
  unfold all_quotes_removed, strip.
  destruct (lstrip_decompose c s) as [[n Hl] Hls].
  destruct (rstrip_decompose c (lstrip c s)) as [[m Hr] Hrs].
  split; [|split].
  - exists n, m. rewrite <- Hr. exact Hl.
  - apply rstrip_keeps_start, Hls.
  - exact Hrs.
Qed.

Lemma unquoted_spec t :
  (startswith_char t dquote && endswith_char t dquote = true ->
   all_quotes_removed dquote t (unquoted t)) /\
  (startswith_char t dquote && endswith_char t dquote = false ->
   startswith_char t squote && endswith_char t squote = true ->
   all_quotes_removed squote t (unquoted t)) /\
  (startswith_char t dquote && endswith_char t dquote = false ->
   startswith_char t squote && endswith_char t squote = false ->
   unquoted t = t).
Proof.
  unfold unquoted. split; [|split].
  - intros ->. apply strip_all.
  - intros -> ->. apply strip_all.
  - intros -> ->. reflexivity.
Qed.

(** C3 (as stated) fails: of two layers of double quotes the code strips
    both, where one layer was to stay; and curly quotes are not stripped at
    all. *)
Lemma C3_counterexample :
  (strip_one_layer doubly_quoted = String dquote "S1" +:+ String dquote EmptyString
   /\ entry_after
        (_process_figure "u"
           (figure "fig:e" (VStr "1") (Some (VStr doubly_quoted))) "html"
           (initial "2.7")) "fig:e"
      = Some (VStr "S1", VStr "1")
   /\ "S1" <> strip_one_layer doubly_quoted)
  /\
  (strip_one_layer curly_quoted = "S1"
   /\ entry_after
        (_process_figure "u"
           (figure "fig:e" (VStr "1") (Some (VStr curly_quoted))) "html"
           (initial "2.7")) "fig:e"
      = Some (VStr curly_quoted, VStr "1")
   /\ curly_quoted <> strip_one_layer curly_quoted).
Proof.
  repeat split; try (vm_compute; reflexivity); vm_compute; discriminate.
Qed.

(** C3 (amended): for a figure with a conforming label and a section number
    whose tag is a string that is not empty, the call succeeds and classifies
    the figure as tagged.  When the tag begins and ends with a straight
    double quote, every leading and trailing double quote is removed; else,
    when it begins and ends with a straight single quote, every leading and
    trailing single quote is removed; else the tag is kept.  Characters
    inside are kept, curly quotes are not touched.  The resulting text is
    stored with the current section id in the reference table under the
    identifier of the figure (the synthesized one for an anonymous
    figure). *)
Theorem C3_tag_unquoted_and_stored u a cap tgt rest fmt st secno t :
  LABEL_PATTERN_match (attrs_id a) = true ->
  attrs_kvs a !! "secno" = Some secno ->
  attrs_kvs a !! "tag" = Some (VStr t) ->
  t <> EmptyString ->
  (exists fig st' a',
     _process_figure u (Image (Some a) cap tgt :: rest) fmt st = Ok (fig, st')
     /\ is_tagged fig = true /\ is_unnumbered fig = false
     /\ fig_attrs fig = Some a'
     /\ attrs_id a' = attrs_id (name_anonymous u a)
     /\ attrs_kvs a' !! "tag" = Some (VStr (unquoted t))
     /\ references (proc st') !! attrs_id a'
        = Some (VStr (unquoted t), cursec (proc st'))
     /\ py_eqb secno (cursec (proc st')) = true)
  /\ (startswith_char t dquote && endswith_char t dquote = true ->
      all_quotes_removed dquote t (unquoted t))
  /\ (startswith_char t dquote && endswith_char t dquote = false ->
      startswith_char t squote && endswith_char t squote = true ->
      all_quotes_removed squote t (unquoted t))
  /\ (startswith_char t dquote && endswith_char t dquote = false ->
      startswith_char t squote && endswith_char t squote = false ->
      unquoted t = t).
Proof.
  intros Hlab Hsec Htag Hne. split; [|apply unquoted_spec].
  destruct (_process_figure_tagged_runs u a cap tgt rest fmt st secno t
              Hlab Hsec Htag Hne) as (a' & Hid & Hstored & Hrun).
  eexists _, _, a'. split; [exact Hrun|]. simpl.
  repeat split; auto.
  - rewrite Hid. apply lookup_insert_eq.
  - apply update_section_cursec.
Qed.

Lemma C3_tag_unquoted_and_stored_witness :
  exists fig st',
    _process_figure "u"
      (figure "fig:e" (VStr "1") (Some (VStr doubly_quoted))) "html"
      (initial "2.7") = Ok (fig, st')
    /\ is_tagged fig = true
    /\ references (proc st') !! "fig:e" = Some (VStr "S1", VStr "1").
Proof.
  destruct (C3_tag_unquoted_and_stored "u"
              (figure_attrs "fig:e" (VStr "1") (Some (VStr doubly_quoted)))
              [Str "A"; Space; Str "caption"] ("img.png", "fig:") []
              "html" (initial "2.7") (VStr "1") doubly_quoted
              eq_refl ltac:(vm_compute; reflexivity)
              ltac:(vm_compute; reflexivity) ltac:(discriminate))
    as [(fig & st' & a' & Hrun & Htagged & _) _].
  exists fig, st'. split; [exact Hrun|]. split; [exact Htagged|].
  unfold figure in Hrun. revert Hrun. vm_compute. intros Hrun.
  inversion Hrun. reflexivity.
Defined.

(** ** Which nodes are figures *)

(** C2 (as stated) fails in both directions: a paragraph whose only image
    has an identifier that begins with the prefix is left alone when the
    title of the image does not begin with it, and a paragraph whose only
    image has another identifier is processed (and, for LaTeX, replaced)
    when the title does. *)
Lemma C2_counterexample :
  (figure_shaped_by_identifier "Para" labelled_not_marked = true
   /\ process_figures "u" "Para" labelled_not_marked "latex" (initial "2.7")
      = Ok (None, labelled_not_marked, initial "2.7"))
  /\
  (figure_shaped_by_identifier "Para" marked_not_labelled = false
   /\ process_figures "u" "Para" marked_not_labelled "latex" (initial "2.7")
      = Ok (Some [RawBlock "tex" "\begin{fignos:no-prefix-figure-caption}";
                  Para marked_not_labelled;
                  RawBlock "tex" "\end{fignos:no-prefix-figure-caption}"],
            marked_not_labelled,
            set_has_unnumbered_figures true (initial "2.7"))).
Proof. repeat split. Qed.

Lemma is_figure_para_spec key value :
  is_figure_para key value = true <->
  key = "Para" /\
  exists attrs cap url title,
    value = [Image attrs cap (url, title)] /\ startswith title "fig:" = true.
Proof.
  unfold is_figure_para. split.
  - intros H. apply andb_prop in H as [H Himg].
    apply andb_prop in H as [Hkey Hlen].
    apply String.eqb_eq in Hkey. split; [exact Hkey|].
    destruct value as [|[| | | |attrs cap [url title]| |] [|x rest]];
      try discriminate.
    exists attrs, cap, url, title. split; [reflexivity | exact Himg].
  - intros (-> & attrs & cap & url & title & -> & Ht). simpl. exact Ht.
Qed.

Lemma _add_markup_state fmt fig value st ret st' :
  _add_markup fmt fig value st = Ok (ret, st') ->
  proc st' = proc st /\
  has_unnumbered_figures (flags st') = has_unnumbered_figures (flags st).
Proof.
  unfold _add_markup. intros H.
  repeat match type of H with
         | match ?x with _ => _ end = _ => destruct x; try discriminate
         | (if ?x then _ else _) = _ => destruct x
         end; inversion H; split; reflexivity.
Qed.

(** A successful call of [_process_figure] classifies the figure: it is
    flagged as unnumbered, or it has an entry in the reference table. *)
Lemma _process_figure_classifies u value fmt st fig st' :
  _process_figure u value fmt st = Ok (fig, st') ->
  (is_unnumbered fig = true /\ has_unnumbered_figures (flags st') = true) \/
  (is_unnumbered fig = false /\
   exists a, fig_attrs fig = Some a /\
             is_Some (references (proc st') !! attrs_id a)).
Proof.
  intros Hrun. destruct (bails_out value) eqn:Hb.
  - destruct (_process_figure_bails_out u value fmt st Hb)
      as (fig0 & Hrun0 & Hun & _).
    rewrite Hrun0 in Hrun. inversion Hrun; subst. left. split; auto.
  - right.
    destruct value as [|[| | | |[a|] cap tgt| |] rest]; try discriminate.
    simpl in Hb. apply negb_false_iff in Hb.
    rewrite (_process_figure_labelled _ _ _ _ _ _ _ Hb) in Hrun.
    destruct (attrs_kvs a !! "secno") as [secno|]; [|discriminate].
    destruct (number_by_section fmt (name_anonymous u a)
                (update_section secno st)) as [a2 st2].
    apply bind_Ok in Hrun as ([[b a3] st3] & Hsave & Hrun).
    inversion Hrun; subst; clear Hrun. simpl. split; [reflexivity|].
    destruct (save_reference_entry _ _ _ _ _ Hsave)
      as (Hid3 & entry & Hrefs & _).
    exists a3. split; [reflexivity|].
    rewrite Hrefs, Hid3, lookup_insert_eq. eauto.
Qed.

(** C2 (amended): [process_figures] processes a node exactly when it is a
    paragraph with exactly one child, that child is an image, and the title
    of the image (the second component of its target) begins with [fig:].
    Every other node is left as it is: the action returns [None] and changes
    neither the node nor the state.  A node that passes the test is handed
    to [_process_figure], [_adjust_caption] and [_add_markup]; when the
    action returns, the figure has been classified: it is flagged as
    unnumbered or it has an entry in the reference table. *)
Theorem C2_figures_are_marked_by_title u key value fmt st :
  (is_figure_para key value = true <->
   key = "Para" /\
   exists attrs cap url title,
     value = [Image attrs cap (url, title)] /\ startswith title "fig:" = true)
  /\ (is_figure_para key value = false ->
      process_figures u key value fmt st = Ok (None, value, st))
  /\ (is_figure_para key value = true ->
      forall ret value' st',
        process_figures u key value fmt st = Ok (ret, value', st') ->
        exists fig st1,
          _process_figure u value fmt st = Ok (fig, st1) /\
          proc st' = proc st1 /\
          ((is_unnumbered fig = true /\
            has_unnumbered_figures (flags st') = true) \/
           (is_unnumbered fig = false /\
            exists a, fig_attrs fig = Some a /\
                      is_Some (references (proc st') !! attrs_id a)))).
Proof.
  split; [apply is_figure_para_spec|]. split.
  - intros H. unfold process_figures. rewrite H. reflexivity.
  - intros H ret value' st' Hrun. unfold process_figures in Hrun.
    rewrite H in Hrun.
    apply bind_Ok in Hrun as ([fig st1] & Hfig & Hrun).
    apply bind_Ok in Hrun as (value1 & _ & Hrun).
    apply bind_Ok in Hrun as ([ret' st2] & Hmark & Hrun).
    inversion Hrun; subst; clear Hrun.
    destruct (_add_markup_state _ _ _ _ _ _ Hmark) as [Hproc Hflag].
    exists fig, st1. split; [exact Hfig|]. split; [exact Hproc|].
    rewrite Hproc, Hflag. eapply _process_figure_classifies, Hfig.
Qed.

Lemma C2_figures_are_marked_by_title_witness :
  is_figure_para "Para" labelled_not_marked = false
  /\ process_figures "u" "Para" labelled_not_marked "html" (initial "2.7")
     = Ok (None, labelled_not_marked, initial "2.7")
  /\ is_figure_para "Para" marked_not_labelled = true.
Proof.
  split; [reflexivity|]. split; [|reflexivity].
  apply (proj1 (proj2 (C2_figures_are_marked_by_title "u" "Para"
                         labelled_not_marked "html" (initial "2.7")))).
  reflexivity.
Defined.

(** ** The caption of a tagged figure *)

Lemma replace_space_append a b :
  replace_space (a +:+ b) = replace_space a +:+ replace_space b.
Proof.
  induction a as [|c a IH]; [reflexivity|].
  rewrite append_cons. simpl. destruct (Ascii.eqb c " ");
    rewrite IH; reflexivity.
Qed.

Lemma drop_last_cons d s :
  s <> EmptyString -> drop_last (String d s) = String d (drop_last s).
Proof. destruct s; [congruence | reflexivity]. Qed.

Lemma last_char_cons d s :
  s <> EmptyString -> last_char (String d s) = last_char s.
Proof. destruct s; [congruence | reflexivity]. Qed.

Lemma append_char_not_empty a c : a +:+ String c EmptyString <> EmptyString.
Proof. destruct a; discriminate. Qed.

Lemma drop_last_append_char a c :
  drop_last (a +:+ String c EmptyString) = a.
Proof.
  induction a as [|d a IH]; [reflexivity|].
  rewrite append_cons, drop_last_cons by apply append_char_not_empty.
  rewrite IH. reflexivity.
Qed.

Lemma last_char_append_char a c :
  last_char (a +:+ String c EmptyString) = Some c.
Proof.
  induction a as [|d a IH]; [reflexivity|].
  rewrite append_cons, last_char_cons by apply append_char_not_empty.
  exact IH.
Qed.

Lemma last_char_drop_last s c :
  last_char s = Some c -> s = drop_last s +:+ String c EmptyString.
Proof.
  induction s as [|d s IH]; [discriminate|]. simpl.
  destruct s as [|e s].
  - intros [= ->]. reflexivity.
  - intros H. rewrite append_cons. f_equal. apply IH, H.
Qed.

(** C4 (as stated) fails for the tag that is one dollar sign: it is not
    delimited by a pair of markers, so its caption was to read [$:] as
    literal text, but the code shows it as inline math with empty content. *)
Lemma C4_counterexample :
  dollar_delimited "$" = false
  /\ tag_elements_by_pair "$" = [Str "$:"]
  /\ caption_of (value_after
       (process_figures "u" "Para"
          (figure "fig:e" (VStr "1") (Some (VStr "$"))) "docx"
          (initial "2.7")))
     = [Str "Figure"; Space; Math InlineMath EmptyString; Str ":"; Space;
        Str "A"; Space; Str "caption"].
Proof. repeat split. Qed.

Lemma starts_and_ends_with_dollar text :
  startswith text "$" && endswith_char text "$" = true ->
  text = "$" \/ exists inner, text = "$" +:+ inner +:+ "$".
Proof.
  intros H. apply andb_prop in H as [Hs He].
  destruct text as [|c r]; [discriminate|].
  change (startswith (String c r) "$") with (Ascii.eqb "$" c && true) in Hs.
  rewrite andb_true_r in Hs. apply Ascii.eqb_eq in Hs as <-.
  destruct r as [|d r]; [left; reflexivity|]. right.
  unfold endswith_char in He.
  change (last_char (String "$" (String d r))) with (last_char (String d r))
    in He.
  destruct (last_char (String d r)) as [e|] eqn:El; [|discriminate].
  apply Ascii.eqb_eq in He as ->.
  exists (drop_last (String d r)). rewrite append_cons, append_nil.
  f_equal. apply last_char_drop_last, El.
Qed.

Lemma tag_elements_spec text :
  (forall inner, text = "$" +:+ inner +:+ "$" ->
     tag_elements text = [Math InlineMath (replace_space inner); Str ":"])
  /\ (text = "$" ->
      tag_elements text = [Math InlineMath EmptyString; Str ":"])
  /\ (startswith text "$" && endswith_char text "$" = false ->
      tag_elements text = [Str (text +:+ ":")])
  /\ (startswith text "$" && endswith_char text "$" = true ->
      text = "$" \/ exists inner, text = "$" +:+ inner +:+ "$").
Proof.
  split; [|split; [|split]].
  - intros inner ->. unfold tag_elements.
    assert (Hs : startswith ("$" +:+ inner +:+ "$") "$" = true) by reflexivity.
    assert (He : endswith_char ("$" +:+ inner +:+ "$") "$" = true).
    { unfold endswith_char. rewrite append_cons, append_nil.
      change (last_char (String "$" (inner +:+ "$")))
        with (last_char ("$" +:+ inner +:+ "$")).
      rewrite <- append_assoc, last_char_append_char. reflexivity. }
    rewrite Hs, He. simpl andb. cbv iota.
    rewrite !replace_space_append.
    change (replace_space "$") with "$".
    rewrite append_cons, append_nil. unfold slice_1_m1.
    rewrite drop_last_append_char. reflexivity.
  - intros ->. reflexivity.
  - intros H. unfold tag_elements. rewrite H. reflexivity.
  - apply starts_and_ends_with_dollar.
Qed.

(** C4 (amended): for a tagged figure and an output format that is neither
    latex nor beamer, the new caption is the caption name, a space, the
    elements of the tag, a space and the old caption, inside a span for the
    HTML family.  The tag is shown as inline math followed by a colon string
    if and only if its text begins and ends with a dollar sign: for a text
    that a pair of dollar signs encloses, the math is the enclosed text with
    every space escaped by a backslash; for the text that is one dollar sign
    alone, the math is empty.  Every other tag text is shown as one string,
    the text with a colon appended. *)
Theorem C4_tagged_caption fmt fig a caption img_attrs cap tgt rest st text sec :
  str_in fmt tex_like = false ->
  is_unnumbered fig = false ->
  fig_attrs fig = Some a ->
  fig_caption fig = Some caption ->
  references (proc st) !! attrs_id a = Some (VStr text, sec) ->
  _adjust_caption fmt fig (Image img_attrs cap tgt :: rest) st =
    Ok (Image img_attrs
          ((if str_in fmt html_like
            then [RawInline "html" "<span>"; Str (captionname (vars st)); Space]
                   ++ tag_elements text ++ [RawInline "html" "</span>"]
            else [Str (captionname (vars st)); Space] ++ tag_elements text)
           ++ [Space] ++ caption) tgt :: rest)
  /\ (forall inner, text = "$" +:+ inner +:+ "$" ->
        tag_elements text = [Math InlineMath (replace_space inner); Str ":"])
  /\ (text = "$" ->
      tag_elements text = [Math InlineMath EmptyString; Str ":"])
  /\ (startswith text "$" && endswith_char text "$" = false ->
      tag_elements text = [Str (text +:+ ":")])
  /\ (startswith text "$" && endswith_char text "$" = true ->
      text = "$" \/ exists inner, text = "$" +:+ inner +:+ "$").
Proof.
  intros Hfmt Hnum Ha Hcap Href. split; [|apply tag_elements_spec].
  unfold _adjust_caption. rewrite Ha, Hcap, Hfmt, Hnum, Href. reflexivity.
Qed.

Lemma C4_tagged_caption_witness :
  _adjust_caption "html"
    (mkFig false false true
       (Some (figure_attrs "fig:e" (VStr "1") (Some (VStr "$x y$"))))
       (Some [Str "A"; Space; Str "caption"]))
    (figure "fig:e" (VStr "1") (Some (VStr "$x y$")))
    (after_tagged_figure "$x y$")
  = Ok [Image (Some (figure_attrs "fig:e" (VStr "1") (Some (VStr "$x y$"))))
          [RawInline "html" "<span>"; Str "Figure"; Space;
           Math InlineMath "x\ y"; Str ":"; RawInline "html" "</span>"; Space;
           Str "A"; Space; Str "caption"]
          ("img.png", "fig:")].
Proof.
  exact (proj1 (C4_tagged_caption "html"
                  (mkFig false false true
                     (Some (figure_attrs "fig:e" (VStr "1")
                              (Some (VStr "$x y$"))))
                     (Some [Str "A"; Space; Str "caption"]))
                  (figure_attrs "fig:e" (VStr "1") (Some (VStr "$x y$")))
                  [Str "A"; Space; Str "caption"]
                  (Some (figure_attrs "fig:e" (VStr "1")
                           (Some (VStr "$x y$"))))
                  [Str "A"; Space; Str "caption"] ("img.png", "fig:") []
                  (after_tagged_figure "$x y$") "$x y$" (VStr "1")
                  eq_refl eq_refl eq_refl eq_refl eq_refl)).
Defined.

(** ** The name options *)

Lemma strs_of_Some l names :
  strs_of l = Some names -> VStr <$> names = l.
Proof.
  revert names. induction l as [|[| | |s] l IH]; intros names H;
    simpl in H; try discriminate.
  - inversion H. reflexivity.
  - destruct (strs_of l) as [names'|]; [|discriminate].
    inversion H; subst. simpl. f_equal. apply IH. reflexivity.
Qed.

Lemma strs_of_all l :
  forallb is_str l = true -> exists names, strs_of l = Some names.
Proof.
  induction l as [|[| | |s] l IH]; simpl; intros H; try discriminate.
  - eauto.
  - destruct (IH H) as [names ->]. simpl. eauto.
Qed.

Lemma strs_of_not_all l : forallb is_str l = false -> strs_of l = None.
Proof.
  induction l as [|[| | |s] l IH]; simpl; intros H; try discriminate;
    try reflexivity.
  rewrite (IH H). reflexivity.
Qed.

Lemma read_names_ill_shaped line tmp old :
  well_shaped_names tmp = false ->
  exists e, read_names line tmp old = Raise e.
Proof.
  unfold read_names. destruct tmp as [v|l]; simpl; intros H.
  - destruct old as [|o r]; simpl; [eauto|].
    destruct (negb (length (VStr <$> r) =? 1)%nat); [eauto|].
    destruct v; try discriminate; eauto.
  - destruct (length l =? 2)%nat eqn:El; simpl in *; [|eauto].
    rewrite (strs_of_not_all _ H). eauto.
Qed.

Lemma read_names_well_shaped line tmp old :
  well_shaped_names tmp = true ->
  length old = 2%nat ->
  exists names,
    read_names line tmp old
      = Ok (names, negb (py_list_eqb (names_given tmp old) (VStr <$> old)))
    /\ VStr <$> names = names_given tmp old
    /\ length names = 2%nat.
Proof.
  intros Hw Hlen.
  assert (Hgiven : (length (names_given tmp old) =? 2)%nat = true
                   /\ forallb is_str (names_given tmp old) = true).
  { destruct tmp as [v|l]; simpl in *.
    - destruct old as [|o [|o' [|]]]; try discriminate. simpl.
      rewrite Hw. split; reflexivity.
    - apply andb_prop in Hw. exact Hw. }
  destruct Hgiven as [Hl Hs].
  destruct (strs_of_all _ Hs) as [names Hnames].
  exists names.
  assert (Hnew : (match tmp with
                  | MList l => Ok l
                  | MScalar v =>
                      match old with
                      | [] => Raise IndexError
                      | _ :: r => Ok (v :: (VStr <$> r))
                      end
                  end) = Ok (names_given tmp old)).
  { destruct tmp; [|reflexivity]. destruct old; [discriminate | reflexivity]. }
  unfold read_names. rewrite Hnew. simpl. rewrite Hl. simpl. rewrite Hnames.
  split; [reflexivity|]. pose proof (strs_of_Some _ _ Hnames) as Heq.
  split; [exact Heq|].
  apply Nat.eqb_eq in Hl. rewrite <- Heq, length_fmap in Hl. exact Hl.
Qed.

Lemma py_list_eqb_strings (a b : list string) :
  py_list_eqb (VStr <$> a) (VStr <$> b) = true <-> a = b.
Proof.
  revert b. induction a as [|x a IH]; intros [|y b]; simpl;
    try (split; [discriminate | congruence]); [tauto|].
  rewrite andb_true_iff, String.eqb_eq, IH. split; [intros [-> ->]|intros [=]];
    auto.
Qed.

Lemma bind_Raise_inv {A B} (m : res A) (k : A -> res B) (e : exn) :
  m ≫= k = Raise e -> m = Raise e \/ exists a, m = Ok a /\ k a = Raise e.
Proof. destruct m as [a|e']; simpl; [eauto | intros [= ->]; auto]. Qed.

Section ProcessFacts.

Variable title : string -> string.
Variable int_of_str : string -> option Z.
Variable check_bool : metaval -> res bool.

(** A run of [process] that returns went through every step. *)
Lemma process_Ok meta st st' :
  process title int_of_str check_bool meta st = Ok st' ->
  exists wl cn cc cl cap pn pc s0 sn sc ns,
    read_captionname meta (vars st) (flags st) = Ok (cn, cc) /\
    read_plusname title meta (vars st) (flags st) = Ok (pn, pc, s0) /\
    read_starname meta s0 (flags st) = Ok (sn, sc) /\
    st' = with_flags
            (mkFlags cc pc sc (has_unnumbered_figures (flags st))
                     (has_tagged_figures (flags st)))
            (with_vars (mkMetaVars cn cl cap pn sn ns wl) st).
Proof.
  unfold process. intros H.
  apply bind_Ok in H as (wl & _ & H).
  apply bind_Ok in H as ([cn cc] & Hcn & H).
  apply bind_Ok in H as (cl & _ & H).
  apply bind_Ok in H as (cap & _ & H).
  apply bind_Ok in H as ([[pn pc] s0] & Hpn & H).
  apply bind_Ok in H as ([sn sc] & Hsn & H).
  apply bind_Ok in H as (ns & _ & H).
  inversion H; subst; clear H.
  exists wl, cn, cc, cl, cap, pn, pc, s0, sn, sc, ns. auto.
Qed.

(** A run of [process] that raises does so in one of its steps. *)
Lemma process_Raise meta st e :
  process title int_of_str check_bool meta st = Raise e ->
  read_warninglevel int_of_str meta (vars st) = Raise e \/
  read_captionname meta (vars st) (flags st) = Raise e \/
  (exists names old, read_flag check_bool names meta old = Raise e) \/
  read_plusname title meta (vars st) (flags st) = Raise e \/
  (exists pn pc s0,
     read_plusname title meta (vars st) (flags st) = Ok (pn, pc, s0) /\
     read_starname meta s0 (flags st) = Raise e).
Proof.
  unfold process. intros H.
  apply bind_Raise_inv in H as [H|(wl & _ & H)]; [auto|].
  apply bind_Raise_inv in H as [H|([cn cc] & _ & H)]; [auto|].
  apply bind_Raise_inv in H as [H|(cl & _ & H)]; [eauto 6|].
  apply bind_Raise_inv in H as [H|(cap & _ & H)]; [eauto 6|].
  apply bind_Raise_inv in H as [H|([[pn pc] s0] & Hpn & H)]; [auto|].
  apply bind_Raise_inv in H as [H|([sn sc] & _ & H)]; [eauto 10|].
  apply bind_Raise_inv in H as [H|(ns & _ & H)]; [eauto 6|].
  discriminate.
Qed.

Lemma read_warninglevel_Raise meta v e :
  read_warninglevel int_of_str meta v = Raise e ->
  e = ValueError \/ e = TypeError.
Proof.
  unfold read_warninglevel, py_int. intros H.
  repeat match type of H with
         | match ?x with _ => _ end = _ => destruct x; try discriminate
         end; inversion H; auto.
Qed.

Lemma read_captionname_Raise meta v f e :
  read_captionname meta v f = Raise e -> e = AssertionError 405.
Proof.
  unfold read_captionname. intros H.
  repeat match type of H with
         | match ?x with _ => _ end = _ => destruct x; try discriminate
         end; inversion H; auto.
Qed.

Lemma read_flag_Raise names meta old e :
  read_flag check_bool names meta old = Raise e ->
  exists x, check_bool x = Raise e.
Proof.
  unfold read_flag. destruct (first_present names meta); [eauto|discriminate].
Qed.

(** The mid-sentence names step on a well-shaped option. *)
Lemma read_plusname_well_shaped meta v f :
  length (plusname v) = 2%nat ->
  length (starname v) = 2%nat ->
  (forall tmp, meta_vars meta !! "fignos-plus-name" = Some tmp ->
               well_shaped_names tmp = true) ->
  exists pn pc s0,
    read_plusname title meta v f = Ok (pn, pc, s0) /\
    length pn = 2%nat /\ length s0 = 2%nat.
Proof.
  intros Hp Hs Hw. unfold read_plusname.
  destruct (meta_vars meta !! "fignos-plus-name") as [tmp|].
  - destruct (read_names_well_shaped 431 tmp (plusname v) (Hw tmp eq_refl) Hp)
      as (names & -> & _ & Hlen).
    simpl. do 3 eexists. split; [reflexivity|]. split; [exact Hlen|].
    destruct (negb _); [rewrite length_fmap; exact Hlen | exact Hs].
  - do 3 eexists. split; [reflexivity|]. split; assumption.
Qed.

Lemma read_starname_well_shaped meta s0 f :
  length s0 = 2%nat ->
  (forall tmp, meta_vars meta !! "fignos-star-name" = Some tmp ->
               well_shaped_names tmp = true) ->
  exists sn sc, read_starname meta s0 f = Ok (sn, sc).
Proof.
  intros Hs Hw. unfold read_starname.
  destruct (meta_vars meta !! "fignos-star-name") as [tmp|].
  - destruct (read_names_well_shaped 445 tmp s0 (Hw tmp eq_refl) Hs)
      as (names & -> & _). eauto.
  - do 2 eexists. reflexivity.
Qed.

End ProcessFacts.

(** C5: a mid-sentence or sentence-initial name option that is a list of
    another length than 2, or that has a form that is no string, makes
    [process] raise, from any state; [main] calls [process] before the first
    walk, so it raises the same error and returns no document.  Options that
    are one string or a list of two strings never fail the assertions of
    lines 431, 433, 445 and 447 (the library's [check_bool] raising no
    [AssertionError] of its own). *)
Theorem C5_name_options_shape title int_of_str check_bool re_search
    attach_attrs_image insert_secnos delete_secnos detach_attrs_image
    second_pass uuid_at pandocversion fmt meta blocks :
  (forall name tmp,
     name = "fignos-plus-name" \/ name = "fignos-star-name" ->
     meta_vars meta !! name = Some tmp ->
     well_shaped_names tmp = false ->
     (forall st,
        exists e, process title int_of_str check_bool meta st = Raise e) /\
     exists e,
       process title int_of_str check_bool meta (initial pandocversion)
         = Raise e /\
       main title int_of_str check_bool re_search attach_attrs_image
            insert_secnos delete_secnos detach_attrs_image second_pass
            uuid_at pandocversion fmt meta blocks = Raise e)
  /\
  ((forall x line, check_bool x <> Raise (AssertionError line)) ->
   (forall name tmp,
      name = "fignos-plus-name" \/ name = "fignos-star-name" ->
      meta_vars meta !! name = Some tmp ->
      well_shaped_names tmp = true) ->
   forall line, In line [431; 433; 445; 447]%nat ->
     process title int_of_str check_bool meta (initial pandocversion)
       <> Raise (AssertionError line)).
Proof.
  split.
  - intros name tmp Hname Hmeta Hill.
    assert (Hall : forall st,
      exists e, process title int_of_str check_bool meta st = Raise e).
    { intros st.
      destruct (process title int_of_str check_bool meta st) as [st'|e] eqn:E;
        [exfalso | eauto].
      apply process_Ok in E
        as (wl & cn & cc & cl & cap & pn & pc & s0 & sn & sc & ns
            & _ & Hpn & Hsn & _).
      destruct Hname as [-> | ->].
      - unfold read_plusname in Hpn. rewrite Hmeta in Hpn.
        apply bind_Ok in Hpn as (x & Hx & _).
        destruct (read_names_ill_shaped 431 tmp (plusname (vars st)) Hill)
          as [e He].
        congruence.
      - unfold read_starname in Hsn. rewrite Hmeta in Hsn.
        destruct (read_names_ill_shaped 445 tmp s0 Hill) as [e He].
        congruence. }
    split; [exact Hall|].
    destruct (Hall (initial pandocversion)) as [e He]. exists e.
    split; [exact He|]. unfold main. rewrite He. reflexivity.
  - intros Hcb Hwell line Hline Hraise.
    assert (Hp : forall tmp,
      meta_vars meta !! "fignos-plus-name" = Some tmp ->
      well_shaped_names tmp = true)
      by (intros tmp Ht; exact (Hwell _ tmp (or_introl eq_refl) Ht)).
    assert (Hs : forall tmp,
      meta_vars meta !! "fignos-star-name" = Some tmp ->
      well_shaped_names tmp = true)
      by (intros tmp Ht; exact (Hwell _ tmp (or_intror eq_refl) Ht)).
    destruct (read_plusname_well_shaped title meta
                (vars (initial pandocversion)) (flags (initial pandocversion))
                eq_refl eq_refl Hp) as (pn & pc & s0 & Hpn & _ & Hlen).
    apply process_Raise in Hraise
      as [H|[H|[(names & old & H)|[H|(pn' & pc' & s0' & Hpn' & H)]]]].
    + apply read_warninglevel_Raise in H as [H|H]; discriminate.
    + apply read_captionname_Raise in H. injection H as ->.
      simpl in Hline. intuition discriminate.
    + apply read_flag_Raise in H as [x Hx]. exact (Hcb _ _ Hx).
    + congruence.
    + rewrite Hpn in Hpn'. injection Hpn' as <- <- <-.
      destruct (read_starname_well_shaped meta s0
                  (flags (initial pandocversion)) Hlen Hs) as (sn & sc & Hsn).
      congruence.
Qed.

Lemma C5_name_options_shape_witness :
  (exists e,
     process ascii_title no_int check_bool_lib three_names (initial "2.7")
       = Raise e /\
     run_main "2.7" "html" three_names [Para (figure "fig:a" (VInt 0) None)]
       = Raise e)
  /\ process ascii_title no_int check_bool_lib one_name (initial "2.7")
     <> Raise (AssertionError 431)
  /\ is_ok (process ascii_title no_int check_bool_lib one_name (initial "2.7"))
     = true.
Proof.
  pose proof (C5_name_options_shape ascii_title no_int check_bool_lib
                never_found no_action no_action no_action no_action
                no_second_pass same_uuid "2.7" "html") as H.
  split; [|split].
  - apply (proj1 (H three_names [Para (figure "fig:a" (VInt 0) None)])
             "fignos-plus-name"
             (MList [VStr "fig."; VStr "figs."; VStr "figures"])).
    + left. reflexivity.
    + vm_compute. reflexivity.
    + reflexivity.
  - apply (proj2 (H one_name [])).
    + intros [[| | |]|] line; simpl; discriminate.
    + intros name tmp [-> | ->]; vm_compute; intros [= <-]; reflexivity.
    + simpl. auto.
  - vm_compute. reflexivity.
Defined.

Lemma read_names_Ok line tmp old names changed :
  read_names line tmp old = Ok (names, changed) ->
  VStr <$> names = names_given tmp old /\
  length names = 2%nat /\
  (changed = true <-> names <> old).
Proof.
  unfold read_names. intros H.
  apply bind_Ok in H as (new & Hnew & H).
  assert (Hgiven : new = names_given tmp old).
  { destruct tmp as [v|l]; simpl in *; [|congruence].
    destruct old; [discriminate|]. simpl. congruence. }
  subst new. clear Hnew.
  destruct (length (names_given tmp old) =? 2)%nat eqn:Hl; [|discriminate].
  simpl in H.
  destruct (strs_of (names_given tmp old)) as [names'|] eqn:Hs;
    [|discriminate].
  inversion H; subst; clear H.
  pose proof (strs_of_Some _ _ Hs) as Heq. split; [exact Heq|]. split.
  - apply Nat.eqb_eq in Hl. rewrite <- Heq, length_fmap in Hl. exact Hl.
  - rewrite <- Heq, negb_true_iff, <- not_true_iff_false, py_list_eqb_strings.
    reflexivity.
Qed.

(** C10: when the mid-sentence names are given and differ from the ones in
    force before (the defaults, as [process] runs once), [process] adopts
    them, flags the change and sets the sentence-initial names to the
    title-cased mid-sentence names.  The sentence-initial option is read
    after that: given as a list it is the sentence-initial names as a whole,
    given as one string it is the singular form, before the plural form
    derived from the mid-sentence names. *)
Theorem C10_star_name_after_plus_name title int_of_str check_bool meta st st'
    tmp :
  process title int_of_str check_bool meta st = Ok st' ->
  meta_vars meta !! "fignos-plus-name" = Some tmp ->
  names_given tmp (plusname (vars st)) <> VStr <$> plusname (vars st) ->
  VStr <$> plusname (vars st') = names_given tmp (plusname (vars st)) /\
  plusname_changed (flags st') = true /\
  match meta_vars meta !! "fignos-star-name" with
  | None => starname (vars st') = title <$> plusname (vars st')
  | Some (MList l) => VStr <$> starname (vars st') = l
  | Some (MScalar v) =>
      VStr <$> starname (vars st')
        = v :: (VStr <$> tail (title <$> plusname (vars st')))
  end.
Proof.
  intros Hrun Hplus Hdiff.
  apply process_Ok in Hrun
    as (wl & cn & cc & cl & cap & pn & pc & s0 & sn & sc & ns
        & _ & Hpn & Hsn & ->).
  simpl in *. unfold read_plusname in Hpn. rewrite Hplus in Hpn.
  apply bind_Ok in Hpn as ([names changed] & Hread & Hpn).
  injection Hpn as <- <- <-.
  destruct (read_names_Ok _ _ _ _ _ Hread) as (Hadopted & _ & Hchanged).
  assert (Hc : changed = true).
  { apply Hchanged. intros ->. apply Hdiff. symmetry. exact Hadopted. }
  subst changed. split; [exact Hadopted|]. split; [reflexivity|].
  unfold read_starname in Hsn.
  destruct (meta_vars meta !! "fignos-star-name") as [tmp'|].
  - destruct (read_names_Ok _ _ _ _ _ Hsn) as (Hgiven & _).
    destruct tmp'; exact Hgiven.
  - congruence.
Qed.

Lemma C10_star_name_after_plus_name_witness :
  names_after (process ascii_title no_int check_bool_lib one_name
                 (initial "2.7"))
    = Some (["illustration"; "figs."], ["Illustration"; "Figs."])
  /\ names_after (process ascii_title no_int check_bool_lib both_names
                    (initial "2.7"))
     = Some (["illustration"; "figs."], ["Plate"; "Plates"]).
Proof.
  destruct (process ascii_title no_int check_bool_lib one_name (initial "2.7"))
    as [st1|] eqn:E1; [|vm_compute in E1; discriminate].
  destruct (process ascii_title no_int check_bool_lib both_names
              (initial "2.7"))
    as [st2|] eqn:E2; [|vm_compute in E2; discriminate].
  pose proof (C10_star_name_after_plus_name _ _ _ _ _ _
                (MScalar (VStr "illustration")) E1 eq_refl
                ltac:(vm_compute; discriminate)) as (P1 & _ & H1).
  pose proof (C10_star_name_after_plus_name _ _ _ _ _ _
                (MScalar (VStr "illustration")) E2 eq_refl
                ltac:(vm_compute; discriminate)) as (P2 & _ & H2).
  change (meta_vars one_name !! "fignos-star-name") with (@None metaval) in H1.
  change (meta_vars both_names !! "fignos-star-name")
    with (Some (MList [VStr "Plate"; VStr "Plates"])) in H2.
  cbv iota in H1, H2.
  change (names_given _ _) with [VStr "illustration"; VStr "figs."] in P1, P2.
  assert (Q1 : plusname (vars st1) = ["illustration"; "figs."]).
  { destruct (plusname (vars st1)) as [|a [|b [|]]]; try discriminate.
    injection P1 as -> ->. reflexivity. }
  assert (Q2 : plusname (vars st2) = ["illustration"; "figs."]).
  { destruct (plusname (vars st2)) as [|a [|b [|]]]; try discriminate.
    injection P2 as -> ->. reflexivity. }
  simpl names_after. rewrite H1, Q1, Q2. split.
  - reflexivity.
  - destruct (starname (vars st2)) as [|a [|b [|]]]; try discriminate.
    injection H2 as -> ->. reflexivity.
Defined.

(** ** Header-includes *)

Lemma number_by_section_vars fmt a st :
  vars (snd (number_by_section fmt a st)) = vars st.
Proof.
  unfold number_by_section. destruct (numbersections (vars st)); [|reflexivity].
  destruct (_ && _); reflexivity.
Qed.

Lemma save_reference_vars a st b a' st' :
  save_reference a st = Ok (b, a', st') -> vars st' = vars st.
Proof.
  unfold save_reference. destruct (has_key "tag" a); intros H.
  - apply bind_Ok in H as (a1 & _ & H).
    destruct (attrs_kvs a1 !! "tag"); [|discriminate].
    inversion H. reflexivity.
  - inversion H. reflexivity.
Qed.

Lemma _process_figure_vars u value fmt st fig st' :
  _process_figure u value fmt st = Ok (fig, st') -> vars st' = vars st.
Proof.
  intros Hrun. destruct (bails_out value) eqn:Hb.
  - destruct (_process_figure_bails_out u value fmt st Hb) as (fig0 & H0 & _).
    rewrite H0 in Hrun. inversion Hrun. reflexivity.
  - destruct value as [|[| | | |[a|] cap tgt| |] rest]; try discriminate.
    simpl in Hb. apply negb_false_iff in Hb.
    rewrite (_process_figure_labelled _ _ _ _ _ _ _ Hb) in Hrun.
    destruct (attrs_kvs a !! "secno") as [secno|]; [|discriminate].
    pose proof (number_by_section_vars fmt (name_anonymous u a)
                  (update_section secno st)) as Hn.
    destruct (number_by_section fmt (name_anonymous u a)
                (update_section secno st)) as [a2 st2].
    apply bind_Ok in Hrun as ([[b a3] st3] & Hsave & Hrun).
    inversion Hrun; subst. apply save_reference_vars in Hsave.
    simpl in Hn. rewrite Hsave, Hn. apply update_section_vars.
Qed.

Lemma _add_markup_vars fmt fig value st ret st' :
  _add_markup fmt fig value st = Ok (ret, st') -> vars st' = vars st.
Proof.
  unfold _add_markup. intros H.
  repeat match type of H with
         | match ?x with _ => _ end = _ => destruct x; try discriminate
         | (if ?x then _ else _) = _ => destruct x
         end; inversion H; reflexivity.
Qed.

Lemma process_figures_vars u key value fmt st ret value' st' :
  process_figures u key value fmt st = Ok (ret, value', st') ->
  vars st' = vars st.
Proof.
  unfold process_figures. destruct (is_figure_para key value); intros H.
  - apply bind_Ok in H as ([fig st1] & Hfig & H).
    apply bind_Ok in H as (value1 & _ & H).
    apply bind_Ok in H as ([ret' st2] & Hmark & H).
    inversion H; subst.
    rewrite (_add_markup_vars _ _ _ _ _ _ Hmark).
    apply (_process_figure_vars _ _ _ _ _ _ Hfig).
  - inversion H. reflexivity.
Qed.

(** ** The walk *)

Lemma walk_list_Ok {A B : Type} (f : walker A (list B)) x xs i st r :
  walk_list f (x :: xs) i st = Ok r ->
  exists ys i1 st1 zs i2 st2,
    f x i st = Ok (ys, i1, st1) /\
    walk_list f xs i1 st1 = Ok (zs, i2, st2) /\
    r = (ys ++ zs, i2, st2).
Proof.
  intros H. simpl in H.
  apply bind_Ok in H as ([[ys i1] st1] & Hx & H).
  apply bind_Ok in H as ([[zs i2] st2] & Hxs & H).
  inversion H; subst. eauto 10.
Qed.

Section WalkInvariant.

Variable R : Globals -> Globals -> Prop.
Hypothesis R_refl : forall st, R st st.
Hypothesis R_trans : forall a b c, R a b -> R b c -> R a c.

Lemma walk_list_keeps {A B : Type} (f : walker A (list B)) :
  keeps R f -> keeps R (walk_list f).
Proof.
  intros Hf xs. induction xs as [|x xs IH]; intros i st y i' st' H.
  - inversion H. apply R_refl.
  - apply walk_list_Ok in H
      as (ys & i1 & st1 & zs & i2 & st2 & Hx & Hxs & H).
    inversion H; subst. eapply R_trans; [eapply Hf, Hx|eapply IH, Hxs].
Qed.

Lemma walk_each_keeps {A : Type} (f : walker A A) :
  keeps R f -> keeps R (walk_each f).
Proof.
  intros Hf. apply walk_list_keeps. intros x i st y i' st' H.
  apply bind_Ok in H as ([[z i1] st1] & Hx & H).
  inversion H; subst. eapply Hf, Hx.
Qed.

Lemma walk_part_keeps inl blk :
  keeps R inl -> keeps R blk -> keeps R (walk_part inl blk).
Proof.
  intros Hi Hb part i st y i' st' H.
  destruct part as [xs|bs]; simpl in H;
    apply bind_Ok in H as ([[c i1] st1] & Hw & H); inversion H; subst.
  - exact (walk_each_keeps _ Hi _ _ _ _ _ _ Hw).
  - exact (walk_list_keeps _ Hb _ _ _ _ _ _ Hw).
Qed.

Variable uuid_at : nat -> string.
Variable fmt : string.
Hypothesis R_action : forall u key value ret value' st st',
  process_figures u key value fmt st = Ok (ret, value', st') -> R st st'.

Lemma walk_keeps depth :
  keeps R (walk_inline uuid_at fmt depth) /\
  keeps R (walk_children uuid_at fmt depth) /\
  keeps R (walk_block uuid_at fmt depth).
Proof.
  induction depth as [|d (IHi & IHc & IHb)];
    [repeat split; intros x i st y i' st' H; discriminate|].
  repeat split; intros x i st y i' st' H; simpl in H.
  - destruct x; try (inversion H; subst; apply R_refl);
      apply bind_Ok in H as ([[c i1] st1] & Hw & H); inversion H; subst.
    + exact (walk_each_keeps _ IHi _ _ _ _ _ _ Hw).
    + exact (walk_list_keeps _ IHb _ _ _ _ _ _ Hw).
    + exact (walk_each_keeps _ IHi _ _ _ _ _ _ Hw).
  - destruct x; try (inversion H; subst; apply R_refl);
      apply bind_Ok in H as ([[c i1] st1] & Hw & H); inversion H; subst.
    + exact (walk_each_keeps _ IHi _ _ _ _ _ _ Hw).
    + exact (walk_each_keeps _ (walk_part_keeps _ _ IHi IHb) _ _ _ _ _ _ Hw).
  - destruct (key_value x) as [key value].
    apply bind_Ok in H as ([[ret value'] st1] & Hfig & H).
    eapply R_trans; [eapply R_action, Hfig|].
    destruct ret as [blocks|].
    + exact (walk_each_keeps _ IHc _ _ _ _ _ _ H).
    + apply bind_Ok in H as ([[b i1] st2] & Hw & H). inversion H; subst.
      eapply IHc, Hw.
Qed.

Lemma walk_process_figures_keeps i blocks st blocks' st' :
  walk_process_figures uuid_at i blocks fmt st = Ok (blocks', st') ->
  R st st'.
Proof.
  unfold walk_process_figures. intros H.
  apply bind_Ok in H as ([[bs i1] st1] & Hw & H). inversion H; subst.
  eapply walk_list_keeps; [|exact Hw]. apply walk_keeps.
Qed.

End WalkInvariant.

Lemma walk_process_figures_vars uuid_at i blocks fmt st blocks' st' :
  walk_process_figures uuid_at i blocks fmt st = Ok (blocks', st') ->
  vars st' = vars st.
Proof.
  apply (walk_process_figures_keeps (fun a b => vars b = vars a)).
  - reflexivity.
  - intros a b c H1 H2. congruence.
  - intros u key value ret value' s s' H.
    apply (process_figures_vars _ _ _ _ _ _ _ _ H).
Qed.

Lemma appends_refl P meta : appends P meta meta.
Proof. split; [reflexivity|]. exists []. rewrite app_nil_r. auto. Qed.

Lemma appends_trans P m1 m2 m3 :
  appends P m1 m2 -> appends P m2 m3 -> appends P m1 m3.
Proof.
  intros [Hv1 (l1 & H1 & F1)] [Hv2 (l2 & H2 & F2)]. split; [congruence|].
  exists (l1 ++ l2). rewrite H2, H1, app_assoc. split; [reflexivity|].
  apply Forall_app. auto.
Qed.

Lemma add_tex_to_header_includes_appends re (P : string -> Prop) meta tex wl
    regex :
  P tex -> appends P meta (add_tex_to_header_includes re meta tex wl regex).
Proof.
  intros Htex. unfold add_tex_to_header_includes.
  destruct (match regex with Some _ => _ | None => _ end).
  - apply appends_refl.
  - split; [reflexivity|]. exists [tex]. simpl. auto.
Qed.

Lemma add_tex_to_header_includes_always re meta tex wl :
  add_tex_to_header_includes re meta tex wl None
    = mkMeta (meta_vars meta) (header_includes meta ++ [tex]).
Proof. reflexivity. Qed.

Lemma other_cleveref_tex o : other_directive (cleveref_tex o).
Proof. intros name. unfold cleveref_tex, CAPTION_NAME_TEX. discriminate. Qed.

Lemma other_caption_package_tex : other_directive caption_package_tex.
Proof. intros name. unfold CAPTION_NAME_TEX. discriminate. Qed.

Lemma other_crefname_tex a b : other_directive (crefname_tex a b).
Proof. intros name. unfold crefname_tex, CAPTION_NAME_TEX. discriminate. Qed.

Lemma other_Crefname_tex a b : other_directive (Crefname_tex a b).
Proof. intros name. unfold Crefname_tex, CAPTION_NAME_TEX. discriminate. Qed.

Lemma other_NO_PREFIX_CAPTION_ENV_TEX :
  other_directive NO_PREFIX_CAPTION_ENV_TEX.
Proof. intros name. unfold CAPTION_NAME_TEX. discriminate. Qed.

Lemma other_TAGGED_FIGURE_ENV_TEX : other_directive TAGGED_FIGURE_ENV_TEX.
Proof. intros name. unfold CAPTION_NAME_TEX. discriminate. Qed.

Lemma other_NUMBER_BY_SECTION_TEX : other_directive NUMBER_BY_SECTION_TEX.
Proof. intros name. unfold CAPTION_NAME_TEX. discriminate. Qed.

Lemma str_in_tex_like fmt :
  str_in fmt tex_like = true <-> fmt = "latex" \/ fmt = "beamer".
Proof.
  unfold str_in, tex_like. simpl.
  rewrite orb_false_r, orb_true_iff, !String.eqb_eq. reflexivity.
Qed.

(** What [add_tex] does to the metadata: it appends declarations that are
    no caption-name directive, then the caption-name directive if the
    caption name is not the default one, then, possibly, the directive
    for numbering by section. *)
Lemma add_tex_structure re cleveref_required meta st meta' :
  add_tex re cleveref_required meta st = Ok meta' ->
  exists m1,
    appends other_directive meta m1 /\
    appends other_directive
      (if negb (String.eqb (captionname (vars st)) "Figure")
       then mkMeta (meta_vars m1)
              (header_includes m1
               ++ [CAPTION_NAME_TEX (captionname (vars st))])
       else m1)
      meta'.
Proof.
  unfold add_tex. cbv zeta. intros H.
  apply bind_Ok in H as (m3 & H3 & H).
  apply bind_Ok in H as (m4 & H4 & H).
  inversion H; subst; clear H.
  set (m2 := if has_unnumbered_figures (flags st) then _ else _) in H3.
  assert (A2 : appends other_directive meta m2).
  { subst m2. eapply appends_trans.
    - instantiate (1 := if cleveref_required then _ else meta).
      destruct cleveref_required; [|apply appends_refl].
      apply add_tex_to_header_includes_appends, other_cleveref_tex.
    - destruct (has_unnumbered_figures (flags st)); [|apply appends_refl].
      apply add_tex_to_header_includes_appends, other_caption_package_tex. }
  assert (A3 : appends other_directive m2 m3).
  { destruct (plusname_changed (flags st)).
    - apply bind_Ok in H3 as (s & _ & H3).
      apply bind_Ok in H3 as (p & _ & H3). inversion H3.
      apply add_tex_to_header_includes_appends, other_crefname_tex.
    - inversion H3. apply appends_refl. }
  assert (A4 : appends other_directive m3 m4).
  { destruct (starname_changed (flags st)).
    - apply bind_Ok in H4 as (s & _ & H4).
      apply bind_Ok in H4 as (p & _ & H4). inversion H4.
      apply add_tex_to_header_includes_appends, other_Crefname_tex.
    - inversion H4. apply appends_refl. }
  eexists. split.
  - eapply appends_trans; [exact A2|]. eapply appends_trans; [exact A3|].
    eapply appends_trans; [exact A4|]. eapply appends_trans.
    + instantiate (1 := if has_unnumbered_figures (flags st) then _ else m4).
      destruct (has_unnumbered_figures (flags st)); [|apply appends_refl].
      apply add_tex_to_header_includes_appends,
        other_NO_PREFIX_CAPTION_ENV_TEX.
    + instantiate (1 := if has_tagged_figures (flags st) then _ else _).
      destruct (has_tagged_figures (flags st)); [|apply appends_refl].
      apply add_tex_to_header_includes_appends, other_TAGGED_FIGURE_ENV_TEX.
  - destruct (negb (String.eqb (captionname (vars st)) "Figure"));
      (destruct (numbersections (vars st)); [|apply appends_refl]);
      apply add_tex_to_header_includes_appends, other_NUMBER_BY_SECTION_TEX.
Qed.

Lemma process_captionname title int_of_str check_bool meta st st' name :
  process title int_of_str check_bool meta st = Ok st' ->
  meta_vars meta !! "fignos-caption-name" = Some (MScalar (VStr name)) ->
  captionname (vars st') = name.
Proof.
  intros Hrun Hmeta.
  apply process_Ok in Hrun
    as (wl & cn & cc & cl & cap & pn & pc & s0 & sn & sc & ns
        & Hcn & _ & _ & ->).
  unfold read_captionname in Hcn. rewrite Hmeta in Hcn.
  inversion Hcn. reflexivity.
Qed.

(** C6: a run of [main] that returns leaves the metadata variables as they
    were.  For an output format other than latex and beamer the whole
    metadata, header-includes included, is what it was.  For latex and
    beamer, when the metadata sets the caption name to a string other than
    the default [Figure], the declarations appended to header-includes hold
    the caption-name directive for that name exactly once: all the other
    appended declarations are no caption-name directive. *)
Theorem C6_header_includes title int_of_str check_bool re_search
    attach_attrs_image insert_secnos delete_secnos detach_attrs_image
    second_pass uuid_at pandocversion fmt meta blocks meta' blocks' :
  main title int_of_str check_bool re_search attach_attrs_image insert_secnos
       delete_secnos detach_attrs_image second_pass uuid_at pandocversion fmt
       meta blocks = Ok (meta', blocks') ->
  meta_vars meta' = meta_vars meta /\
  (fmt <> "latex" -> fmt <> "beamer" -> meta' = meta) /\
  (fmt = "latex" \/ fmt = "beamer" ->
   forall name,
     meta_vars meta !! "fignos-caption-name" = Some (MScalar (VStr name)) ->
     name <> "Figure" ->
     exists before after,
       header_includes meta'
         = header_includes meta ++ before ++ [CAPTION_NAME_TEX name] ++ after
       /\ Forall other_directive before /\ Forall other_directive after).
Proof.
  unfold main. intros H.
  apply bind_Ok in H as (st1 & Hprocess & H).
  apply bind_Ok in H as (b1 & _ & H).
  apply bind_Ok in H as (b2 & _ & H).
  apply bind_Ok in H as ([b3 st2] & Hwalk & H).
  apply bind_Ok in H as (b4 & _ & H).
  apply bind_Ok in H as (b5 & _ & H).
  apply bind_Ok in H as ([b6 cleveref_required] & _ & H).
  apply bind_Ok in H as (m & Hmeta & H).
  inversion H; subst; clear H.
  destruct (str_in fmt tex_like) eqn:Hfmt.
  - apply str_in_tex_like in Hfmt.
    destruct (add_tex_structure _ _ _ _ _ Hmeta)
      as (m1 & [Hv1 (l1 & Hh1 & F1)] & [Hv2 (l2 & Hh2 & F2)]).
    split; [|split].
    + rewrite Hv2. destruct (negb _); simpl; exact Hv1.
    + intros H1 H2. destruct Hfmt; contradiction.
    + intros _ name Hname Hne.
      assert (Hcap : captionname (vars st2) = name).
      { rewrite (walk_process_figures_vars _ _ _ _ _ _ _ Hwalk).
        eapply process_captionname; eauto. }
      rewrite Hcap in Hh2.
      apply String.eqb_neq in Hne. rewrite Hne in Hh2. simpl in Hh2.
      exists l1, l2. rewrite Hh2, Hh1, <- !app_assoc. auto.
  - inversion Hmeta; subst. split; [reflexivity|]. split; [reflexivity|].
    intros Htex. apply str_in_tex_like in Htex. congruence.
Qed.

Lemma C6_header_includes_witness :
  meta_after (run_main "2.7" "html" scenario_D
                [Para (figure "fig:a" (VInt 0) None)])
    = Some scenario_D
  /\ (header_includes <$>
        meta_after (run_main "2.7" "latex" scenario_D
                      [Para (figure "fig:a" (VInt 0) None)]))
     = Some [CAPTION_NAME_TEX "Fig."].
Proof.
  split.
  - destruct (run_main "2.7" "html" scenario_D
                [Para (figure "fig:a" (VInt 0) None)])
      as [[meta' blocks']|] eqn:E; [|vm_compute in E; discriminate].
    unfold run_main in E. simpl. f_equal.
    apply (proj1 (proj2 (C6_header_includes _ _ _ _ _ _ _ _ _ _ _ _ _ _ _ _ E)));
      discriminate.
  - destruct (run_main "2.7" "latex" scenario_D
                [Para (figure "fig:a" (VInt 0) None)])
      as [[meta' blocks']|] eqn:E; [|vm_compute in E; discriminate].
    unfold run_main in E. simpl.
    destruct (proj2 (proj2 (C6_header_includes _ _ _ _ _ _ _ _ _ _ _ _ _ _ _ _
                              E)) (or_introl eq_refl) "Fig." eq_refl
                ltac:(discriminate))
      as (before & after & Hh & _).
    vm_compute in E. injection E as <- _. reflexivity.
Defined.

(** * Further properties *)

(** ** Numbering by section *)

Lemma last_char_append x y :
  y <> EmptyString -> last_char (x +:+ y) = last_char y.
Proof.
  intros Hy. induction x as [|c x IH]; [reflexivity|].
  rewrite append_cons, last_char_cons; [exact IH|].
  destruct x; [exact Hy | discriminate].
Qed.

Lemma last_char_string_of_uint d :
  d <> Decimal.Nil ->
  exists c, last_char (NilEmpty.string_of_uint d) = Some c
            /\ is_digit c = true.
Proof.
  induction d as [|d IH|d IH|d IH|d IH|d IH|d IH|d IH|d IH|d IH|d IH];
    intros Hne; [congruence|..];
    (destruct d;
     [ simpl; eexists; split; [reflexivity | reflexivity]
     | destruct IH as (c & Hc & Hd); [discriminate|];
       exists c; split; [|exact Hd];
       simpl NilEmpty.string_of_uint in *;
       rewrite last_char_cons by discriminate; exact Hc .. ]).
Qed.

Lemma last_char_str_of_Z n :
  exists c, last_char (str_of_Z n) = Some c /\ is_digit c = true.
Proof.
  unfold str_of_Z, NilZero.string_of_int.
  assert (Huint : forall d,
    exists c, last_char (NilZero.string_of_uint d) = Some c
              /\ is_digit c = true).
  { intros d. unfold NilZero.string_of_uint. destruct d;
      try (apply last_char_string_of_uint; discriminate).
    eexists. split; reflexivity. }
  destruct (Z.to_int n) as [d|d]; [apply Huint|].
  destruct (Huint d) as (c & Hc & Hd). exists c. split; [|exact Hd].
  rewrite last_char_cons; [exact Hc|].
  intros E. rewrite E in Hc. discriminate.
Qed.

Lemma digit_is_no_quote c :
  is_digit c = true ->
  Ascii.eqb c dquote = false /\ Ascii.eqb c squote = false.
Proof.
  intros H. unfold is_digit in H. apply andb_prop in H as [H1 H2].
  apply Nat.leb_le in H1.
  split; apply Ascii.eqb_neq; intros ->; vm_compute in H1; lia.
Qed.

(** A tag that ends with a digit is left as it is. *)
Lemma remove_quotes_digit a t c :
  attrs_kvs a !! "tag" = Some (VStr t) ->
  last_char t = Some c -> is_digit c = true ->
  remove_quotes a = Ok a.
Proof.
  intros Ht Hc Hd. unfold remove_quotes. rewrite Ht.
  destruct (first_char t) as [c0|] eqn:E0.
  - rewrite Hc. destruct (digit_is_no_quote c Hd) as [-> ->].
    rewrite !andb_false_r. reflexivity.
  - destruct t; discriminate.
Qed.

Lemma save_reference_kept a st tag :
  attrs_kvs a !! "tag" = Some tag ->
  remove_quotes a = Ok a ->
  save_reference a st
    = Ok (true, a, set_reference (attrs_id a) (tag, cursec (proc st)) st).
Proof.
  intros Ht Hq. unfold save_reference.
  assert (Hk : has_key "tag" a = true)
    by (apply has_key_true; rewrite Ht; eauto).
  rewrite Hk, Hq. unfold mbind, res_bind. rewrite Ht. reflexivity.
Qed.

(** A figure without a tag, when figures are numbered by section and the
    format is one of the HTML family or docx. *)
Lemma section_figure_step u s value fmt st :
  plain_figure s value = true ->
  numbersections (vars st) = true ->
  str_in fmt html_docx = true ->
  let st1 := update_section s st in
  exists fig st',
    _process_figure u value fmt st = Ok (fig, st') /\
    is_tagged fig = true /\
    (a ← fig_attrs fig; references (proc st') !! attrs_id a)
      = Some (VStr (py_str (cursec (proc st1)) +:+ "." +:+
                    str_of_Z (Nreferences (proc st1))), cursec (proc st1)) /\
    cursec (proc st') = cursec (proc st1) /\
    Nreferences (proc st') = Nreferences (proc st1) + 1 /\
    vars st' = vars st.
Proof.
  intros Hp Hn Hfmt st1.
  destruct value as [|[| | | |[a|] cap tgt| |] rest]; try discriminate.
  simpl in Hp. apply andb_prop in Hp as [Hp Htag].
  apply andb_prop in Hp as [Hlab Hsec].
  apply bool_decide_eq_true in Hsec. apply negb_true_iff in Htag.
  rewrite (_process_figure_labelled _ _ _ _ _ _ _ Hlab), Hsec.
  fold st1.
  assert (Hk : has_key "tag" (name_anonymous u a) = false)
    by (apply has_key_false; rewrite kvs_name_anonymous;
        apply has_key_false; exact Htag).
  unfold number_by_section.
  assert (Hv : numbersections (vars st1) = true)
    by (unfold st1; rewrite update_section_vars; exact Hn).
  rewrite Hv, Hfmt, Hk. simpl andb. cbv iota.
  set (tag := py_str (cursec (proc st1)) +:+ "." +:+
              str_of_Z (Nreferences (proc st1))).
  set (a2 := set_kv "tag" (VStr tag) (name_anonymous u a)).
  assert (Ht2 : attrs_kvs a2 !! "tag" = Some (VStr tag))
    by (apply lookup_insert_eq).
  destruct (last_char_str_of_Z (Nreferences (proc st1))) as (c & Hc & Hd).
  assert (Hlast : last_char tag = Some c).
  { unfold tag. rewrite <- append_assoc, last_char_append; [exact Hc|].
    intros E. rewrite E in Hc. discriminate. }
  rewrite (save_reference_kept a2 _ _ Ht2
             (remove_quotes_digit a2 tag c Ht2 Hlast Hd)).
  do 2 eexists. split; [reflexivity|]. simpl.
  rewrite lookup_insert_eq. repeat split.
  unfold st1. apply update_section_vars.
Qed.

Lemma number_figures_by_section u s figs fmt st :
  forallb (plain_figure s) figs = true ->
  numbersections (vars st) = true ->
  str_in fmt html_docx = true ->
  figs <> [] ->
  let st1 := update_section s st in
  exists st',
    number_figures u figs fmt st =
      Ok (section_entries_from (Nreferences (proc st1)) (cursec (proc st1))
            (length figs), st').
Proof.
  revert st. induction figs as [|value figs IH]; intros st Hall Hn Hfmt Hne st1.
  - congruence.
  - simpl in Hall. apply andb_prop in Hall as [Hp Hall].
    destruct (section_figure_step u s value fmt st Hp Hn Hfmt)
      as (fig & st' & Hrun & _ & Hentry & Hsec & Hcnt & Hvars).
    simpl. rewrite Hrun. simpl. fold st1. rewrite Hentry.
    destruct figs as [|value' figs].
    + simpl. eexists. reflexivity.
    + assert (Hn' : numbersections (vars st') = true)
        by (rewrite Hvars; exact Hn).
      destruct (IH st' Hall Hn' Hfmt ltac:(discriminate)) as (st'' & Hrest).
      assert (Hsame : update_section s st' = st').
      { apply update_section_same. rewrite Hsec.
        apply update_section_cursec. }
      rewrite Hsame in Hrest. rewrite Hrest. simpl.
      rewrite Hsec, Hcnt. eexists. reflexivity.
Qed.

Lemma section_entries_from_lookup c s n (i : nat) :
  (i < n)%nat ->
  section_entries_from c s n !! i
    = Some (Some (VStr (py_str s +:+ "." +:+ str_of_Z (c + Z.of_nat i)), s)).
Proof.
  revert c i. induction n as [|n IH]; intros c i Hi; [lia|].
  destruct i as [|i]; simpl.
  - rewrite Z.add_0_r. reflexivity.
  - rewrite IH by lia.
    replace (c + 1 + Z.of_nat i) with (c + Z.pos (Pos.of_succ_nat i)) by lia.
    reflexivity.
Qed.

(** X1: when figures are numbered by section and the format is of the HTML
    family or docx, the untagged figures of a section that starts with a
    change of the section id are tagged [s.1], [s.2], ..., [s.N] in document
    order, where [s] is the text of the section id: the hard-coded numbers
    start at 1. *)
Theorem X1_section_tags_start_at_one u s figs fmt st :
  forallb (plain_figure s) figs = true ->
  numbersections (vars st) = true ->
  str_in fmt html_docx = true ->
  py_eqb s (cursec (proc st)) = false ->
  figs <> [] ->
  exists entries st',
    number_figures u figs fmt st = Ok (entries, st') /\
    length entries = length figs /\
    forall i : nat, (i < length figs)%nat ->
      entries !! i
        = Some (Some (VStr (py_str s +:+ "." +:+ str_of_Z (Z.of_nat i + 1)),
                      s)).
Proof.
  intros Hall Hn Hfmt Hchange Hne.
  destruct (number_figures_by_section u s figs fmt st Hall Hn Hfmt Hne)
    as (st' & Hrun).
  rewrite update_section_Nreferences, Hchange in Hrun.
  assert (Hsec : cursec (proc (update_section s st)) = s)
    by (unfold update_section; rewrite Hchange; reflexivity).
  rewrite Hsec in Hrun.
  exists (section_entries_from 1 s (length figs)), st'.
  split; [exact Hrun|]. split.
  - clear. generalize 1. induction (length figs); intros; simpl; auto.
  - intros i Hi. rewrite section_entries_from_lookup by exact Hi.
    replace (1 + Z.of_nat i) with (Z.of_nat i + 1) by lia. reflexivity.
Qed.

Lemma X1_section_tags_start_at_one_witness :
  exists entries st',
    number_figures "u"
      [figure "fig:a" (VInt 2) None; figure "fig:b" (VInt 2) None] "html"
      numbered_by_section = Ok (entries, st') /\
    length entries = 2%nat /\
    forall i : nat, (i < 2)%nat ->
      entries !! i
        = Some (Some (VStr ("2" +:+ "." +:+ str_of_Z (Z.of_nat i + 1)),
                      VInt 2)).
Proof.
  apply (X1_section_tags_start_at_one "u" (VInt 2)
           [figure "fig:a" (VInt 2) None; figure "fig:b" (VInt 2) None]
           "html" numbered_by_section).
  - vm_compute. reflexivity.
  - reflexivity.
  - reflexivity.
  - reflexivity.
  - discriminate.
Defined.

(** ** Tagged and unnumbered figures between numbered ones *)

Lemma plain_figure_run u s value fmt st :
  plain_figure s value = true ->
  numbersections (vars st) && str_in fmt html_docx = false ->
  let st1 := update_section s st in
  exists fig st',
    _process_figure u value fmt st = Ok (fig, st') /\
    is_unnumbered fig = false /\ is_tagged fig = false /\
    (a ← fig_attrs fig; references (proc st') !! attrs_id a)
      = Some (VInt (Nreferences (proc st1) + 1), cursec (proc st1)) /\
    cursec (proc st') = cursec (proc st1) /\
    Nreferences (proc st') = Nreferences (proc st1) + 1 /\
    vars st' = vars st.
Proof.
  intros Hp Hn st1.
  destruct value as [|[| | | |[a|] cap tgt| |] rest]; try discriminate.
  simpl in Hp. apply andb_prop in Hp as [Hp Htag].
  apply andb_prop in Hp as [Hlab Hsec].
  apply bool_decide_eq_true in Hsec. apply negb_true_iff in Htag.
  rewrite (_process_figure_labelled _ _ _ _ _ _ _ Hlab), Hsec.
  rewrite number_by_section_off
    by (rewrite update_section_vars; exact Hn).
  rewrite save_reference_untagged
    by (apply has_key_false; rewrite kvs_name_anonymous;
        apply has_key_false; exact Htag).
  do 2 eexists. split; [reflexivity|]. simpl.
  rewrite lookup_insert_eq.
  repeat split. apply update_section_vars.
Qed.

Lemma tagged_figure_run u s value fmt st :
  tagged_figure s value = true ->
  exists fig st',
    _process_figure u value fmt st = Ok (fig, st') /\
    is_tagged fig = true /\
    cursec (proc st') = cursec (proc (update_section s st)) /\
    Nreferences (proc st') = Nreferences (proc (update_section s st)) /\
    vars st' = vars st.
Proof.
  intros Hp.
  destruct value as [|[| | | |[a|] cap tgt| |] rest]; try discriminate.
  simpl in Hp. apply andb_prop in Hp as [Hp Htag].
  apply andb_prop in Hp as [Hlab Hsec].
  apply bool_decide_eq_true in Hsec.
  destruct (attrs_kvs a !! "tag") as [[| | |t]|] eqn:Et; try discriminate.
  apply negb_true_iff, String.eqb_neq in Htag.
  destruct (_process_figure_tagged_runs u a cap tgt rest fmt st s t
              Hlab Hsec Et Htag) as (a' & _ & _ & Hrun).
  do 2 eexists. split; [exact Hrun|]. simpl.
  repeat split. apply update_section_vars.
Qed.

Lemma update_section_proc_only s st st' :
  proc st' = proc st ->
  proc (update_section s st') = proc (update_section s st).
Proof.
  intros H. unfold update_section. rewrite H.
  destruct (py_eqb s (cursec (proc st))); simpl; [exact H|].
  rewrite H. reflexivity.
Qed.

(** X2: in a run of figures of one section, figures that carry a tag and
    figures that are left unnumbered (no attributes, or an identifier that
    does not match the label pattern) do not disturb the numbering: the
    untagged figures are given consecutive numbers in document order, from
    the value the counter has once the section is entered. *)
Theorem X2_numbering_skips_tagged_and_unnumbered u s figs fmt st :
  forallb (fun value =>
             plain_figure s value || tagged_figure s value || bails_out value)
          figs = true ->
  numbersections (vars st) && str_in fmt html_docx = false ->
  exists st',
    assigned_numbers u figs fmt st
      = Ok (numbers_from (Nreferences (proc (update_section s st)))
              (count_plain s figs), st').
Proof.
  revert st. induction figs as [|value figs IH]; intros st Hall Hn.
  - simpl. eauto.
  - simpl in Hall. apply andb_prop in Hall as [Hkind Hall].
    unfold count_plain. rewrite filter_cons. fold (count_plain s figs).
    destruct (plain_figure s value) eqn:Hp.
    + destruct (plain_figure_run u s value fmt st Hp Hn)
        as (fig & st' & Hrun & Hun & Htag & Hentry & Hsec & Hcnt & Hvars).
      assert (Hn' : numbersections (vars st') && str_in fmt html_docx = false)
        by (rewrite Hvars; exact Hn).
      destruct (IH st' Hall Hn') as (st'' & Hrest).
      rewrite update_section_same in Hrest
        by (rewrite Hsec; apply update_section_cursec).
      rewrite decide_True by reflexivity.
      simpl. rewrite Hrun. simpl. rewrite Hun, Htag, Hentry, Hrest. simpl.
      rewrite Hcnt. eauto.
    + rewrite decide_False by discriminate.
      destruct (tagged_figure s value) eqn:Ht.
      * destruct (tagged_figure_run u s value fmt st Ht)
          as (fig & st' & Hrun & Htag & Hsec & Hcnt & Hvars).
        assert (Hn' : numbersections (vars st') && str_in fmt html_docx
                      = false) by (rewrite Hvars; exact Hn).
        destruct (IH st' Hall Hn') as (st'' & Hrest).
        rewrite update_section_same in Hrest
          by (rewrite Hsec; apply update_section_cursec).
        simpl. rewrite Hrun. simpl. rewrite Htag, orb_true_r, Hrest. simpl.
        rewrite Hcnt. eauto.
      * simpl in Hkind.
        destruct (_process_figure_bails_out u value fmt st Hkind)
          as (fig & Hrun & Hun & _).
        destruct (IH (set_has_unnumbered_figures true st) Hall Hn)
          as (st'' & Hrest).
        rewrite (update_section_proc_only s st
                   (set_has_unnumbered_figures true st) eq_refl) in Hrest.
        simpl. rewrite Hrun. simpl. rewrite Hun, Hrest. simpl. eauto.
Qed.

Lemma X2_numbering_skips_tagged_and_unnumbered_witness :
  exists st',
    assigned_numbers "u"
      [figure "fig:a" (VStr "1") None;
       figure "fig:e" (VStr "1") (Some (VStr "S1"));
       figure "plot" (VStr "1") None;
       figure "fig:b" (VStr "1") None] "html" (initial "2.7")
    = Ok ([VInt 2; VInt 3], st').
Proof.
  apply (X2_numbering_skips_tagged_and_unnumbered "u" (VStr "1")
           [figure "fig:a" (VStr "1") None;
            figure "fig:e" (VStr "1") (Some (VStr "S1"));
            figure "plot" (VStr "1") None;
            figure "fig:b" (VStr "1") None] "html" (initial "2.7")).
  - vm_compute. reflexivity.
  - reflexivity.
Defined.

(** ** What the first pass keeps *)

Lemma state_grows_refl st : state_grows st st.
Proof. unfold state_grows. auto 10. Qed.

Lemma state_grows_trans st1 st2 st3 :
  state_grows st1 st2 -> state_grows st2 st3 -> state_grows st1 st3.
Proof.
  unfold state_grows.
  intros (A1 & A2 & A3 & A4 & A5 & A6 & A7 & A8)
         (B1 & B2 & B3 & B4 & B5 & B6 & B7 & B8).
  repeat split; try congruence; auto.
Qed.

Lemma state_grows_update_section s st : state_grows st (update_section s st).
Proof.
  unfold update_section, state_grows. destruct (negb _); simpl; auto 10.
Qed.

Lemma state_grows_set_reference k v st :
  state_grows st (set_reference k v st).
Proof.
  unfold state_grows. simpl. repeat split; auto.
  intros j Hj. rewrite lookup_insert. destruct (decide (k = j)); eauto.
Qed.

Lemma state_grows_number_by_section fmt a st :
  state_grows st (snd (number_by_section fmt a st)).
Proof.
  unfold number_by_section, state_grows.
  destruct (numbersections (vars st)); [|simpl; auto 10].
  destruct (_ && _); simpl; auto 10.
Qed.

Lemma state_grows_save_reference a st b a' st' :
  save_reference a st = Ok (b, a', st') -> state_grows st st'.
Proof.
  destruct (has_key "tag" a) eqn:Hk; intros H.
  - destruct (save_reference_tagged _ _ _ _ _ Hk H) as (_ & _ & tag & _ & ->).
    apply state_grows_set_reference.
  - rewrite (save_reference_untagged _ _ Hk) in H. inversion H; subst.
    eapply state_grows_trans; [|apply state_grows_set_reference].
    unfold state_grows. simpl. auto 10.
Qed.

Lemma state_grows_set_has_unnumbered_figures st :
  state_grows st (set_has_unnumbered_figures true st).
Proof. unfold state_grows. simpl. auto 10. Qed.

Lemma state_grows_set_has_tagged_figures st :
  state_grows st (set_has_tagged_figures true st).
Proof. unfold state_grows. simpl. auto 10. Qed.

Lemma state_grows__process_figure u value fmt st fig st' :
  _process_figure u value fmt st = Ok (fig, st') -> state_grows st st'.
Proof.
  intros Hrun. destruct (bails_out value) eqn:Hb.
  - destruct (_process_figure_bails_out u value fmt st Hb) as (fig0 & H0 & _).
    rewrite H0 in Hrun. inversion Hrun; subst.
    apply state_grows_set_has_unnumbered_figures.
  - destruct value as [|[| | | |[a|] cap tgt| |] rest]; try discriminate.
    simpl in Hb. apply negb_false_iff in Hb.
    rewrite (_process_figure_labelled _ _ _ _ _ _ _ Hb) in Hrun.
    destruct (attrs_kvs a !! "secno") as [secno|]; [|discriminate].
    pose proof (state_grows_number_by_section fmt (name_anonymous u a)
                  (update_section secno st)) as Hn.
    destruct (number_by_section fmt (name_anonymous u a)
                (update_section secno st)) as [a2 st2].
    apply bind_Ok in Hrun as ([[b a3] st3] & Hsave & Hrun).
    inversion Hrun; subst.
    eapply state_grows_trans; [apply state_grows_update_section|].
    eapply state_grows_trans; [exact Hn|].
    eapply state_grows_save_reference, Hsave.
Qed.

Lemma state_grows__add_markup fmt fig value st ret st' :
  _add_markup fmt fig value st = Ok (ret, st') -> state_grows st st'.
Proof.
  unfold _add_markup. intros H.
  repeat match type of H with
         | match ?x with _ => _ end = _ => destruct x; try discriminate
         | (if ?x then _ else _) = _ => destruct x
         end; inversion H;
    first [apply state_grows_refl | apply state_grows_set_has_tagged_figures].
Qed.

Lemma state_grows_process_figures u key value fmt st ret value' st' :
  process_figures u key value fmt st = Ok (ret, value', st') ->
  state_grows st st'.
Proof.
  unfold process_figures. destruct (is_figure_para key value); intros H.
  - apply bind_Ok in H as ([fig st1] & Hfig & H).
    apply bind_Ok in H as (value1 & _ & H).
    apply bind_Ok in H as ([ret' st2] & Hmark & H).
    inversion H; subst.
    eapply state_grows_trans.
    + eapply state_grows__process_figure, Hfig.
    + eapply state_grows__add_markup, Hmark.
  - inversion H. apply state_grows_refl.
Qed.

Lemma walk_process_figures_state_grows uuid_at i blocks fmt st blocks' st' :
  walk_process_figures uuid_at i blocks fmt st = Ok (blocks', st') ->
  state_grows st st'.
Proof.
  apply (walk_process_figures_keeps state_grows).
  - apply state_grows_refl.
  - apply state_grows_trans.
  - intros u key value ret value' s s' H.
    eapply state_grows_process_figures, H.
Qed.

(** X3: the walk of the first pass with [process_figures] never touches the
    meta variables, the pandoc version or the three changed flags, never
    lowers the flags for unnumbered and tagged figures and never removes an
    identifier from the reference table, whatever the blocks are. *)
Theorem X3_first_pass_keeps_state uuid_at i blocks fmt st blocks' st' :
  walk_process_figures uuid_at i blocks fmt st = Ok (blocks', st') ->
  state_grows st st'.
Proof. apply walk_process_figures_state_grows. Qed.

Lemma X3_first_pass_keeps_state_witness :
  exists blocks' st',
    walk_process_figures same_uuid 0
      [Para (figure "fig:a" (VInt 0) None); RawBlock "tex" "\newpage";
       Para (figure "plot" (VInt 0) None)] "latex" (initial "2.7")
      = Ok (blocks', st')
    /\ state_grows (initial "2.7") st'.
Proof.
  do 2 eexists. split; [vm_compute; reflexivity|].
  eapply (X3_first_pass_keeps_state same_uuid 0
            [Para (figure "fig:a" (VInt 0) None); RawBlock "tex" "\newpage";
             Para (figure "plot" (VInt 0) None)] "latex" (initial "2.7")).
  vm_compute. reflexivity.
Defined.

(** ** One figure, one entry *)

Lemma _process_figure_table u value fmt st fig st' :
  _process_figure u value fmt st = Ok (fig, st') ->
  (is_unnumbered fig = true /\ proc st' = proc st) \/
  exists a cap tgt rest entry,
    value = Image (Some a) cap tgt :: rest /\
    LABEL_PATTERN_match (attrs_id a) = true /\
    references (proc st')
      = <[attrs_id (name_anonymous u a) := entry]> (references (proc st)).
Proof.
  intros Hrun. destruct (bails_out value) eqn:Hb.
  - left. destruct (_process_figure_bails_out u value fmt st Hb)
      as (fig0 & H0 & Hun & _).
    rewrite H0 in Hrun. inversion Hrun; subst. split; [exact Hun|reflexivity].
  - right.
    destruct value as [|[| | | |[a|] cap tgt| |] rest]; try discriminate.
    simpl in Hb. apply negb_false_iff in Hb.
    rewrite (_process_figure_labelled _ _ _ _ _ _ _ Hb) in Hrun.
    destruct (attrs_kvs a !! "secno") as [secno|]; [|discriminate].
    pose proof (number_by_section_id fmt (name_anonymous u a)
                  (update_section secno st)) as [Hnid Hnref].
    destruct (number_by_section fmt (name_anonymous u a)
                (update_section secno st)) as [a2 st2].
    simpl in Hnid, Hnref.
    apply bind_Ok in Hrun as ([[b a3] st3] & Hsave & Hrun).
    inversion Hrun; subst; clear Hrun.
    destruct (save_reference_entry _ _ _ _ _ Hsave)
      as (_ & entry & Hrefs & _).
    rewrite Hnid, Hnref, update_section_references in Hrefs.
    exists a, cap, tgt, rest, entry. auto.
Qed.

(** X4: a call of [process_figures] that returns changes at most one entry
    of the reference table: either the table is as before, or the node is a
    paragraph with one image whose identifier matches the label pattern and
    the table is the old one with the entry under that identifier (the
    synthesized one for the bare prefix) set.  No other entry is changed or
    removed; an earlier entry under the same identifier is replaced. *)
Theorem X4_one_entry_per_figure u key value fmt st ret value' st' :
  process_figures u key value fmt st = Ok (ret, value', st') ->
  references (proc st') = references (proc st) \/
  exists a cap tgt entry,
    key = "Para" /\
    value = [Image (Some a) cap tgt] /\
    LABEL_PATTERN_match (attrs_id a) = true /\
    references (proc st')
      = <[attrs_id (name_anonymous u a) := entry]> (references (proc st)) /\
    forall k, k <> attrs_id (name_anonymous u a) ->
      references (proc st') !! k = references (proc st) !! k.
Proof.
  unfold process_figures. destruct (is_figure_para key value) eqn:Hguard;
    intros H.
  - apply bind_Ok in H as ([fig st1] & Hfig & H).
    apply bind_Ok in H as (value1 & _ & H).
    apply bind_Ok in H as ([ret' st2] & Hmark & H).
    inversion H; subst; clear H.
    destruct (_add_markup_state _ _ _ _ _ _ Hmark) as [Hproc _].
    rewrite Hproc.
    destruct (_process_figure_table _ _ _ _ _ _ Hfig)
      as [[_ Hsame]|(a & cap & tgt & rest & entry & -> & Hlab & Hrefs)].
    + left. rewrite Hsame. reflexivity.
    + right. apply is_figure_para_spec in Hguard
        as (-> & attrs & cap' & url & title & Hv & _).
      injection Hv as Ha Hc Ht Hr. subst attrs cap' tgt rest.
      exists a, cap, (url, title), entry.
      split; [reflexivity|]. split; [reflexivity|]. split; [exact Hlab|].
      split; [exact Hrefs|].
      intros k Hk. rewrite Hrefs. apply lookup_insert_ne. congruence.
  - inversion H. left. reflexivity.
Qed.

Lemma X4_one_entry_per_figure_witness :
  exists ret value' st',
    process_figures "u" "Para" (figure "fig:b" (VStr "1") None) "html"
      after_one_figure = Ok (ret, value', st')
    /\ references (proc st') !! "fig:a" = Some (VInt 2, VStr "1").
Proof.
  assert (Hrun : exists ret value' st',
    process_figures "u" "Para" (figure "fig:b" (VStr "1") None) "html"
      after_one_figure = Ok (ret, value', st')).
  { do 3 eexists. vm_compute. reflexivity. }
  destruct Hrun as (ret & value' & st' & Hrun).
  exists ret, value', st'. split; [exact Hrun|].
  destruct (X4_one_entry_per_figure _ _ _ _ _ _ _ _ Hrun)
    as [->|(a & cap & tgt & entry & _ & Hv & _ & _ & Hother)].
  - reflexivity.
  - injection Hv as <- _ _. rewrite Hother by discriminate. reflexivity.
Defined.

(** ** The paragraph a figure is left in *)

(** X5: a figure paragraph whose image has no attributes, or an identifier
    that does not match the label pattern, keeps its content, caption
    included, in every output format.  For latex and beamer the action
    returns the paragraph between the begin and end of the no-prefix caption
    environment, for every other format it returns [None]; the flag for
    unnumbered figures is raised and nothing else of the state changes. *)
Theorem X5_unnumbered_figure_untouched u key value fmt st :
  is_figure_para key value = true ->
  bails_out value = true ->
  process_figures u key value fmt st =
    Ok (if str_in fmt tex_like
        then Some [RawBlock "tex" "\begin{fignos:no-prefix-figure-caption}";
                   Para value;
                   RawBlock "tex" "\end{fignos:no-prefix-figure-caption}"]
        else None,
        value, set_has_unnumbered_figures true st).
Proof.
  intros Hguard Hb. unfold process_figures. rewrite Hguard.
  destruct value as [|[| | | |[a|] cap tgt| |] rest]; try discriminate.
  - simpl in Hb. unfold _process_figure. rewrite Hb.
    unfold mbind, res_bind. simpl bool_decide. cbv iota.
    unfold _adjust_caption. simpl fig_attrs. simpl fig_caption. cbv iota.
    simpl is_unreferenceable. simpl is_unnumbered.
    rewrite andb_false_r.
    destruct (str_in fmt tex_like) eqn:Hfmt; unfold _add_markup;
      simpl is_unnumbered; rewrite Hfmt; reflexivity.
  - unfold _process_figure, mbind, res_bind. simpl bool_decide. cbv iota.
    unfold _add_markup. simpl is_unnumbered.
    destruct (str_in fmt tex_like); reflexivity.
Qed.

Lemma X5_unnumbered_figure_untouched_witness :
  process_figures "u" "Para" marked_not_labelled "beamer" (initial "2.7") =
    Ok (Some [RawBlock "tex" "\begin{fignos:no-prefix-figure-caption}";
              Para marked_not_labelled;
              RawBlock "tex" "\end{fignos:no-prefix-figure-caption}"],
        marked_not_labelled, set_has_unnumbered_figures true (initial "2.7")).
Proof.
  apply (X5_unnumbered_figure_untouched "u" "Para" marked_not_labelled
           "beamer" (initial "2.7")); reflexivity.
Defined.

Lemma LABEL_PATTERN_match_name_anonymous u a :
  LABEL_PATTERN_match (attrs_id a) = true ->
  LABEL_PATTERN_match (attrs_id (name_anonymous u a)) = true.
Proof.
  intros H. unfold name_anonymous.
  destruct (String.eqb (attrs_id a) "fig:") eqn:E; [|exact H].
  apply String.eqb_eq in E. rewrite E. reflexivity.
Qed.

(** The exact result of [_process_figure] on an untagged figure that is not
    numbered by section. *)
Lemma _process_figure_plain u a cap tgt rest fmt st s :
  LABEL_PATTERN_match (attrs_id a) = true ->
  attrs_kvs a !! "secno" = Some s ->
  attrs_kvs a !! "tag" = None ->
  numbersections (vars st) && str_in fmt html_docx = false ->
  let st1 := update_section s st in
  _process_figure u (Image (Some a) cap tgt :: rest) fmt st =
    Ok (mkFig false (String.eqb (attrs_id a) "fig:") false
              (Some (name_anonymous u a)) (Some cap),
        set_reference (attrs_id (name_anonymous u a))
          (VInt (Nreferences (proc st1) + 1), cursec (proc st1))
          (set_Nreferences (Nreferences (proc st1) + 1) st1)).
Proof.
  intros Hlab Hsec Htag Hn st1.
  rewrite (_process_figure_labelled _ _ _ _ _ _ _ Hlab), Hsec.
  rewrite number_by_section_off
    by (rewrite update_section_vars; exact Hn).
  rewrite save_reference_untagged
    by (apply has_key_false; rewrite kvs_name_anonymous; exact Htag).
  reflexivity.
Qed.

(** X6: for an untagged figure with a conforming label, in a format other
    than latex and beamer and without numbering by section, the action
    gives the figure the next number [n] of its section and rewrites the
    caption to the caption name, a space, the text [n:], a space and the old
    caption, the first three inside a span for the HTML family.  The
    attributes of the image node stay as they are.  The paragraph is
    returned between two bookmarks named by the identifier for docx, behind
    an anchor for the HTML family when pandoc is older than 1.16, and
    [None] is returned otherwise. *)
Theorem X6_numbered_caption u a cap url title fmt st s :
  startswith title "fig:" = true ->
  LABEL_PATTERN_match (attrs_id a) = true ->
  attrs_kvs a !! "secno" = Some s ->
  attrs_kvs a !! "tag" = None ->
  numbersections (vars st) && str_in fmt html_docx = false ->
  str_in fmt tex_like = false ->
  let st1 := update_section s st in
  let n := Nreferences (proc st1) + 1 in
  let i := attrs_id (name_anonymous u a) in
  let number := Str (str_of_Z n +:+ ":") in
  let name := Str (captionname (vars st)) in
  let value' :=
    [Image (Some a)
       ((if str_in fmt html_like
         then [RawInline "html" "<span>"; name; Space; number;
               RawInline "html" "</span>"]
         else [name; Space; number]) ++ [Space] ++ cap) (url, title)] in
  process_figures u "Para" [Image (Some a) cap (url, title)] fmt st =
    Ok (if str_in fmt html_like then
          if String.ltb (PANDOCVERSION st) "1.16"
          then Some [RawBlock "html"
                       ("<a name=" +:+ String dquote i
                        +:+ String dquote "></a>");
                     Para value']
          else None
        else if String.eqb fmt "docx" then
          Some [RawBlock "openxml"
                  ("<w:bookmarkStart w:id=" +:+ String dquote "0"
                   +:+ String dquote " w:name=" +:+ String dquote i
                   +:+ String dquote "/>");
                Para value';
                RawBlock "openxml"
                  ("<w:bookmarkEnd w:id=" +:+ String dquote "0"
                   +:+ String dquote "/>")]
        else None,
        value',
        set_reference i (VInt n, cursec (proc st1))
          (set_Nreferences n st1)).
Proof.
  intros Htitle Hlab Hsec Htag Hn Hfmt st1 n i number name value'.
  assert (Hguard : is_figure_para "Para" [Image (Some a) cap (url, title)]
                   = true) by (unfold is_figure_para; simpl; exact Htitle).
  unfold process_figures. rewrite Hguard.
  rewrite (_process_figure_plain u a cap (url, title) [] fmt st s
             Hlab Hsec Htag Hn).
  fold st1. fold n. fold i.
  set (st2 := set_reference i (VInt n, cursec (proc st1))
                (set_Nreferences n st1)).
  unfold mbind at 1. unfold res_bind at 1. cbv beta iota.
  simpl bool_decide. cbv iota.
  assert (Hadj : _adjust_caption fmt
            (mkFig false (String.eqb (attrs_id a) "fig:") false
                   (Some (name_anonymous u a)) (Some cap))
            [Image (Some a) cap (url, title)] st2 = Ok value').
  { unfold _adjust_caption. simpl fig_attrs. simpl fig_caption. cbv iota.
    rewrite Hfmt. simpl is_unnumbered. cbv iota. fold i.
    assert (Hlook : references (proc st2) !! i
                    = Some (VInt n, cursec (proc st1)))
      by (apply lookup_insert_eq).
    rewrite Hlook. simpl is_int. cbv iota.
    assert (Hname : captionname (vars st2) = captionname (vars st))
      by (unfold st2, st1; simpl; apply f_equal, update_section_vars).
    rewrite Hname. reflexivity. }
  rewrite Hadj. unfold mbind at 1. unfold res_bind at 1. cbv beta iota.
  unfold _add_markup. simpl is_unnumbered. simpl fig_attrs. cbv iota.
  rewrite Hfmt. fold i.
  assert (Hpv : PANDOCVERSION st2 = PANDOCVERSION st).
  { unfold st2, st1, update_section. destruct (negb _); reflexivity. }
  rewrite Hpv.
  assert (Hli : LABEL_PATTERN_match i = true)
    by (apply LABEL_PATTERN_match_name_anonymous, Hlab).
  rewrite Hli, andb_true_r.
  destruct (str_in fmt html_like).
  - destruct (String.ltb (PANDOCVERSION st) "1.16"); reflexivity.
  - destruct (String.eqb fmt "docx"); reflexivity.
Qed.

Lemma X6_numbered_caption_witness :
  caption_of (value_after
    (process_figures "u" "Para" (figure "fig:b" (VStr "1") None) "docx"
       after_one_figure))
  = [Str "Figure"; Space; Str "3:"; Space; Str "A"; Space; Str "caption"].
Proof.
  unfold figure.
  rewrite (X6_numbered_caption "u" (figure_attrs "fig:b" (VStr "1") None)
             [Str "A"; Space; Str "caption"] "img.png" "fig:" "docx"
             after_one_figure (VStr "1")
             eq_refl eq_refl eq_refl eq_refl eq_refl eq_refl).
  reflexivity.
Defined.

(** A successful call on a figure with a conforming label. *)
Lemma _process_figure_labelled_result u a cap tgt rest fmt st fig st1 :
  LABEL_PATTERN_match (attrs_id a) = true ->
  _process_figure u (Image (Some a) cap tgt :: rest) fmt st = Ok (fig, st1) ->
  exists tagged a3 entry,
    fig = mkFig false (String.eqb (attrs_id a) "fig:") tagged (Some a3)
                (Some cap) /\
    attrs_id a3 = attrs_id (name_anonymous u a) /\
    references (proc st1) !! attrs_id (name_anonymous u a) = Some entry.
Proof.
  intros Hlab Hrun.
  rewrite (_process_figure_labelled _ _ _ _ _ _ _ Hlab) in Hrun.
  destruct (attrs_kvs a !! "secno") as [secno|]; [|discriminate].
  pose proof (number_by_section_id fmt (name_anonymous u a)
                (update_section secno st)) as [Hnid _].
  destruct (number_by_section fmt (name_anonymous u a)
              (update_section secno st)) as [a2 st2].
  simpl in Hnid.
  apply bind_Ok in Hrun as ([[b a3] st3] & Hsave & Hrun).
  inversion Hrun; subst; clear Hrun.
  destruct (save_reference_entry _ _ _ _ _ Hsave)
    as (Hid3 & entry & Hrefs & _).
  exists b, a3, entry. split; [reflexivity|]. split; [congruence|].
  rewrite Hrefs, Hnid. apply lookup_insert_eq.
Qed.

(** X7: for latex and beamer no number is written into the caption of a
    figure with a conforming label.  The caption stays as it is, except
    that for a pandoc older than 1.17 a protected label with the identifier
    is appended, and never for the bare prefix.  A tagged figure is
    returned between the begin and end of the tagged-figure environment,
    which is given the text of the tag, and raises the flag for tagged
    figures; for an untagged figure [None] is returned and the state is the
    one [_process_figure] left. *)
Theorem X7_tex_caption_and_envelope u a cap url title fmt st fig st1 :
  startswith title "fig:" = true ->
  LABEL_PATTERN_match (attrs_id a) = true ->
  str_in fmt tex_like = true ->
  _process_figure u [Image (Some a) cap (url, title)] fmt st = Ok (fig, st1) ->
  let value' :=
    if String.ltb (PANDOCVERSION st) "1.17"
       && negb (String.eqb (attrs_id a) "fig:")
    then [Image (Some a)
            (cap ++ [RawInline "tex"
                       ("\protect\label{" +:+ attrs_id a +:+ "}")])
            (url, title)]
    else [Image (Some a) cap (url, title)] in
  exists disp sec,
    references (proc st1) !! attrs_id (name_anonymous u a) = Some (disp, sec)
    /\ process_figures u "Para" [Image (Some a) cap (url, title)] fmt st =
         Ok (if is_tagged fig
             then Some [RawBlock "tex"
                          ("\begin{fignos:tagged-figure}[" +:+ py_str disp
                           +:+ "]");
                        Para value';
                        RawBlock "tex" "\end{fignos:tagged-figure}"]
             else None,
             value',
             if is_tagged fig then set_has_tagged_figures true st1 else st1).
Proof.
  intros Htitle Hlab Hfmt Hrun value'.
  destruct (_process_figure_labelled_result _ _ _ _ _ _ _ _ _ Hlab Hrun)
    as (tagged & a3 & [disp sec] & -> & Hid3 & Hentry).
  exists disp, sec. split; [exact Hentry|].
  assert (Hguard : is_figure_para "Para" [Image (Some a) cap (url, title)]
                   = true) by (unfold is_figure_para; simpl; exact Htitle).
  unfold process_figures. rewrite Hguard, Hrun.
  unfold mbind at 1. unfold res_bind at 1. cbv beta iota.
  simpl bool_decide. cbv iota.
  assert (Hpv : PANDOCVERSION st1 = PANDOCVERSION st).
  { apply state_grows__process_figure in Hrun. apply Hrun. }
  assert (Hadj : _adjust_caption fmt
            (mkFig false (String.eqb (attrs_id a) "fig:") tagged (Some a3)
                   (Some cap))
            [Image (Some a) cap (url, title)] st1 = Ok value').
  { unfold _adjust_caption. simpl fig_attrs. simpl fig_caption. cbv iota.
    rewrite Hfmt, Hpv. simpl is_unreferenceable. unfold value'.
    destruct (String.ltb (PANDOCVERSION st) "1.17"
              && negb (String.eqb (attrs_id a) "fig:")) eqn:E; [|reflexivity].
    apply andb_prop in E as [_ E]. apply negb_true_iff in E.
    rewrite Hid3. unfold name_anonymous. rewrite E. reflexivity. }
  rewrite Hadj. unfold mbind at 1. unfold res_bind at 1. cbv beta iota.
  unfold _add_markup. simpl is_unnumbered. simpl fig_attrs. cbv iota.
  rewrite Hfmt. simpl is_tagged.
  destruct tagged; [|reflexivity].
  assert (Hlook : references (proc (set_has_tagged_figures true st1))
                    !! attrs_id a3 = Some (disp, sec))
    by (rewrite Hid3; exact Hentry).
  rewrite Hlook. reflexivity.
Qed.

Lemma X7_tex_caption_and_envelope_witness :
  exists st',
    process_figures "u" "Para"
      (figure "fig:e" (VStr "1") (Some (VStr "S1"))) "latex" (initial "2.7")
    = Ok (Some [RawBlock "tex" "\begin{fignos:tagged-figure}[S1]";
                Para (figure "fig:e" (VStr "1") (Some (VStr "S1")));
                RawBlock "tex" "\end{fignos:tagged-figure}"],
          figure "fig:e" (VStr "1") (Some (VStr "S1")), st')
    /\ has_tagged_figures (flags st') = true.
Proof.
  assert (Hrun : exists fig st1,
    _process_figure "u" (figure "fig:e" (VStr "1") (Some (VStr "S1")))
      "latex" (initial "2.7") = Ok (fig, st1)
    /\ is_tagged fig = true
    /\ references (proc st1) !! "fig:e" = Some (VStr "S1", VStr "1")).
  { do 2 eexists. split; [vm_compute; reflexivity|]. split; reflexivity. }
  destruct Hrun as (fig & st1 & Hrun & Htag & Hentry).
  destruct (X7_tex_caption_and_envelope "u"
              (figure_attrs "fig:e" (VStr "1") (Some (VStr "S1")))
              [Str "A"; Space; Str "caption"] "img.png" "fig:" "latex"
              (initial "2.7") fig st1 eq_refl eq_refl eq_refl Hrun)
    as (disp & sec & Hdisp & Hfig).
  change (attrs_id (name_anonymous "u"
            (figure_attrs "fig:e" (VStr "1") (Some (VStr "S1")))))
    with "fig:e" in Hdisp.
  rewrite Hentry in Hdisp. injection Hdisp as <- <-.
  rewrite Htag in Hfig.
  exists (set_has_tagged_figures true st1). split; [exact Hfig|reflexivity].
Defined.

(** ** Documents without figures *)

Lemma max_of_le {A : Type} (f : A -> nat) x l :
  In x l -> (f x <= max_of f l)%nat.
Proof.
  induction l as [|y l IH]; intros Hin; [destruct Hin|].
  simpl. destruct Hin as [-> | Hin]; [lia|]. specialize (IH Hin). lia.
Qed.

Lemma existsb_false_In {A : Type} (f : A -> bool) x l :
  existsb f l = false -> In x l -> f x = false.
Proof.
  intros H Hin. destruct (f x) eqn:E; [|reflexivity].
  rewrite <- H. symmetry. apply existsb_exists. eauto.
Qed.

Lemma walk_list_same {A : Type} (f : walker A (list A)) xs st :
  (forall x, In x xs -> forall i, exists i', f x i st = Ok ([x], i', st)) ->
  forall i, exists i', walk_list f xs i st = Ok (xs, i', st).
Proof.
  induction xs as [|x xs IH]; intros Hf i; [eexists; reflexivity|].
  destruct (Hf x (or_introl eq_refl) i) as [i1 Hx].
  destruct (IH (fun y Hy => Hf y (or_intror Hy)) i1) as [i2 Hxs].
  exists i2. simpl. rewrite Hx.
  unfold mbind at 1. unfold res_bind at 1. cbv beta iota.
  rewrite Hxs. reflexivity.
Qed.

Lemma walk_each_same {A : Type} (f : walker A A) xs st :
  (forall x, In x xs -> forall i, exists i', f x i st = Ok (x, i', st)) ->
  forall i, exists i', walk_each f xs i st = Ok (xs, i', st).
Proof.
  intros Hf. apply walk_list_same. intros x Hx i.
  destruct (Hf x Hx i) as [i' H]. exists i'. rewrite H. reflexivity.
Qed.

Lemma walk_same uuid_at fmt st depth :
  (forall x, (inline_depth x <= depth)%nat -> figure_in_inline x = false ->
     forall i, exists i',
       walk_inline uuid_at fmt depth x i st = Ok (x, i', st)) /\
  (forall b, (block_depth b <= S depth)%nat -> figure_below b = false ->
     forall i, exists i',
       walk_children uuid_at fmt depth b i st = Ok (b, i', st)) /\
  (forall b, (block_depth b <= depth)%nat -> has_figure b = false ->
     forall i, exists i',
       walk_block uuid_at fmt depth b i st = Ok ([b], i', st)).
Proof.
  induction depth as [|d (IHi & IHc & IHb)].
  - repeat split.
    + intros x Hd. destruct x; simpl in Hd; lia.
    + intros b Hd. destruct b; simpl in Hd; lia.
    + intros b Hd. destruct b; simpl in Hd; lia.
  - assert (Hinl : forall xs, (max_of inline_depth xs <= d)%nat ->
              existsb figure_in_inline xs = false ->
              forall i, exists i',
                walk_each (walk_inline uuid_at fmt d) xs i st
                = Ok (xs, i', st)).
    { intros xs Hd Hf. apply walk_each_same. intros x Hx.
      apply IHi.
      - pose proof (max_of_le inline_depth x xs Hx). lia.
      - exact (existsb_false_In _ _ _ Hf Hx). }
    assert (Hblk : forall bs, (max_of block_depth bs <= d)%nat ->
              existsb (fun b => is_figure_block b || figure_below b) bs
              = false ->
              forall i, exists i',
                walk_list (walk_block uuid_at fmt d) bs i st
                = Ok (bs, i', st)).
    { intros bs Hd Hf. apply walk_list_same. intros b Hb.
      apply IHb.
      - pose proof (max_of_le block_depth b bs Hb). lia.
      - exact (existsb_false_In _ _ _ Hf Hb). }
    repeat split.
    + intros x Hd Hf i.
      destruct x as [s| |t s|f s|a cap tgt|bs|t xs];
        try (eexists; reflexivity); simpl in Hd, Hf.
      * destruct (Hinl cap ltac:(lia) Hf i) as [i' H].
        exists i'. simpl. rewrite H. reflexivity.
      * destruct (Hblk bs ltac:(lia) Hf i) as [i' H].
        exists i'. simpl. rewrite H. reflexivity.
      * destruct (Hinl xs ltac:(lia) Hf i) as [i' H].
        exists i'. simpl. rewrite H. reflexivity.
    + intros b Hd Hf i.
      destruct b as [v|f s|t parts];
        try (eexists; reflexivity); simpl in Hd, Hf.
      * destruct (Hinl v ltac:(lia) Hf i) as [i' H].
        exists i'. simpl. rewrite H. reflexivity.
      * assert (H : exists i',
                  walk_each (walk_part (walk_inline uuid_at fmt d)
                                       (walk_block uuid_at fmt d)) parts i st
                  = Ok (parts, i', st)).
        { apply walk_each_same. intros part Hpart j.
          pose proof (max_of_le part_depth part parts Hpart) as Hdp.
          pose proof (existsb_false_In _ _ _ Hf Hpart) as Hfp.
          destruct part as [xs|bs]; simpl in Hdp, Hfp.
          - destruct (Hinl xs ltac:(lia) Hfp j) as [j' H].
            exists j'. simpl. rewrite H. reflexivity.
          - destruct (Hblk bs ltac:(lia) Hfp j) as [j' H].
            exists j'. simpl. rewrite H. reflexivity. }
        destruct H as [i' H]. exists i'. simpl. rewrite H. reflexivity.
    + intros b Hd Hf i. unfold has_figure in Hf.
      apply orb_false_iff in Hf as [Hfig Hbelow].
      unfold is_figure_block in Hfig.
      destruct (IHc b ltac:(lia) Hbelow (S i)) as [i' H].
      exists i'. simpl. destruct (key_value b) as [key value] eqn:Ekv.
      simpl in Hfig. unfold process_figures. rewrite Hfig.
      unfold mbind at 1. unfold res_bind at 1. cbv beta iota.
      assert (Hset : set_value value b = b)
        by (destruct b; simpl in Ekv; inversion Ekv; reflexivity).
      rewrite Hset, H. reflexivity.
Qed.

(** X8: a walk over blocks that hold no figure paragraph, at any depth,
    returns the blocks as they are, in the same order, and leaves the state
    as it is: nothing is numbered, flagged or entered in the reference
    table. *)
Theorem X8_walk_without_figures uuid_at i blocks fmt st :
  forallb (fun b => negb (has_figure b)) blocks = true ->
  walk_process_figures uuid_at i blocks fmt st = Ok (blocks, st).
Proof.
  intros Hall. unfold walk_process_figures.
  destruct (walk_list_same
              (walk_block uuid_at fmt (max_of block_depth blocks)) blocks st)
    with (i := i) as [i' H]; [|rewrite H; reflexivity].
  intros b Hb. apply walk_same.
  - apply max_of_le, Hb.
  - rewrite forallb_forall in Hall. apply negb_true_iff, Hall, Hb.
Qed.

Lemma X8_walk_without_figures_witness :
  walk_process_figures same_uuid 0
    [Para [Str "Text"; Space; Str "only."]; Para labelled_not_marked;
     RawBlock "tex" "\newpage";
     OtherBlock "BlockQuote"
       [Blocks [Para [Str "Quoted."; Note [Para [Str "Note."]]]]];
     OtherBlock "HorizontalRule" []]
    "html" after_one_figure
  = Ok ([Para [Str "Text"; Space; Str "only."]; Para labelled_not_marked;
         RawBlock "tex" "\newpage";
         OtherBlock "BlockQuote"
           [Blocks [Para [Str "Quoted."; Note [Para [Str "Note."]]]]];
         OtherBlock "HorizontalRule" []],
        after_one_figure).
Proof.
  apply (X8_walk_without_figures same_uuid 0
           [Para [Str "Text"; Space; Str "only."]; Para labelled_not_marked;
            RawBlock "tex" "\newpage";
            OtherBlock "BlockQuote"
              [Blocks [Para [Str "Quoted."; Note [Para [Str "Note."]]]]];
            OtherBlock "HorizontalRule" []]
           "html" after_one_figure).
  reflexivity.
Defined.

(** ** Reading the metadata *)

(** X9: [process] reads the metadata through the eleven known variables
    only: two metadata maps that agree on them give the same result, so
    variables of other filters or of the document have no effect on the
    state (the diagnostic for an unknown name is not modelled).  When none
    of the known variables is set, [process] returns the state it was
    given. *)
Theorem X9_process_reads_known_variables title int_of_str check_bool meta
    meta' st :
  ((forall name, In name metanames ->
      meta_vars meta !! name = meta_vars meta' !! name) ->
   process title int_of_str check_bool meta st
     = process title int_of_str check_bool meta' st)
  /\
  ((forall name, In name metanames -> meta_vars meta !! name = None) ->
   process title int_of_str check_bool meta st = Ok st).
Proof.
  split.
  - intros H.
    unfold process, read_warninglevel, read_captionname, read_flag,
      read_plusname, read_starname, first_present.
    rewrite !(H "fignos-warning-level"), !(H "xnos-warning-level"),
      !(H "fignos-caption-name"), !(H "fignos-cleveref"),
      !(H "xnos-cleveref"), !(H "xnos-capitalise"), !(H "xnos-capitalize"),
      !(H "fignos-plus-name"), !(H "fignos-star-name"),
      !(H "fignos-number-sections"), !(H "xnos-number-sections")
      by (simpl; tauto).
    reflexivity.
  - intros H.
    unfold process, read_warninglevel, read_captionname, read_flag,
      read_plusname, read_starname, first_present.
    rewrite !(H "fignos-warning-level"), !(H "xnos-warning-level"),
      !(H "fignos-caption-name"), !(H "fignos-cleveref"),
      !(H "xnos-cleveref"), !(H "xnos-capitalise"), !(H "xnos-capitalize"),
      !(H "fignos-plus-name"), !(H "fignos-star-name"),
      !(H "fignos-number-sections"), !(H "xnos-number-sections")
      by (simpl; tauto).
    destruct st as [[] ? [] ?]. reflexivity.
Qed.

Lemma X9_process_reads_known_variables_witness :
  process ascii_title no_int check_bool_lib
    (mkMeta {["title" := MScalar (VStr "A paper")]} []) after_one_figure
  = Ok after_one_figure.
Proof.
  apply (proj2 (X9_process_reads_known_variables ascii_title no_int
                  check_bool_lib
                  (mkMeta {["title" := MScalar (VStr "A paper")]} [])
                  (mkMeta ∅ []) after_one_figure)).
  intros name Hin. simpl in Hin.
  repeat (destruct Hin as [<-|Hin]; [vm_compute; reflexivity|]).
  contradiction.
Defined.

(** A run of [process] that returns, with all its steps. *)
Lemma process_Ok_steps title int_of_str check_bool meta st st' :
  process title int_of_str check_bool meta st = Ok st' ->
  exists wl cn cc cl cap pn pc s0 sn sc ns,
    read_warninglevel int_of_str meta (vars st) = Ok wl /\
    read_captionname meta (vars st) (flags st) = Ok (cn, cc) /\
    read_flag check_bool ["fignos-cleveref"; "xnos-cleveref"] meta
      (cleveref (vars st)) = Ok cl /\
    read_flag check_bool ["xnos-capitalise"; "xnos-capitalize"] meta
      (capitalise (vars st)) = Ok cap /\
    read_plusname title meta (vars st) (flags st) = Ok (pn, pc, s0) /\
    read_starname meta s0 (flags st) = Ok (sn, sc) /\
    read_flag check_bool ["fignos-number-sections"; "xnos-number-sections"]
      meta (numbersections (vars st)) = Ok ns /\
    st' = with_flags
            (mkFlags cc pc sc (has_unnumbered_figures (flags st))
                     (has_tagged_figures (flags st)))
            (with_vars (mkMetaVars cn cl cap pn sn ns wl) st).
Proof.
  unfold process. intros H.
  apply bind_Ok in H as (wl & Hwl & H).
  apply bind_Ok in H as ([cn cc] & Hcn & H).
  apply bind_Ok in H as (cl & Hcl & H).
  apply bind_Ok in H as (cap & Hcap & H).
  apply bind_Ok in H as ([[pn pc] s0] & Hpn & H).
  apply bind_Ok in H as ([sn sc] & Hsn & H).
  apply bind_Ok in H as (ns & Hns & H).
  inversion H; subst; clear H.
  exists wl, cn, cc, cl, cap, pn, pc, s0, sn, sc, ns. auto 10.
Qed.

(** X10: where an option has a name of this filter and a name shared with
    the other xnos filters, the name of this filter decides: if
    [fignos-warning-level], [fignos-cleveref] or [fignos-number-sections] is
    set, the shared [xnos-] variable of that kind is not read, and of the two
    spellings of the capitalise option [xnos-capitalise] is the one read
    first.  The shared variable is read only when the other is absent. *)
Theorem X10_own_option_first title int_of_str check_bool meta st st' :
  process title int_of_str check_bool meta st = Ok st' ->
  (forall x, meta_vars meta !! "fignos-warning-level" = Some x ->
     py_int int_of_str x = Ok (warninglevel (vars st'))) /\
  (forall x, meta_vars meta !! "fignos-cleveref" = Some x ->
     check_bool x = Ok (cleveref (vars st'))) /\
  (forall x, meta_vars meta !! "xnos-capitalise" = Some x ->
     check_bool x = Ok (capitalise (vars st'))) /\
  (forall x, meta_vars meta !! "fignos-number-sections" = Some x ->
     check_bool x = Ok (numbersections (vars st'))) /\
  (forall x, meta_vars meta !! "fignos-warning-level" = None ->
     meta_vars meta !! "xnos-warning-level" = Some x ->
     py_int int_of_str x = Ok (warninglevel (vars st'))) /\
  (forall x, meta_vars meta !! "fignos-cleveref" = None ->
     meta_vars meta !! "xnos-cleveref" = Some x ->
     check_bool x = Ok (cleveref (vars st'))) /\
  (forall x, meta_vars meta !! "xnos-capitalise" = None ->
     meta_vars meta !! "xnos-capitalize" = Some x ->
     check_bool x = Ok (capitalise (vars st'))) /\
  (forall x, meta_vars meta !! "fignos-number-sections" = None ->
     meta_vars meta !! "xnos-number-sections" = Some x ->
     check_bool x = Ok (numbersections (vars st'))).
Proof.
  intros Hrun.
  apply process_Ok_steps in Hrun
    as (wl & cn & cc & cl & cap & pn & pc & s0 & sn & sc & ns
        & Hwl & _ & Hcl & Hcap & _ & _ & Hns & ->).
  unfold read_warninglevel, read_flag, first_present in *. simpl.
  repeat split.
  - intros x Hx. rewrite Hx in Hwl. exact Hwl.
  - intros x Hx. rewrite Hx in Hcl. exact Hcl.
  - intros x Hx. rewrite Hx in Hcap. exact Hcap.
  - intros x Hx. rewrite Hx in Hns. exact Hns.
  - intros x Hn Hx. rewrite Hn, Hx in Hwl. exact Hwl.
  - intros x Hn Hx. rewrite Hn, Hx in Hcl. exact Hcl.
  - intros x Hn Hx. rewrite Hn, Hx in Hcap. exact Hcap.
  - intros x Hn Hx. rewrite Hn, Hx in Hns. exact Hns.
Qed.

Lemma X10_own_option_first_witness :
  (warninglevel ∘ vars) <$>
    process ascii_title no_int check_bool_lib both_levels (initial "2.7")
  = Ok 0.
Proof.
  destruct (process ascii_title no_int check_bool_lib both_levels
              (initial "2.7")) as [st'|] eqn:E;
    [|vm_compute in E; discriminate].
  pose proof (proj1 (X10_own_option_first _ _ _ _ _ _ E)
                (MScalar (VInt 0)) eq_refl) as H.
  simpl in H. injection H as H. unfold fmap, res_fmap, compose.
  rewrite <- H. reflexivity.
Defined.

(** X11: a caption name that is a string is taken over, and the changed
    flag tells whether it differs from the name in force before.  A caption
    name of any other form ends [process] with an error: the assertion of
    line 405 fails, unless reading the warning level has failed before. *)
Theorem X11_caption_name title int_of_str check_bool meta st x :
  meta_vars meta !! "fignos-caption-name" = Some x ->
  (forall s st',
     x = MScalar (VStr s) ->
     process title int_of_str check_bool meta st = Ok st' ->
     captionname (vars st') = s /\
     captionname_changed (flags st')
       = negb (String.eqb s (captionname (vars st)))) /\
  ((forall s, x <> MScalar (VStr s)) ->
   exists e,
     process title int_of_str check_bool meta st = Raise e /\
     (e = AssertionError 405 \/
      read_warninglevel int_of_str meta (vars st) = Raise e)).
Proof.
  intros Hx. split.
  - intros s st' -> Hrun.
    apply process_Ok_steps in Hrun
      as (wl & cn & cc & cl & cap & pn & pc & s0 & sn & sc & ns
          & _ & Hcn & _ & _ & _ & _ & _ & ->).
    unfold read_captionname in Hcn. rewrite Hx in Hcn.
    inversion Hcn; subst. split; reflexivity.
  - intros Hns.
    assert (Hcn : read_captionname meta (vars st) (flags st)
                  = Raise (AssertionError 405)).
    { unfold read_captionname. rewrite Hx.
      destruct x as [[| | |s]|l]; try reflexivity.
      destruct (Hns s eq_refl). }
    unfold process.
    destruct (read_warninglevel int_of_str meta (vars st)) as [wl|e] eqn:Ew.
    + exists (AssertionError 405). split; [|left; reflexivity].
      unfold mbind at 1. unfold res_bind at 1. cbv beta iota.
      rewrite Hcn. reflexivity.
    + exists e. split; [reflexivity | right; reflexivity].
Qed.

Lemma X11_caption_name_witness :
  (exists st',
     process ascii_title no_int check_bool_lib scenario_D (initial "2.7")
       = Ok st'
     /\ captionname (vars st') = "Fig."
     /\ captionname_changed (flags st') = true)
  /\ process ascii_title no_int check_bool_lib
       boolean_caption_name
       (initial "2.7")
     = Raise (AssertionError 405).
Proof.
  split.
  - destruct (process ascii_title no_int check_bool_lib scenario_D
                (initial "2.7")) as [st'|] eqn:E;
      [|vm_compute in E; discriminate].
    exists st'. split; [reflexivity|].
    apply (proj1 (X11_caption_name ascii_title no_int check_bool_lib
                    scenario_D (initial "2.7") (MScalar (VStr "Fig."))
                    eq_refl) "Fig." st' eq_refl E).
  - destruct (proj2 (X11_caption_name ascii_title no_int check_bool_lib
                boolean_caption_name
                (initial "2.7") (MScalar (VBool true)) eq_refl)
                ltac:(discriminate)) as (e & He & [->|Hw]).
    + exact He.
    + vm_compute in Hw. discriminate.
Defined.

(** X12: when the mid-sentence names are given, the changed flag is raised
    exactly when the resulting names differ from the ones in force before;
    given as they were, they leave the sentence-initial names alone.  When
    the sentence-initial names are not given, their changed flag stays as
    it was, also when they were derived from new mid-sentence names; when
    they are given, the flag tells whether they differ from the names in
    force after the mid-sentence step. *)
Theorem X12_changed_flags title int_of_str check_bool meta st st' tmp :
  process title int_of_str check_bool meta st = Ok st' ->
  meta_vars meta !! "fignos-plus-name" = Some tmp ->
  let derived :=
    if plusname_changed (flags st') then title <$> plusname (vars st')
    else starname (vars st) in
  (plusname_changed (flags st') = true
   <-> plusname (vars st') <> plusname (vars st)) /\
  (meta_vars meta !! "fignos-star-name" = None ->
   starname (vars st') = derived /\
   starname_changed (flags st') = starname_changed (flags st)) /\
  (is_Some (meta_vars meta !! "fignos-star-name") ->
   (starname_changed (flags st') = true <-> starname (vars st') <> derived)).
Proof.
  intros Hrun Hplus derived.
  apply process_Ok_steps in Hrun
    as (wl & cn & cc & cl & cap & pn & pc & s0 & sn & sc & ns
        & _ & _ & _ & _ & Hpn & Hsn & _ & ->).
  subst derived. simpl in *.
  unfold read_plusname in Hpn. rewrite Hplus in Hpn.
  apply bind_Ok in Hpn as ([names changed] & Hread & Hpn).
  injection Hpn as <- <- <-.
  destruct (read_names_Ok _ _ _ _ _ Hread) as (_ & _ & Hchanged).
  split; [exact Hchanged|].
  unfold read_starname in Hsn.
  destruct (meta_vars meta !! "fignos-star-name") as [tmp'|]; split.
  - discriminate.
  - intros _. destruct (read_names_Ok _ _ _ _ _ Hsn) as (_ & _ & Hsc).
    exact Hsc.
  - intros _. injection Hsn as <- <-. split; reflexivity.
  - intros [? [=]].
Qed.

Lemma X12_changed_flags_witness :
  exists st',
    process ascii_title no_int check_bool_lib one_name (initial "2.7") = Ok st'
    /\ plusname_changed (flags st') = true
    /\ starname (vars st') = ["Illustration"; "Figs."]
    /\ starname_changed (flags st') = false.
Proof.
  destruct (process ascii_title no_int check_bool_lib one_name (initial "2.7"))
    as [st'|] eqn:E; [|vm_compute in E; discriminate].
  exists st'. split; [reflexivity|].
  destruct (X12_changed_flags _ _ _ _ _ _ _ E eq_refl)
    as (Hp & Hs & _).
  assert (P : plusname (vars st') = ["illustration"; "figs."])
    by (vm_compute in E; injection E as <-; reflexivity).
  assert (Hc : plusname_changed (flags st') = true)
    by (apply Hp; rewrite P; discriminate).
  destruct (Hs eq_refl) as [Hstar Hflag].
  rewrite Hc, P in Hstar.
  split; [exact Hc|]. split; [exact Hstar | exact Hflag].
Defined.

(** ** Two names each *)

(** X13: [process] keeps the mid-sentence and the sentence-initial names at
    two entries each, whatever the metadata: a run that starts with two of
    each and returns ends with two of each.  With two of each [add_tex]
    never fails: the singular and plural forms it puts into the cref
    declarations are there. *)
Theorem X13_two_names_each title int_of_str check_bool meta st st' :
  length (plusname (vars st)) = 2%nat ->
  length (starname (vars st)) = 2%nat ->
  process title int_of_str check_bool meta st = Ok st' ->
  length (plusname (vars st')) = 2%nat /\
  length (starname (vars st')) = 2%nat /\
  forall re_search cleveref_required m,
    is_ok (add_tex re_search cleveref_required m st') = true.
Proof.
  intros Hp Hs Hrun.
  apply process_Ok_steps in Hrun
    as (wl & cn & cc & cl & cap & pn & pc & s0 & sn & sc & ns
        & _ & _ & _ & _ & Hpn & Hsn & _ & ->).
  assert (Hlen : length pn = 2%nat /\ length s0 = 2%nat).
  { unfold read_plusname in Hpn.
    destruct (meta_vars meta !! "fignos-plus-name") as [tmp|].
    - apply bind_Ok in Hpn as ([names changed] & Hread & Hpn).
      injection Hpn as <- <- <-.
      destruct (read_names_Ok _ _ _ _ _ Hread) as (_ & Hl & _).
      split; [exact Hl|].
      destruct changed; [rewrite length_fmap; exact Hl | exact Hs].
    - injection Hpn as <- <- <-. auto. }
  destruct Hlen as [Hlp Hl0].
  assert (Hls : length sn = 2%nat).
  { unfold read_starname in Hsn.
    destruct (meta_vars meta !! "fignos-star-name") as [tmp|].
    - destruct (read_names_Ok _ _ _ _ _ Hsn) as (_ & Hl & _). exact Hl.
    - injection Hsn as <- <-. exact Hl0. }
  simpl. split; [exact Hlp|]. split; [exact Hls|].
  intros re cr m. unfold add_tex. simpl.
  destruct pn as [|p0 [|p1 [|]]]; try discriminate.
  destruct sn as [|s0' [|s1 [|]]]; try discriminate.
  destruct pc, sc; reflexivity.
Qed.

Lemma X13_two_names_each_witness :
  exists st',
    process ascii_title no_int check_bool_lib both_names (initial "2.7")
      = Ok st'
    /\ length (plusname (vars st')) = 2%nat
    /\ length (starname (vars st')) = 2%nat
    /\ is_ok (add_tex never_found true scenario_D st') = true.
Proof.
  destruct (process ascii_title no_int check_bool_lib both_names
              (initial "2.7")) as [st'|] eqn:E;
    [|vm_compute in E; discriminate].
  exists st'. split; [reflexivity|].
  destruct (X13_two_names_each ascii_title no_int check_bool_lib both_names
              (initial "2.7") st' eq_refl eq_refl E) as (Hp & Hs & Hadd).
  split; [exact Hp|]. split; [exact Hs|]. apply Hadd.
Defined.

(** ** What the action leaves of a paragraph *)

Lemma _process_figure_caption u value fmt st fig st' c :
  _process_figure u value fmt st = Ok (fig, st') ->
  fig_caption fig = Some c ->
  exists a tgt rest, value = Image a c tgt :: rest.
Proof.
  intros H Hc.
  destruct value as [|[| | | |[a|] cap tgt| |] rest]; try discriminate.
  - simpl in H. destruct (negb (LABEL_PATTERN_match (attrs_id a))).
    + inversion H; subst. simpl in Hc. injection Hc as <-. eauto.
    + destruct (attrs_kvs (name_anonymous u a) !! "secno");
        [|discriminate].
      destruct (number_by_section fmt (name_anonymous u a) _) as [a2 st2].
      apply bind_Ok in H as ([[tagged a3] st3] & _ & H).
      inversion H; subst. simpl in Hc. injection Hc as <-. eauto.
  - simpl in H. inversion H; subst. discriminate.
Qed.

Lemma tag_elements_leaves text : forallb is_leaf (tag_elements text) = true.
Proof. unfold tag_elements. destruct (_ && _); reflexivity. Qed.

Lemma caption_grown_before a cap tgt rest pre :
  forallb is_leaf pre = true ->
  caption_grown (Image a cap tgt :: rest)
                (Image a (pre ++ [Space] ++ cap) tgt :: rest).
Proof.
  intros Hpre. right. exists a, cap, tgt, rest, (pre ++ [Space]), [].
  split; [reflexivity|]. split.
  - rewrite app_nil_r, <- app_assoc. reflexivity.
  - rewrite forallb_app, Hpre. split; reflexivity.
Qed.

Lemma caption_grown_after a cap tgt rest post :
  forallb is_leaf post = true ->
  caption_grown (Image a cap tgt :: rest)
                (Image a (cap ++ post) tgt :: rest).
Proof.
  intros Hpost. right. exists a, cap, tgt, rest, [], post.
  split; [reflexivity|]. split; [reflexivity|]. split; [reflexivity|exact Hpost].
Qed.

Lemma _adjust_caption_grown fmt fig value st value' :
  (forall c, fig_caption fig = Some c ->
             exists a tgt rest, value = Image a c tgt :: rest) ->
  _adjust_caption fmt fig value st = Ok value' ->
  caption_grown value value'.
Proof.
  intros Hcap H. unfold _adjust_caption in H.
  destruct (fig_attrs fig) as [attrs|], (fig_caption fig) as [caption|],
    value as [|[| | | |a cap tgt| |] rest]; try discriminate.
  destruct (Hcap caption eq_refl) as (a' & tgt' & rest' & Heq).
  injection Heq as <- <- <- <-.
  destruct (str_in fmt tex_like).
  - destruct (_ && _); injection H as <-; [|left; reflexivity].
    apply caption_grown_after. reflexivity.
  - destruct (is_unnumbered fig); [injection H as <-; left; reflexivity|].
    destruct (references (proc st) !! attrs_id attrs) as [[disp sec]|];
      [|discriminate].
    destruct (is_int disp).
    + injection H as <-. apply caption_grown_before.
      match goal with |- context [if ?c then _ else _] => destruct c end;
        reflexivity.
    + destruct disp as [|b|n|text]; try discriminate.
      injection H as <-. apply caption_grown_before.
      match goal with |- context [if ?c then _ else _] => destruct c end.
      * simpl. rewrite forallb_app, tag_elements_leaves. reflexivity.
      * simpl. apply tag_elements_leaves.
Qed.

Lemma _add_markup_blocks fmt fig value st ret st' :
  _add_markup fmt fig value st = Ok (ret, st') ->
  forall blocks, ret = Some blocks ->
    exists pre post,
      blocks = pre ++ Para value :: post /\
      forallb is_raw pre = true /\ forallb is_raw post = true.
Proof.
  unfold _add_markup. intros H blocks Hret.
  repeat match type of H with
         | match ?x with _ => _ end = _ => destruct x; try discriminate
         | (if ?x then _ else _) = _ => destruct x
         end; injection H as <- <-; try discriminate;
    injection Hret as <-;
    (eexists [_], _; split; [reflexivity|split; reflexivity]).
Qed.

Lemma process_figures_shape u key value fmt st ret value' st' :
  process_figures u key value fmt st = Ok (ret, value', st') ->
  caption_grown value value' /\
  forall blocks, ret = Some blocks ->
    exists pre post,
      blocks = pre ++ Para value' :: post /\
      forallb is_raw pre = true /\ forallb is_raw post = true.
Proof.
  unfold process_figures. destruct (is_figure_para key value); intros H.
  - apply bind_Ok in H as ([fig st1] & Hfig & H).
    apply bind_Ok in H as (value1 & Hadj & H).
    apply bind_Ok in H as ([ret' st2] & Hmark & H).
    inversion H; subst. split.
    + destruct (bool_decide (is_Some (fig_attrs fig)));
        [|inversion Hadj; left; reflexivity].
      apply (_adjust_caption_grown _ _ _ _ _
               (fun c => _process_figure_caption _ _ _ _ _ _ c Hfig) Hadj).
    + apply (_add_markup_blocks _ _ _ _ _ _ Hmark).
  - inversion H; subst. split; [left; reflexivity|discriminate].
Qed.

(** ** The recursion limit *)

Lemma remove_quotes_runs a : remove_quotes a <> Raise RecursionError.
Proof. unfold remove_quotes. repeat case_match; discriminate. Qed.

Lemma save_reference_runs a st : save_reference a st <> Raise RecursionError.
Proof.
  unfold save_reference. destruct (has_key "tag" a); [|discriminate].
  intros H. apply bind_Raise_inv in H as [H | (a' & _ & H)].
  - exact (remove_quotes_runs a H).
  - destruct (attrs_kvs a' !! "tag"); discriminate.
Qed.

Lemma _process_figure_runs u value fmt st :
  _process_figure u value fmt st <> Raise RecursionError.
Proof.
  unfold _process_figure.
  destruct value as [|[| | | |[a|] cap tgt| |] rest]; try discriminate.
  destruct (negb (LABEL_PATTERN_match (attrs_id a))); [discriminate|].
  destruct (attrs_kvs (name_anonymous u a) !! "secno"); [|discriminate].
  destruct (number_by_section fmt (name_anonymous u a) _) as [a2 st2].
  intros H. apply bind_Raise_inv in H as [H | ([[tagged a3] st3] & _ & H)].
  - exact (save_reference_runs _ _ H).
  - discriminate.
Qed.

Lemma _adjust_caption_runs fmt fig value st :
  _adjust_caption fmt fig value st <> Raise RecursionError.
Proof. unfold _adjust_caption. repeat case_match; discriminate. Qed.

Lemma _add_markup_runs fmt fig value st :
  _add_markup fmt fig value st <> Raise RecursionError.
Proof. unfold _add_markup. repeat case_match; discriminate. Qed.

Lemma process_figures_runs u key value fmt st :
  process_figures u key value fmt st <> Raise RecursionError.
Proof.
  unfold process_figures. destruct (is_figure_para key value); [|discriminate].
  intros H. apply bind_Raise_inv in H as [H | ([fig st1] & _ & H)];
    [exact (_process_figure_runs _ _ _ _ H)|].
  apply bind_Raise_inv in H as [H | (value1 & _ & H)].
  - destruct (bool_decide _); [|discriminate].
    exact (_adjust_caption_runs _ _ _ _ H).
  - apply bind_Raise_inv in H as [H | ([ret st2] & _ & H)];
      [exact (_add_markup_runs _ _ _ _ H)|discriminate].
Qed.

Lemma max_of_app {A : Type} (f : A -> nat) l1 l2 :
  max_of f (l1 ++ l2) = Nat.max (max_of f l1) (max_of f l2).
Proof.
  induction l1 as [|x l1 IH]; [reflexivity|]. simpl. rewrite IH. lia.
Qed.

Lemma max_of_bound {A : Type} (f : A -> nat) l n :
  (forall x, In x l -> (f x <= n)%nat) -> (max_of f l <= n)%nat.
Proof.
  induction l as [|x l IH]; intros H; simpl; [lia|].
  pose proof (H x (or_introl eq_refl)).
  pose proof (IH (fun y Hy => H y (or_intror Hy))). lia.
Qed.

Lemma leaves_depth l :
  forallb is_leaf l = true -> (max_of inline_depth l <= 1)%nat.
Proof.
  intros H. apply max_of_bound. intros x Hx.
  rewrite forallb_forall in H. specialize (H x Hx).
  destruct x; try discriminate; simpl; lia.
Qed.

Lemma caption_grown_depth value value' :
  caption_grown value value' ->
  max_of inline_depth value' = max_of inline_depth value.
Proof.
  intros [-> | (a & cap & tgt & rest & pre & post & -> & -> & Hpre & Hpost)];
    [reflexivity|].
  apply leaves_depth in Hpre, Hpost. simpl. rewrite !max_of_app. lia.
Qed.

Lemma walk_list_runs {A B : Type} (f : walker A (list B)) xs :
  (forall x, In x xs -> forall i st, f x i st <> Raise RecursionError) ->
  forall i st, walk_list f xs i st <> Raise RecursionError.
Proof.
  induction xs as [|x xs IH]; intros Hf i st; [discriminate|].
  simpl. intros H.
  apply bind_Raise_inv in H as [H | ([[ys i1] st1] & _ & H)];
    [exact (Hf x (or_introl eq_refl) _ _ H)|].
  apply bind_Raise_inv in H as [H | ([[zs i2] st2] & _ & H)];
    [|discriminate].
  exact (IH (fun y Hy => Hf y (or_intror Hy)) _ _ H).
Qed.

Lemma walk_each_runs {A : Type} (f : walker A A) xs :
  (forall x, In x xs -> forall i st, f x i st <> Raise RecursionError) ->
  forall i st, walk_each f xs i st <> Raise RecursionError.
Proof.
  intros Hf. apply walk_list_runs. intros x Hx i st H.
  apply bind_Raise_inv in H as [H | ([[y i1] st1] & _ & H)];
    [exact (Hf x Hx _ _ H)|discriminate].
Qed.

(** A walk whose recursion limit is at least the depth of the element never
    reaches the limit. *)
Lemma walk_runs uuid_at fmt depth :
  (forall x, (inline_depth x <= depth)%nat ->
     forall i st,
       walk_inline uuid_at fmt depth x i st <> Raise RecursionError) /\
  (forall b, (block_depth b <= S depth)%nat ->
     forall i st,
       walk_children uuid_at fmt depth b i st <> Raise RecursionError) /\
  (forall b, (block_depth b <= depth)%nat ->
     forall i st,
       walk_block uuid_at fmt depth b i st <> Raise RecursionError).
Proof.
  induction depth as [|d (IHi & IHc & IHb)].
  - repeat split.
    + intros x Hd. destruct x; simpl in Hd; lia.
    + intros b Hd. destruct b; simpl in Hd; lia.
    + intros b Hd. destruct b; simpl in Hd; lia.
  - assert (Hinl : forall xs, (max_of inline_depth xs <= d)%nat ->
              forall i st,
                walk_each (walk_inline uuid_at fmt d) xs i st
                <> Raise RecursionError).
    { intros xs Hd. apply walk_each_runs. intros x Hx. apply IHi.
      pose proof (max_of_le inline_depth x xs Hx). lia. }
    assert (Hblk : forall bs, (max_of block_depth bs <= d)%nat ->
              forall i st,
                walk_list (walk_block uuid_at fmt d) bs i st
                <> Raise RecursionError).
    { intros bs Hd. apply walk_list_runs. intros b Hb. apply IHb.
      pose proof (max_of_le block_depth b bs Hb). lia. }
    repeat split.
    + intros x Hd i st H.
      destruct x as [s| |t s|f s|a cap tgt|bs|t xs];
        try discriminate; simpl in Hd, H;
        apply bind_Raise_inv in H as [H | ([[c i1] st1] & _ & H)];
        try discriminate.
      * exact (Hinl cap ltac:(lia) _ _ H).
      * exact (Hblk bs ltac:(lia) _ _ H).
      * exact (Hinl xs ltac:(lia) _ _ H).
    + intros b Hd i st H.
      destruct b as [v|f s|t parts];
        try discriminate; simpl in Hd, H;
        apply bind_Raise_inv in H as [H | ([[c i1] st1] & _ & H)];
        try discriminate.
      * exact (Hinl v ltac:(lia) _ _ H).
      * revert H. apply walk_each_runs. intros part Hpart j s H.
        pose proof (max_of_le part_depth part parts Hpart) as Hdp.
        destruct part as [xs|bs]; simpl in Hdp, H;
          apply bind_Raise_inv in H as [H | ([[c i1] st1] & _ & H)];
          try discriminate.
        -- exact (Hinl xs ltac:(lia) _ _ H).
        -- exact (Hblk bs ltac:(lia) _ _ H).
    + intros b Hd i st H. simpl in H.
      destruct (key_value b) as [key value] eqn:Ekv.
      apply bind_Raise_inv in H as [H | ([[ret value'] st1] & Hfig & H)];
        [exact (process_figures_runs _ _ _ _ _ H)|].
      destruct (process_figures_shape _ _ _ _ _ _ _ _ Hfig) as [Hg Hblocks].
      apply caption_grown_depth in Hg.
      assert (Hv : (S (S (max_of inline_depth value')) <= S d)%nat).
      { rewrite Hg. destruct b; simpl in Ekv; inversion Ekv; subst;
          simpl in Hd |- *; lia. }
      destruct ret as [blocks|].
      * revert H. apply walk_each_runs. intros blk Hblk'. apply IHc.
        destruct (Hblocks blocks eq_refl) as (pre & post & -> & Hpre & Hpost).
        rewrite forallb_forall in Hpre, Hpost.
        apply in_app_or in Hblk' as [Hin | [<- | Hin]].
        -- specialize (Hpre _ Hin). destruct blk; try discriminate.
           simpl. lia.
        -- simpl. lia.
        -- specialize (Hpost _ Hin). destruct blk; try discriminate.
           simpl. lia.
      * apply bind_Raise_inv in H as [H | ([[b' i1] st2] & _ & H)];
          [|discriminate].
        revert H. apply IHc.
        destruct b; simpl in Ekv; inversion Ekv; subst; simpl in Hd |- *;
          lia.
Qed.

(** The limit [walk_process_figures] sets is never reached. *)
Lemma walk_process_figures_runs uuid_at i blocks fmt st :
  walk_process_figures uuid_at i blocks fmt st <> Raise RecursionError.
Proof.
  unfold walk_process_figures. intros H.
  apply bind_Raise_inv in H as [H | ([[bs i1] st1] & _ & H)];
    [|discriminate].
  revert H. apply walk_list_runs. intros b Hb. apply walk_runs.
  apply max_of_le, Hb.
Qed.

(** ** The table after the first pass *)

Lemma caption_grown_in p value value' x :
  caption_grown value value' -> In x value -> in_inline p x ->
  exists x', In x' value' /\ in_inline p x'.
Proof.
  intros [-> | (a & cap & tgt & rest & pre & post & -> & -> & _)] Hin Hp;
    [eauto|].
  destruct Hin as [<- | Hin]; [|exists x; split; [right; exact Hin|exact Hp]].
  inversion Hp as [a0 cap0 tgt0 y Hy Hpy| |]; subst.
  exists (Image a (pre ++ cap ++ post) tgt). split; [left; reflexivity|].
  apply (in_caption p a _ tgt y); [|exact Hpy].
  apply in_or_app. right. apply in_or_app. left. exact Hy.
Qed.

Lemma walk_state_grows uuid_at fmt depth :
  keeps state_grows (walk_inline uuid_at fmt depth) /\
  keeps state_grows (walk_children uuid_at fmt depth) /\
  keeps state_grows (walk_block uuid_at fmt depth).
Proof.
  apply walk_keeps.
  - apply state_grows_refl.
  - apply state_grows_trans.
  - intros u key value ret value' s s' H.
    eapply state_grows_process_figures, H.
Qed.

Section WalkFinds.

(** A property of the state that holds on once it holds. *)
Variable Q : Globals -> Prop.
Hypothesis Q_grows : forall st st', state_grows st st' -> Q st -> Q st'.

Lemma walk_list_finds {A B : Type} (f : walker A (list B)) xs x :
  keeps state_grows f -> In x xs ->
  (forall i st y i' st', f x i st = Ok (y, i', st') -> Q st') ->
  forall i st y i' st', walk_list f xs i st = Ok (y, i', st') -> Q st'.
Proof.
  intros Hf Hin Hx. induction xs as [|a xs IH]; [destruct Hin|].
  intros i st y i' st' H.
  apply walk_list_Ok in H
    as (ys & i1 & st1 & zs & i2 & st2 & Ha & Hxs & H).
  inversion H; subst. destruct Hin as [-> | Hin].
  - eapply Q_grows; [|eapply Hx, Ha].
    exact (walk_list_keeps state_grows state_grows_refl state_grows_trans
             f Hf _ _ _ _ _ _ Hxs).
  - eapply IH; eauto.
Qed.

Lemma walk_each_finds {A : Type} (f : walker A A) xs x :
  keeps state_grows f -> In x xs ->
  (forall i st y i' st', f x i st = Ok (y, i', st') -> Q st') ->
  forall i st y i' st', walk_each f xs i st = Ok (y, i', st') -> Q st'.
Proof.
  intros Hf Hin Hx. apply (walk_list_finds _ xs x); [|exact Hin|].
  - intros a i st y i' st' H.
    apply bind_Ok in H as ([[z i1] st1] & Ha & H).
    inversion H; subst. eapply Hf, Ha.
  - intros i st y i' st' H.
    apply bind_Ok in H as ([[z i1] st1] & Ha & H).
    inversion H; subst. eapply Hx, Ha.
Qed.

Variable uuid_at : nat -> string.
Variable fmt : string.

(** The block that is looked for: the action makes the property hold. *)
Variable p : Block.
Hypothesis Q_action : forall u st ret value' st',
  process_figures u (fst (key_value p)) (snd (key_value p)) fmt st
    = Ok (ret, value', st') -> Q st'.

Lemma walk_finds depth :
  (forall x i st y i' st',
     walk_inline uuid_at fmt depth x i st = Ok (y, i', st') ->
     in_inline p x -> Q st') /\
  (forall b i st y i' st',
     walk_children uuid_at fmt depth b i st = Ok (y, i', st') ->
     in_children p b -> Q st') /\
  (forall b i st y i' st',
     walk_block uuid_at fmt depth b i st = Ok (y, i', st') ->
     in_block p b -> Q st').
Proof.
  induction depth as [|d (IHi & IHc & IHb)];
    [repeat split; intros x i st y i' st' H; discriminate|].
  destruct (walk_state_grows uuid_at fmt d) as (Ki & Kc & Kb).
  assert (Kp : keeps state_grows (walk_part (walk_inline uuid_at fmt d)
                                             (walk_block uuid_at fmt d)))
    by (apply walk_part_keeps;
        [apply state_grows_refl|apply state_grows_trans|exact Ki|exact Kb]).
  assert (Hinl : forall xs x i st y i' st',
            walk_each (walk_inline uuid_at fmt d) xs i st = Ok (y, i', st') ->
            In x xs -> in_inline p x -> Q st').
  { intros xs x i st y i' st' H Hin Hp.
    apply (walk_each_finds _ xs x Ki Hin) with (i := i) (st := st) (y := y)
                                               (i' := i'); [|exact H].
    intros j s z j' s' Hz. exact (IHi _ _ _ _ _ _ Hz Hp). }
  assert (Hblk : forall bs b i st y i' st',
            walk_list (walk_block uuid_at fmt d) bs i st = Ok (y, i', st') ->
            In b bs -> in_block p b -> Q st').
  { intros bs b i st y i' st' H Hin Hp.
    apply (walk_list_finds _ bs b Kb Hin) with (i := i) (st := st) (y := y)
                                               (i' := i'); [|exact H].
    intros j s z j' s' Hz. exact (IHb _ _ _ _ _ _ Hz Hp). }
  assert (Hchi : forall bs b i st y i' st',
            walk_each (walk_children uuid_at fmt d) bs i st
              = Ok (y, i', st') ->
            In b bs -> in_children p b -> Q st').
  { intros bs b i st y i' st' H Hin Hp.
    apply (walk_each_finds _ bs b Kc Hin) with (i := i) (st := st) (y := y)
                                               (i' := i'); [|exact H].
    intros j s z j' s' Hz. exact (IHc _ _ _ _ _ _ Hz Hp). }
  repeat split.
  - intros x i st y i' st' H Hp. simpl in H.
    destruct Hp as [a cap tgt x Hin Hp|bs b Hin Hp|t xs x Hin Hp];
      apply bind_Ok in H as ([[c i1] st1] & Hw & H); inversion H; subst.
    + exact (Hinl _ _ _ _ _ _ _ Hw Hin Hp).
    + exact (Hblk _ _ _ _ _ _ _ Hw Hin Hp).
    + exact (Hinl _ _ _ _ _ _ _ Hw Hin Hp).
  - intros b i st y i' st' H Hp. simpl in H.
    destruct Hp as [v x Hin Hp|t parts xs x Hpart Hin Hp
                   |t parts bs b Hpart Hin Hp];
      apply bind_Ok in H as ([[c i1] st1] & Hw & H); inversion H; subst.
    + exact (Hinl _ _ _ _ _ _ _ Hw Hin Hp).
    + apply (walk_each_finds _ parts _ Kp Hpart)
        with (i := i) (st := st) (y := c) (i' := i'); [|exact Hw].
      intros j s z j' s' Hz. simpl in Hz.
      apply bind_Ok in Hz as ([[c' j1] s1] & Hz & Hz').
      inversion Hz'; subst. exact (Hinl _ _ _ _ _ _ _ Hz Hin Hp).
    + apply (walk_each_finds _ parts _ Kp Hpart)
        with (i := i) (st := st) (y := c) (i' := i'); [|exact Hw].
      intros j s z j' s' Hz. simpl in Hz.
      apply bind_Ok in Hz as ([[c' j1] s1] & Hz & Hz').
      inversion Hz'; subst. exact (Hblk _ _ _ _ _ _ _ Hz Hin Hp).
  - intros b i st y i' st' H Hp. simpl in H.
    destruct (key_value b) as [key value] eqn:Ekv.
    apply bind_Ok in H as ([[ret value'] st1] & Hfig & H).
    destruct Hp as [|b Hp].
    + (* the block itself *)
      assert (HQ : Q st1).
      { apply (Q_action (uuid_at i) st ret value').
        rewrite Ekv. exact Hfig. }
      apply (Q_grows st1); [|exact HQ].
      destruct ret as [blocks|].
      * exact (walk_each_keeps state_grows state_grows_refl state_grows_trans
                 _ Kc _ _ _ _ _ _ H).
      * apply bind_Ok in H as ([[b' i1] st2] & Hw & H). inversion H; subst.
        eapply Kc, Hw.
    + (* below the block *)
      destruct (process_figures_shape _ _ _ _ _ _ _ _ Hfig) as [Hg Hblocks].
      assert (Hval : forall x, In x value -> in_inline p x ->
                exists blk,
                  in_children p blk /\
                  (forall blocks, ret = Some blocks -> In blk blocks) /\
                  (ret = None -> blk = set_value value' b) /\
                  (blk = Para value' \/ blk = set_value value' b)).
      { intros x Hin Hx.
        destruct (caption_grown_in p _ _ _ Hg Hin Hx) as (x' & Hin' & Hx').
        destruct ret as [blocks|].
        - exists (Para value'). split; [exact (in_para p _ _ Hin' Hx')|].
          split; [|split; [discriminate|left; reflexivity]].
          intros blocks0 [= <-].
          destruct (Hblocks blocks eq_refl) as (pre & post & -> & _).
          apply in_or_app. right. left. reflexivity.
        - exists (set_value value' b). split.
          + destruct b as [v|f s|t parts]; simpl in Ekv; inversion Ekv;
              subst; simpl.
            * exact (in_para p _ _ Hin' Hx').
            * destruct Hin.
            * destruct Hin.
          + split; [discriminate|]. split; [reflexivity|right; reflexivity]. }
      assert (Hgo : forall blk,
                in_children p blk ->
                (forall blocks, ret = Some blocks -> In blk blocks) ->
                (ret = None -> blk = set_value value' b) -> Q st').
      { intros blk Hblk' Hsome Hnone. destruct ret as [blocks|].
        - exact (Hchi _ _ _ _ _ _ _ H (Hsome _ eq_refl) Hblk').
        - apply bind_Ok in H as ([[b' i1] st2] & Hw & H).
          inversion H; subst. rewrite (Hnone eq_refl) in Hblk'.
          exact (IHc _ _ _ _ _ _ Hw Hblk'). }
      destruct Hp as [v x Hin Hx|t parts xs x Hpart Hin Hx
                     |t parts bs b0 Hpart Hin Hx];
        simpl in Ekv; inversion Ekv; subst.
      * destruct (Hval x Hin Hx) as (blk & Hb1 & Hb2 & Hb3 & _).
        exact (Hgo blk Hb1 Hb2 Hb3).
      * unfold process_figures, is_figure_para in Hfig.
        rewrite andb_false_r in Hfig. simpl in Hfig.
        inversion Hfig; subst.
        apply (Hgo (OtherBlock key parts)).
        -- exact (in_inlines p key _ _ _ Hpart Hin Hx).
        -- discriminate.
        -- reflexivity.
      * unfold process_figures, is_figure_para in Hfig.
        rewrite andb_false_r in Hfig. simpl in Hfig.
        inversion Hfig; subst.
        apply (Hgo (OtherBlock key parts)).
        -- exact (in_blocks_of p key _ _ _ Hpart Hin Hx).
        -- discriminate.
        -- reflexivity.
Qed.

Lemma walk_process_figures_finds i blocks st blocks' st' :
  walk_process_figures uuid_at i blocks fmt st = Ok (blocks', st') ->
  in_blocks p blocks -> Q st'.
Proof.
  unfold walk_process_figures. intros H (b & Hin & Hp).
  apply bind_Ok in H as ([[bs i1] st1] & Hw & H). inversion H; subst.
  destruct (walk_state_grows uuid_at fmt (max_of block_depth blocks))
    as (_ & _ & Kb).
  apply (walk_list_finds _ blocks b Kb Hin) with (i := i) (st := st)
                                                 (y := blocks') (i' := i1);
    [|exact Hw].
  intros j s z j' s' Hz.
  exact (proj2 (proj2 (walk_finds _)) _ _ _ _ _ _ Hz Hp).
Qed.

End WalkFinds.

(** X14: after a walk that returns, every figure paragraph of the document
    whose label conforms and is not the bare prefix has its entry in the
    reference table, wherever it stands in the document and however deep:
    in a block quote, a list item, a footnote or the caption of a figure
    as well as among the top-level blocks.  No figure that comes later in
    the walk removes it. *)
Theorem X14_table_has_every_labelled_figure uuid_at i blocks fmt st blocks'
    st' a cap url title :
  walk_process_figures uuid_at i blocks fmt st = Ok (blocks', st') ->
  in_blocks (Para [Image (Some a) cap (url, title)]) blocks ->
  startswith title "fig:" = true ->
  LABEL_PATTERN_match (attrs_id a) = true ->
  attrs_id a <> "fig:" ->
  is_Some (references (proc st') !! attrs_id a).
Proof.
  intros Hwalk Hin Htitle Hlab Hbare.
  apply (walk_process_figures_finds
           (fun s => is_Some (references (proc s) !! attrs_id a))
           ltac:(intros s s' Hs; apply Hs)
           uuid_at fmt (Para [Image (Some a) cap (url, title)]))
    with (i := i) (blocks := blocks) (st := st) (blocks' := blocks');
    [|exact Hwalk|exact Hin].
  intros u s ret value' s' Hfig. simpl in Hfig.
  assert (Hguard : is_figure_para "Para" [Image (Some a) cap (url, title)]
                   = true) by (unfold is_figure_para; simpl; exact Htitle).
  unfold process_figures in Hfig. rewrite Hguard in Hfig.
  apply bind_Ok in Hfig as ([fig s1] & Hrun & Hfig).
  apply bind_Ok in Hfig as (value1 & _ & Hfig).
  apply bind_Ok in Hfig as ([ret' s2] & Hmark & Hfig).
  inversion Hfig; subst; clear Hfig.
  destruct (_process_figure_labelled_result _ _ _ _ _ _ _ _ _ Hlab Hrun)
    as (tagged & a3 & entry & _ & _ & Hentry).
  assert (Hname : attrs_id (name_anonymous u a) = attrs_id a).
  { unfold name_anonymous. apply String.eqb_neq in Hbare.
    rewrite Hbare. reflexivity. }
  rewrite Hname in Hentry.
  destruct (_add_markup_state _ _ _ _ _ _ Hmark) as [Hproc _].
  rewrite Hproc, Hentry. eauto.
Qed.

Lemma X14_table_has_every_labelled_figure_witness :
  exists blocks' st',
    walk_process_figures same_uuid 0
      [Para (figure "fig:a" (VInt 0) None); RawBlock "tex" "\newpage";
       OtherBlock "BlockQuote"
         [Blocks [Para (figure "fig:b" (VInt 0) None)]]]
      "html" (initial "2.7")
      = Ok (blocks', st')
    /\ is_Some (references (proc st') !! "fig:b").
Proof.
  do 2 eexists. split; [vm_compute; reflexivity|].
  eapply (X14_table_has_every_labelled_figure same_uuid 0
            [Para (figure "fig:a" (VInt 0) None); RawBlock "tex" "\newpage";
             OtherBlock "BlockQuote"
         [Blocks [Para (figure "fig:b" (VInt 0) None)]]]
            "html" (initial "2.7")
            _ _ (figure_attrs "fig:b" (VInt 0) None)
            [Str "A"; Space; Str "caption"] "img.png" "fig:").
  - vm_compute. reflexivity.
  - eexists. split; [right; right; left; reflexivity|].
    apply in_below.
    apply (in_blocks_of _ _ _ [Para (figure "fig:b" (VInt 0) None)]
             (Para (figure "fig:b" (VInt 0) None)));
      [left; reflexivity|left; reflexivity|apply in_here].
  - reflexivity.
  - reflexivity.
  - discriminate.
Defined.

(** ** An error in the first pass *)

Lemma process_figures_empty_tag u a cap url title fmt st :
  LABEL_PATTERN_match (attrs_id a) = true ->
  is_Some (attrs_kvs a !! "secno") ->
  attrs_kvs a !! "tag" = Some (VStr EmptyString) ->
  startswith title "fig:" = true ->
  process_figures u "Para" [Image (Some a) cap (url, title)] fmt st
    = Raise IndexError.
Proof.
  intros Hlab [secno Hsec] Htag Htitle.
  assert (Hguard : is_figure_para "Para" [Image (Some a) cap (url, title)]
                   = true) by (unfold is_figure_para; simpl; exact Htitle).
  unfold process_figures. rewrite Hguard.
  rewrite (_process_figure_labelled _ _ _ _ _ _ _ Hlab), Hsec.
  assert (Ht : attrs_kvs (name_anonymous u a) !! "tag"
               = Some (VStr EmptyString))
    by (rewrite kvs_name_anonymous; exact Htag).
  assert (Hk : has_key "tag" (name_anonymous u a) = true)
    by (apply has_key_true; rewrite Ht; eauto).
  rewrite (number_by_section_tagged _ _ _ Hk).
  unfold save_reference. rewrite Hk, (remove_quotes_empty _ Ht).
  reflexivity.
Qed.

Lemma walk_list_app {A B : Type} (f : walker A (list B)) pre rest i st :
  walk_list f (pre ++ rest) i st
  = match walk_list f pre i st with
    | Ok (ys, i1, st1) =>
        match walk_list f rest i1 st1 with
        | Ok (zs, i2, st2) => Ok (ys ++ zs, i2, st2)
        | Raise e => Raise e
        end
    | Raise e => Raise e
    end.
Proof.
  revert i st. induction pre as [|x pre IH]; intros i st.
  - simpl. destruct (walk_list f rest i st) as [[[zs i2] st2]|e]; reflexivity.
  - simpl. destruct (f x i st) as [[[ys i1] st1]|e]; [|reflexivity].
    unfold mbind at 1 3. unfold res_bind at 1 3. cbv beta iota.
    rewrite IH.
    destruct (walk_list f pre i1 st1) as [[[ys' i2] st2]|e]; [|reflexivity].
    simpl.
    destruct (walk_list f rest i2 st2) as [[[zs i3] st3]|e]; [|reflexivity].
    simpl. rewrite app_assoc. reflexivity.
Qed.

Lemma walk_process_figures_empty_tag uuid_at i pre post a cap url title fmt
    st :
  LABEL_PATTERN_match (attrs_id a) = true ->
  is_Some (attrs_kvs a !! "secno") ->
  attrs_kvs a !! "tag" = Some (VStr EmptyString) ->
  startswith title "fig:" = true ->
  (exists e,
     walk_process_figures uuid_at i
       (pre ++ Para [Image (Some a) cap (url, title)] :: post) fmt st
     = Raise e) /\
  (forallb (fun b => negb (has_figure b)) pre = true ->
   walk_process_figures uuid_at i
     (pre ++ Para [Image (Some a) cap (url, title)] :: post) fmt st
   = Raise IndexError).
Proof.
  intros Hlab Hsec Htag Htitle. unfold walk_process_figures.
  set (blocks := pre ++ Para [Image (Some a) cap (url, title)] :: post).
  set (depth := max_of block_depth blocks).
  assert (Hhere : forall j s,
            walk_list (walk_block uuid_at fmt depth)
              (Para [Image (Some a) cap (url, title)] :: post) j s
            = Raise IndexError).
  { intros j s.
    assert (Hd : (block_depth (Para [Image (Some a) cap (url, title)])
                  <= depth)%nat).
    { apply max_of_le. apply in_or_app. right. left. reflexivity. }
    destruct depth as [|d]; [simpl in Hd; lia|].
    simpl.
    rewrite (process_figures_empty_tag _ _ _ _ _ _ _ Hlab Hsec Htag Htitle).
    reflexivity. }
  unfold blocks at 1 2. rewrite walk_list_app. split.
  - destruct (walk_list (walk_block uuid_at fmt depth) pre i st)
      as [[[ys i1] st1]|e]; [|simpl; eauto].
    rewrite Hhere. simpl. eauto.
  - intros Hall.
    destruct (walk_list_same (walk_block uuid_at fmt depth) pre st)
      with (i := i) as [i' H].
    + intros b Hb. apply walk_same.
      * apply max_of_le. apply in_or_app. left. exact Hb.
      * rewrite forallb_forall in Hall. apply negb_true_iff, Hall, Hb.
    + rewrite H, Hhere. reflexivity.
Qed.

(** A figure paragraph below a block that comes before can end the run
    first, with another error: here the figure in the block quote has no
    section number. *)
Lemma walk_process_figures_nested_before :
  walk_process_figures same_uuid 0
    [OtherBlock "BlockQuote"
       [Blocks [Para [Image (Some (mkAttributes "fig:q" [] ∅)) []
                            ("img.png", "fig:")]]];
     Para (figure "fig:a" (VInt 0) (Some (VStr EmptyString)))]
    "html" (initial "2.7")
  = Raise KeyError.
Proof. vm_compute. reflexivity. Qed.

(** X15: one figure with an empty tag ends the whole run.  If the blocks
    the first pass walks hold a figure paragraph whose image has a
    conforming label, a section number and the empty string as tag, then
    [main] raises an error and returns no document; when the metadata is
    accepted and no figure paragraph comes before that one, at any depth,
    the error is the [IndexError] of the index into the tag. *)
Theorem X15_empty_tag_ends_the_run str_title int_of_str check_bool re_search
    attach_attrs_image insert_secnos delete_secnos detach_attrs_image
    second_pass uuid_at pandocversion fmt meta blocks b1 pre post
    a cap url title :
  LABEL_PATTERN_match (attrs_id a) = true ->
  is_Some (attrs_kvs a !! "secno") ->
  attrs_kvs a !! "tag" = Some (VStr EmptyString) ->
  startswith title "fig:" = true ->
  attach_attrs_image fmt meta blocks = Ok b1 ->
  insert_secnos fmt meta b1
    = Ok (pre ++ Para [Image (Some a) cap (url, title)] :: post) ->
  (exists e,
     main str_title int_of_str check_bool re_search attach_attrs_image
          insert_secnos delete_secnos detach_attrs_image second_pass uuid_at
          pandocversion fmt meta blocks = Raise e) /\
  (is_ok (process str_title int_of_str check_bool meta (initial pandocversion))
     = true ->
   forallb (fun b => negb (has_figure b)) pre = true ->
   main str_title int_of_str check_bool re_search attach_attrs_image
        insert_secnos delete_secnos detach_attrs_image second_pass uuid_at
        pandocversion fmt meta blocks = Raise IndexError).
Proof.
  intros Hlab Hsec Htag Htitle Hattach Hinsert. unfold main.
  destruct (process str_title int_of_str check_bool meta (initial pandocversion))
    as [st1|e] eqn:Ep.
  - unfold mbind at 1 9. unfold res_bind at 1 9. cbv beta iota.
    rewrite Hattach.
    unfold mbind at 1 8. unfold res_bind at 1 8. cbv beta iota.
    rewrite Hinsert.
    unfold mbind at 1 7. unfold res_bind at 1 7. cbv beta iota.
    destruct (walk_process_figures_empty_tag uuid_at 0 pre post a cap url
                title fmt st1 Hlab Hsec Htag Htitle) as [[e He] Hidx].
    split.
    + rewrite He. eauto.
    + intros _ Hall. rewrite (Hidx Hall). reflexivity.
  - split; [eauto|]. discriminate.
Qed.

Lemma X15_empty_tag_ends_the_run_witness :
  run_main "2.7" "html" scenario_D
    [Para [Str "Text."];
     Para (figure "fig:a" (VInt 0) (Some (VStr EmptyString)));
     Para (figure "fig:b" (VInt 0) None)]
  = Raise IndexError.
Proof.
  apply (proj2 (X15_empty_tag_ends_the_run ascii_title no_int check_bool_lib
                  never_found no_action no_action no_action no_action
                  no_second_pass same_uuid "2.7" "html" scenario_D
                  [Para [Str "Text."];
                   Para (figure "fig:a" (VInt 0) (Some (VStr EmptyString)));
                   Para (figure "fig:b" (VInt 0) None)]
                  [Para [Str "Text."];
                   Para (figure "fig:a" (VInt 0) (Some (VStr EmptyString)));
                   Para (figure "fig:b" (VInt 0) None)]
                  [Para [Str "Text."]]
                  [Para (figure "fig:b" (VInt 0) None)]
                  (figure_attrs "fig:a" (VInt 0) (Some (VStr EmptyString)))
                  [Str "A"; Space; Str "caption"] "img.png" "fig:"
                  eq_refl ltac:(vm_compute; eauto)
                  ltac:(vm_compute; reflexivity) eq_refl eq_refl eq_refl)).
  - vm_compute. reflexivity.
  - reflexivity.
Defined.

(** ** What [add_tex] appends *)

(** X16: [add_tex] leaves the metadata variables and the declarations that
    are already in header-includes as they are, in their order; what it adds
    comes after them.  With the default caption name [Figure] none of the
    added declarations is a caption-name directive, whether or not the
    caption name was set in the metadata. *)
Theorem X16_add_tex_appends re_search cleveref_required meta st meta' :
  add_tex re_search cleveref_required meta st = Ok meta' ->
  meta_vars meta' = meta_vars meta /\
  exists added,
    header_includes meta' = header_includes meta ++ added /\
    (captionname (vars st) = "Figure" -> Forall other_directive added).
Proof.
  intros H.
  destruct (add_tex_structure _ _ _ _ _ H)
    as (m1 & [Hv1 (l1 & Hh1 & F1)] & [Hv2 (l2 & Hh2 & F2)]).
  destruct (String.eqb (captionname (vars st)) "Figure") eqn:E;
    simpl in Hv2, Hh2.
  - split; [congruence|]. exists (l1 ++ l2).
    rewrite Hh2, Hh1, app_assoc. split; [reflexivity|].
    intros _. apply Forall_app. auto.
  - split; [congruence|].
    exists (l1 ++ [CAPTION_NAME_TEX (captionname (vars st))] ++ l2).
    rewrite Hh2, Hh1, <- !app_assoc. split; [reflexivity|].
    intros Hc. apply String.eqb_neq in E. contradiction.
Qed.

Lemma X16_add_tex_appends_witness :
  exists meta',
    add_tex never_found true
      (mkMeta ∅ ["\usepackage{graphicx}"])
      (set_has_unnumbered_figures true (initial "2.7")) = Ok meta'
    /\ exists added,
         header_includes meta' = ["\usepackage{graphicx}"] ++ added
         /\ Forall other_directive added.
Proof.
  eexists. split; [reflexivity|].
  destruct (X16_add_tex_appends never_found true
              (mkMeta ∅ ["\usepackage{graphicx}"])
              (set_has_unnumbered_figures true (initial "2.7")) _ eq_refl)
    as (_ & added & Hh & Hother).
  exists added. split; [exact Hh | exact (Hother eq_refl)].
Defined.

(** ** A quoted tag *)

Lemma rstrip_append_char c s :
  rstrip c (s +:+ String c EmptyString) = rstrip c s.
Proof.
  induction s as [|d s IH].
  - change (rstrip c (EmptyString +:+ String c EmptyString))
      with (if Ascii.eqb c c then EmptyString else String c EmptyString).
    rewrite Ascii.eqb_refl. reflexivity.
  - rewrite append_cons.
    change (rstrip c (String d (s +:+ String c EmptyString)))
      with (match rstrip c (s +:+ String c EmptyString) with
            | EmptyString =>
                if Ascii.eqb d c then EmptyString else String d EmptyString
            | String x r => String d (String x r)
            end).
    rewrite IH. reflexivity.
Qed.

Lemma rstrip_unchanged c s :
  endswith_char s c = false -> rstrip c s = s.
Proof.
  induction s as [|d s IH]; [reflexivity|]. intros H.
  destruct s as [|e s].
  - unfold endswith_char in H. simpl in H. simpl. rewrite H. reflexivity.
  - assert (Hs : endswith_char (String e s) c = false) by exact H.
    change (rstrip c (String d (String e s)))
      with (match rstrip c (String e s) with
            | EmptyString =>
                if Ascii.eqb d c then EmptyString else String d EmptyString
            | String x r => String d (String x r)
            end).
    rewrite (IH Hs). reflexivity.
Qed.

Lemma lstrip_unchanged c s :
  startswith_char s c = false -> lstrip c s = s.
Proof.
  destruct s as [|d s]; [reflexivity|]. unfold startswith_char. simpl.
  intros ->. reflexivity.
Qed.

Lemma strip_quoted c inner :
  startswith_char inner c = false ->
  endswith_char inner c = false ->
  strip c (String c (inner +:+ String c EmptyString)) = inner.
Proof.
  intros Hs He. unfold strip. simpl lstrip. rewrite Ascii.eqb_refl.
  destruct inner as [|d r].
  - simpl. rewrite Ascii.eqb_refl. reflexivity.
  - rewrite lstrip_unchanged.
    + rewrite rstrip_append_char. apply rstrip_unchanged, He.
    + unfold startswith_char in *. simpl in *. exact Hs.
Qed.

(** X17: a tag written in one pair of straight quotes, double or single, is
    stored without them: for a text that neither begins nor ends with the
    quote character, the entry made for the figure holds that text, with the
    section id the figure is in. *)
Theorem X17_quoted_tag_round_trip u a cap tgt rest fmt st secno q inner :
  q = dquote \/ q = squote ->
  startswith_char inner q = false ->
  endswith_char inner q = false ->
  LABEL_PATTERN_match (attrs_id a) = true ->
  attrs_kvs a !! "secno" = Some secno ->
  attrs_kvs a !! "tag"
    = Some (VStr (String q (inner +:+ String q EmptyString))) ->
  exists fig st',
    _process_figure u (Image (Some a) cap tgt :: rest) fmt st = Ok (fig, st')
    /\ is_tagged fig = true
    /\ references (proc st') !! attrs_id (name_anonymous u a)
       = Some (VStr inner, cursec (proc st')).
Proof.
  intros Hq Hs He Hlab Hsec Htag.
  destruct (_process_figure_tagged_runs u a cap tgt rest fmt st secno _
              Hlab Hsec Htag ltac:(discriminate)) as (a' & _ & _ & Hrun).
  do 2 eexists. split; [exact Hrun|]. split; [reflexivity|].
  simpl. rewrite lookup_insert_eq. do 2 f_equal.
  assert (Hend : endswith_char (String q (inner +:+ String q EmptyString)) q
                 = true).
  { unfold endswith_char.
    change (String q (inner +:+ String q EmptyString))
      with (String q inner +:+ String q EmptyString).
    rewrite last_char_append_char. apply Ascii.eqb_refl. }
  assert (Hstart : startswith_char
                     (String q (inner +:+ String q EmptyString)) q = true)
    by (unfold startswith_char; simpl first_char; apply Ascii.eqb_refl).
  unfold unquoted.
  destruct Hq as [Hq | Hq]; subst q.
  - rewrite Hstart, Hend. simpl andb. cbv iota.
    f_equal. apply strip_quoted; assumption.
  - assert (Hd : startswith_char
                   (String squote (inner +:+ String squote EmptyString))
                   dquote = false) by reflexivity.
    rewrite Hd, Hstart, Hend. simpl andb. cbv iota.
    f_equal. apply strip_quoted; assumption.
Qed.

Lemma X17_quoted_tag_round_trip_witness :
  exists fig st',
    _process_figure "u"
      (figure "fig:e" (VStr "1")
         (Some (VStr (String squote ("S 1" +:+ String squote EmptyString)))))
      "html" (initial "2.7") = Ok (fig, st')
    /\ is_tagged fig = true
    /\ references (proc st') !! "fig:e" = Some (VStr "S 1", cursec (proc st')).
Proof.
  apply (X17_quoted_tag_round_trip "u"
           (figure_attrs "fig:e" (VStr "1")
              (Some (VStr (String squote
                             ("S 1" +:+ String squote EmptyString)))))
           [Str "A"; Space; Str "caption"] ("img.png", "fig:") [] "html"
           (initial "2.7") (VStr "1") squote "S 1").
  - right. reflexivity.
  - reflexivity.
  - reflexivity.
  - reflexivity.
  - vm_compute. reflexivity.
  - vm_compute. reflexivity.
Defined.
